(** * add-in: the apply/delete engine of [lib/index.js]

    A shallow embedding of the scaffolding engine (registry parsing, token
    substitution, destination resolution, the init-command sandbox, JSON
    patching, the apply and delete pipelines) together with the properties
    the specification states about it.

    Conventions of the embedding.
    - A JavaScript string is a [string]: a sequence of code units below
      256.  Blanks and lower-casing are those of the source on every such
      code unit, and so is upper-casing but for U+00B5 and U+00FF, whose
      upper-case forms are code units above 255 (see [JS.upperLeaves]).
    - [null] and [undefined] are [None]; a thrown [Error] is [Throw msg]
      with the message the source builds; [Beyond] marks a run that leaves
      the fragment of JavaScript the embedding covers.
    - A plain object is an association list in insertion order (the
      reordering of integer-like keys is not modelled).
    - The host (process, [os], [path], [fs], [child_process], the network
      and the [RegExp] and [JSON] engines) is not part of the repository:
      it is a record of operations, and the engine is written against that
      record.  Effectful code threads a world (file system, terminal
      input, the two module-level caches, the URLs requested)
      and appends to a trace of events.
    - Lines printed only under [verbose] are diagnostics and are not
      recorded in the trace. *)

From Stdlib Require Import ZArith Ascii String List Bool Lia DecimalString.
From stdpp Require Import base option list strings gmap.

Local Open Scope bool_scope.
Set Warnings "-register-all".

(* ===================================================================== *)
(** ** JavaScript string primitives used by the source *)
(* ===================================================================== *)

Module JS.

Definition code (c : ascii) : nat := nat_of_ascii c.

Definition isUpperAZ (c : ascii) : bool := (65 <=? code c) && (code c <=? 90).
Definition isLowerAZ (c : ascii) : bool := (97 <=? code c) && (code c <=? 122).
Definition isDigit (c : ascii) : bool := (48 <=? code c) && (code c <=? 57).

(** [\s] and the blanks removed by [trim()], among the code units below
    256: tab, LF, VT, FF, CR, space and the no-break space U+00A0. *)
Definition isSpace (c : ascii) : bool :=
  ((9 <=? code c) && (code c <=? 13)) || (code c =? 32) || (code c =? 160).

(** [\w] *)
Definition isWord (c : ascii) : bool :=
  isUpperAZ c || isLowerAZ c || isDigit c || (code c =? 95).

(** The letters of U+00C0 to U+00FE that have another case: all but the
    multiplication sign, the sharp s and the division sign. *)
Definition isUpperLatin (c : ascii) : bool :=
  (192 <=? code c) && (code c <=? 222) && negb (code c =? 215).
Definition isLowerLatin (c : ascii) : bool :=
  (224 <=? code c) && (code c <=? 254) && negb (code c =? 247).

(** The upper-case and the lower-case form of a code unit, where it is one
    code unit below 256. *)
Definition upperChar (c : ascii) : ascii :=
  if isLowerAZ c || isLowerLatin c then ascii_of_nat (code c - 32) else c.
Definition lowerChar (c : ascii) : ascii :=
  if isUpperAZ c || isUpperLatin c then ascii_of_nat (code c + 32) else c.

(** The code units whose upper-case form is not one code unit below 256:
    the micro sign (U+039C), the sharp s (the two code units SS) and y
    with diaeresis (U+0178). *)
Definition upperLeaves (c : ascii) : bool :=
  (code c =? 181) || (code c =? 223) || (code c =? 255).

(** [c === c.toUpperCase()] for a code unit [c] *)
Definition upperKeeps (c : ascii) : bool :=
  Ascii.eqb c (upperChar c) && negb (upperLeaves c).

(** [c.toUpperCase()] for a code unit [c]: the sharp s becomes SS; the
    micro sign and y with diaeresis, whose upper-case forms no string of
    the embedding holds, are kept. *)
Definition upperOf (c : ascii) : string :=
  if code c =? 223 then String "S" (String "S" EmptyString)
  else String (upperChar c) EmptyString.

Fixpoint mapChars (f : ascii -> ascii) (s : string) : string :=
  match s with
  | EmptyString => EmptyString
  | String c r => String (f c) (mapChars f r)
  end.

Fixpoint toUpperCase (s : string) : string :=
  match s with
  | EmptyString => EmptyString
  | String c r => append (upperOf c) (toUpperCase r)
  end.
Definition toLowerCase : string -> string := mapChars lowerChar.

Definition isEmpty (s : string) : bool :=
  match s with EmptyString => true | _ => false end.

Fixpoint drop (n : nat) (s : string) : string :=
  match n, s with
  | S k, String _ r => drop k r
  | _, _ => s
  end.

Fixpoint take (n : nat) (s : string) : string :=
  match n, s with
  | S k, String c r => String c (take k r)
  | _, _ => EmptyString
  end.

(** [s.substring(a, b)]: the bounds are swapped when [a > b]. *)
Definition substring (s : string) (a b : nat) : string :=
  take (Nat.max a b - Nat.min a b) (drop (Nat.min a b) s).

(** [s.substring(a)] and [s.slice(a)] for [a >= 0]. *)
Definition substringFrom (s : string) (a : nat) : string := drop a s.

(** [s.slice(0, -n)] *)
Definition dropLast (n : nat) (s : string) : string :=
  take (String.length s - n) s.

(** [s.charAt(0)] *)
Definition charAt0 (s : string) : string :=
  match s with
  | EmptyString => EmptyString
  | String c _ => String c EmptyString
  end.

(** [s.startsWith(p)] *)
Definition startsWith (s p : string) : bool := String.prefix p s.

(** [s.includes(sub)] *)
Fixpoint includes (s sub : string) : bool :=
  String.prefix sub s ||
  match s with
  | EmptyString => false
  | String _ r => includes r sub
  end.

(** [/[...]/.test(s)] for a one-character class [P] *)
Fixpoint anyChar (P : ascii -> bool) (s : string) : bool :=
  match s with
  | EmptyString => false
  | String c r => P c || anyChar P r
  end.

(** [s.endsWith(p)] *)
Definition endsWith (s p : string) : bool :=
  (String.length p <=? String.length s) &&
  String.eqb (drop (String.length s - String.length p) s) p.

Fixpoint indexOfAux (sub s : string) (i : nat) : option nat :=
  if String.prefix sub s then Some i
  else match s with
       | EmptyString => None
       | String _ r => indexOfAux sub r (S i)
       end.

(** [s.indexOf(sub, from)]; [None] stands for [-1]. *)
Definition indexOf (s sub : string) (from : nat) : option nat :=
  indexOfAux sub (drop from s) (Nat.min from (String.length s)).

Fixpoint trimStart (s : string) : string :=
  match s with
  | EmptyString => EmptyString
  | String c r => if isSpace c then trimStart r else s
  end.

Fixpoint trimEnd (s : string) : string :=
  match s with
  | EmptyString => EmptyString
  | String c r =>
      let r' := trimEnd r in
      if isSpace c && isEmpty r' then EmptyString else String c r'
  end.

(** [s.trim()] *)
Definition trim (s : string) : string := trimEnd (trimStart s).

(** [parts.join(sep)] *)
Fixpoint join (sep : string) (parts : list string) : string :=
  match parts with
  | [] => EmptyString
  | [p] => p
  | p :: ps => p +:+ sep +:+ join sep ps
  end.

(** Scanner behind [s.split(sep)] for a non-empty [sep]: returns the
    piece under construction and the pieces after it.  [skip] counts the
    code units of a separator already recognised. *)
Fixpoint splitAux (sep : string) (skip : nat) (s : string) : string * list string :=
  match s with
  | EmptyString => (EmptyString, [])
  | String c r =>
      match skip with
      | S k => splitAux sep k r
      | O =>
          if String.prefix sep s
          then (EmptyString,
                let '(p, ps) := splitAux sep (String.length sep - 1) r in p :: ps)
          else let '(p, ps) := splitAux sep 0 r in (String c p, ps)
      end
  end.

Fixpoint chars (s : string) : list string :=
  match s with
  | EmptyString => []
  | String c r => String c EmptyString :: chars r
  end.

(** [s.split(sep)] with a string separator. *)
Definition split (sep s : string) : list string :=
  if isEmpty sep then chars s
  else let '(p, ps) := splitAux sep 0 s in p :: ps.

(** [s.split(/[...]/)] with a one-character class [P]. *)
Fixpoint splitClassAux (P : ascii -> bool) (s : string) : string * list string :=
  match s with
  | EmptyString => (EmptyString, [])
  | String c r =>
      let '(p, ps) := splitClassAux P r in
      if P c then (EmptyString, p :: ps) else (String c p, ps)
  end.

Definition splitClass (P : ascii -> bool) (s : string) : list string :=
  let '(p, ps) := splitClassAux P s in p :: ps.

(** [GetSubstitution] for a pattern without capture groups: [$$], [$&],
    [$`] and [$'] are expanded, every other [$] stays as it is. *)
Fixpoint getSubstitution (matched before after repl : string) : string :=
  match repl with
  | EmptyString => EmptyString
  | String c r =>
      if (code c =? 36) then
        match r with
        | String d r' =>
            if (code d =? 36) then String c (getSubstitution matched before after r')
            else if (code d =? 38) then matched +:+ getSubstitution matched before after r'
            else if (code d =? 96) then before +:+ getSubstitution matched before after r'
            else if (code d =? 39) then after +:+ getSubstitution matched before after r'
            else String c (getSubstitution matched before after r)
        | EmptyString => String c EmptyString
        end
      else String c (getSubstitution matched before after r)
  end.

(** Scanner behind [s.replace(/pat/g, repl)] for a literal, non-empty
    [pat]: [whole] is the string the call was made on, [pos] the index
    of the head of [s] in it. *)
Fixpoint replaceAux (pat repl whole : string) (pos skip : nat) (s : string) : string :=
  match s with
  | EmptyString => EmptyString
  | String c r =>
      match skip with
      | S k => replaceAux pat repl whole (S pos) k r
      | O =>
          if String.prefix pat s
          then getSubstitution pat (take pos whole)
                               (drop (pos + String.length pat) whole) repl
               +:+ replaceAux pat repl whole (S pos) (String.length pat - 1) r
          else String c (replaceAux pat repl whole (S pos) 0 r)
      end
  end.

(** [s.replace(/pat/g, repl)] *)
Definition replaceAll (pat repl s : string) : string :=
  replaceAux pat repl s 0 0 s.

(** [s.replace(/c/g, '')] for a one-character pattern *)
Fixpoint removeChar (P : ascii -> bool) (s : string) : string :=
  match s with
  | EmptyString => EmptyString
  | String c r => if P c then removeChar P r else String c (removeChar P r)
  end.

(** [s.replace(/c/g, d)] for one-character pattern and replacement *)
Definition replaceChar (P : ascii -> bool) (d : ascii) (s : string) : string :=
  mapChars (fun c => if P c then d else c) s.

(** [s.replace(pat, repl)] with a string pattern: first occurrence only. *)
Fixpoint replaceFirstAux (pat repl whole : string) (pos : nat) (s : string) : string :=
  if String.prefix pat s
  then getSubstitution pat (take pos whole)
                       (drop (pos + String.length pat) whole) repl
       +:+ drop (String.length pat) s
  else match s with
       | EmptyString => EmptyString
       | String c r => String c (replaceFirstAux pat repl whole (S pos) r)
       end.

Definition replaceFirst (pat repl s : string) : string :=
  replaceFirstAux pat repl s 0 s.

End JS.


(* ===================================================================== *)
(** ** Process and session state read by the engine *)
(* ===================================================================== *)

(** [process.platform === 'win32'], [process.cwd()], [os.homedir()]. *)
Record Process := {
  win32 : bool;
  cwd : string;
  homedir : string
}.

(** The module-level variables of [lib/index.js] set by [parseArgs]. *)
Record Session := {
  verbose : bool;
  silent : bool;
  forceApproval : bool;
  preserve : bool;
  outDir : option string;
  replaceTokens : list (string * string);
  gistLinksId : string
}.

(* ===================================================================== *)
(** ** Token substitution engine *)
(* ===================================================================== *)

(** [str.replace(/([a-z])([A-Z])/g, '$1-$2')] *)
Fixpoint hyphenate (s : string) : string :=
  match s with
  | EmptyString => EmptyString
  | String a s' =>
      match s' with
      | String b r =>
          if JS.isLowerAZ a && JS.isUpperAZ b
          then String a (String "-"%char (String b (hyphenate r)))
          else String a (hyphenate s')
      | EmptyString => String a EmptyString
      end
  end.

Definition camelToKebab (str : string) : string :=
  JS.toLowerCase (hyphenate str).

(** [ch !== ch.toUpperCase()] *)
Definition differsFromUpper (c : ascii) : bool :=
  negb (JS.upperKeeps c).

(** [ch === ch.toUpperCase() && ch !== ch.toLowerCase()] *)
Definition isCapital (c : ascii) : bool :=
  JS.upperKeeps c && negb (Ascii.eqb c (JS.lowerChar c)).

(** The [for] loop of [splitPascalCase]: [i] is the index of the head of
    [s] in the input and [prev] is [input[i-1]]. *)
Fixpoint splitPascalLoop (i : nat) (prev : option ascii) (s : string) : string :=
  match s with
  | EmptyString => EmptyString
  | String c rest =>
      let back :=
        (1 <? i) && match prev with Some p => differsFromUpper p | None => false end in
      let ahead :=
        match rest with String d _ => differsFromUpper d | EmptyString => false end in
      let tail := String c (splitPascalLoop (S i) (Some c) rest) in
      if isCapital c && (back || ahead) then String " "%char tail else tail
  end.

Definition splitPascalCase (input : string) : string :=
  JS.trim (splitPascalLoop 0 None input).

Definition sepChars : list ascii := [" "; "-"; "+"; "_"]%char.

Definition isSep (c : ascii) : bool :=
  existsb (Ascii.eqb c) sepChars.

(** [w.charAt(0).toUpperCase() + w.slice(1)] *)
Definition titleCase (w : string) : string :=
  JS.toUpperCase (JS.charAt0 w) +:+ JS.substringFrom w 1.

Definition sanitizeProjectName (name : option string) : option string :=
  match name with
  | None => None
  | Some n =>
      if JS.isEmpty n then None
      else if negb (existsb (fun c => JS.includes n (String c EmptyString)) sepChars)
      then Some n
      else
        let words := JS.splitClass isSep n in
        Some (JS.join EmptyString (map titleCase (filter (fun w => negb (JS.isEmpty w)) words)))
  end.

(** The six placeholder spellings, in the order they are replaced. *)
Definition placeholders : list string :=
  ["My_App"; "MyApp"; "My App"; "my-app"; "myapp"; "my_app"].

(** The chain of six [replace] calls of [replaceMyApp]. *)
Definition replacePlaceholders (input projName : string) : string :=
  let condensed := JS.removeChar (Ascii.eqb "_"%char) projName in
  let kebab := camelToKebab condensed in
  let split := splitPascalCase condensed in
  JS.replaceAll "my_app" (JS.toLowerCase projName)
    (JS.replaceAll "myapp" (JS.toLowerCase condensed)
      (JS.replaceAll "my-app" kebab
        (JS.replaceAll "My App" split
          (JS.replaceAll "MyApp" condensed
            (JS.replaceAll "My_App" projName input))))).

(** [for (const [term, replacement] of replaceTokens)
       result = result.split(term).join(replacement)] *)
Definition applyReplaceTokens (tokens : list (string * string)) (s : string) : string :=
  fold_left (fun acc tr => JS.join (snd tr) (JS.split (fst tr) acc)) tokens s.

Definition replaceMyApp (p : Process) (ss : Session)
    (input : string) (projName : option string) : string :=
  match projName with
  | None => input
  | Some pn =>
      if JS.isEmpty input || JS.isEmpty pn then input
      else
        let result := replacePlaceholders input pn in
        let result :=
          if negb (win32 p) then JS.removeChar (Ascii.eqb "013"%char) result else result in
        applyReplaceTokens (replaceTokens ss) result
  end.

Definition osPaths (p : Process) (filePath : string) : string :=
  if win32 p then JS.replaceChar (Ascii.eqb "/"%char) "\"%char filePath
  else JS.replaceChar (Ascii.eqb "\"%char) "/"%char filePath.


(* ===================================================================== *)
(** ** Registry parser *)
(* ===================================================================== *)

(** [obj[k] = v] on a plain object kept as an association list in
    insertion order.  Assigning a string to [__proto__] reaches the
    inherited setter and creates no own property. *)
Fixpoint assocSet {V} (k : string) (v : V) (kvs : list (string * V)) : list (string * V) :=
  match kvs with
  | [] => [(k, v)]
  | (k', v') :: rest =>
      if String.eqb k' k then (k, v) :: rest else (k', v') :: assocSet k v rest
  end.

Fixpoint assocGet {V} (k : string) (kvs : list (string * V)) : option V :=
  match kvs with
  | [] => None
  | (k', v') :: rest => if String.eqb k' k then Some v' else assocGet k rest
  end.

Definition hasKey {V} (k : string) (kvs : list (string * V)) : bool :=
  match assocGet k kvs with Some _ => true | None => false end.

Fixpoint assocDel {V} (k : string) (kvs : list (string * V)) : list (string * V) :=
  match kvs with
  | [] => []
  | (k', v') :: rest =>
      if String.eqb k' k then assocDel k rest else (k', v') :: assocDel k rest
  end.

(** The longest prefix of [s] whose code units satisfy [P], and the rest. *)
Fixpoint span (P : ascii -> bool) (s : string) : string * string :=
  match s with
  | EmptyString => (EmptyString, EmptyString)
  | String c r =>
      if P c then let '(a, b) := span P r in (String c a, b)
      else (EmptyString, s)
  end.

Module Registry.

Record LinkRecord := {
  name : string;
  url : string;
  user : option string;
  to : option string;
  description : string;
  tags : option (list string);
  gistId : option string;
  repo : option string;
  modifiers : list (string * string)
}.

(** A match of [/- \[([^\]]+)\]\(([^)]+)\)/] at the head of [s]: the two
    groups and the length of the match. *)
Definition matchLinkAt (s : string) : option (string * string * nat) :=
  if String.prefix "- [" s then
    let '(nm, r1) := span (fun c => negb (Ascii.eqb c "]"%char)) (JS.drop 3 s) in
    if JS.isEmpty nm then None
    else if String.prefix "](" r1 then
      let '(u, r2) := span (fun c => negb (Ascii.eqb c ")"%char)) (JS.drop 2 r1) in
      if JS.isEmpty u then None
      else if String.prefix ")" r2
      then Some (nm, u, 3 + String.length nm + 2 + String.length u + 1)
      else None
    else None
  else None.

(** [trimmed.match(...)]: the leftmost position with a match. *)
Fixpoint matchLink (s : string) : option (string * string * nat) :=
  match matchLinkAt s with
  | Some m => Some m
  | None =>
      match s with
      | EmptyString => None
      | String _ r => matchLink r
      end
  end.

(** A match of the modifier pattern at the head of [s]: a run of word
    characters, a colon, and then a double-quoted, a single-quoted or a
    bare value (tried in that order).  Returns the key, the value of the
    group that took part, and the length of the match. *)
Definition quoted (q : ascii) (s : string) : option (string * nat) :=
  match s with
  | String c r =>
      if Ascii.eqb c q then
        let '(v, r2) := span (fun d => negb (Ascii.eqb d q)) r in
        if JS.isEmpty v then None
        else match r2 with
             | String _ _ => Some (v, String.length v + 2)
             | EmptyString => None
             end
      else None
  | EmptyString => None
  end.

Definition bare (s : string) : option (string * nat) :=
  let '(v, _) :=
    span (fun d => negb (JS.isSpace d || Ascii.eqb d ","%char || Ascii.eqb d "}"%char)) s in
  if JS.isEmpty v then None else Some (v, String.length v).

Definition matchModifierAt (s : string) : option (string * string * nat) :=
  let '(k, r) := span JS.isWord s in
  if JS.isEmpty k then None
  else match r with
       | String c r' =>
           if Ascii.eqb c ":"%char then
             match quoted "034"%char r' with
             | Some (v, n) => Some (k, v, String.length k + 1 + n)
             | None =>
                 match quoted "'"%char r' with
                 | Some (v, n) => Some (k, v, String.length k + 1 + n)
                 | None =>
                     match bare r' with
                     | Some (v, n) => Some (k, v, String.length k + 1 + n)
                     | None => None
                     end
                 end
             end
           else None
       | EmptyString => None
       end.

(** [for (const match of modStr.matchAll(...)) modifiers[match[1]] = ...] *)
Fixpoint parseModifiers (skip : nat) (s : string)
    (mods : list (string * string)) : list (string * string) :=
  match s with
  | EmptyString => mods
  | String _ r =>
      match skip with
      | S k => parseModifiers k r mods
      | O =>
          match matchModifierAt s with
          | Some (k, v, n) =>
              parseModifiers (n - 1) r
                (if String.eqb k "__proto__" then mods else assocSet k v mods)
          | None => parseModifiers 0 r mods
          end
      end
  end.

(** The modifier block: the parsed modifiers and the text after it. *)
Definition takeModifiers (remaining : string) : list (string * string) * string :=
  if JS.startsWith remaining "{" then
    match JS.indexOf remaining "}" 0 with
    | Some endBrace =>
        if 0 <? endBrace then
          (parseModifiers 0 (JS.substring remaining 1 endBrace) [],
           JS.trim (JS.substringFrom remaining (endBrace + 1)))
        else ([], remaining)
    | None => ([], remaining)
    end
  else ([], remaining).

(** The tag block: the parsed tags and the text after it. *)
Definition takeTags (remaining : string) : option (list string) * string :=
  if JS.startsWith remaining "`" then
    match JS.indexOf remaining "`" 1 with
    | Some endTick =>
        if 0 <? endTick then
          (Some (filter (fun t => negb (JS.isEmpty t))
                   (map JS.trim (JS.split "," (JS.substring remaining 1 endTick)))),
           JS.trim (JS.substringFrom remaining (endTick + 1)))
        else (None, remaining)
    | None => (None, remaining)
    end
  else (None, remaining).

(** [url.startsWith('https://') ? url.substring(8).split('/')[1] : ''],
    followed by the normalisation of the two legacy handles. *)
Definition authorSegment (url : string) : option string :=
  if JS.startsWith url "https://"
  then nth_error (JS.split "/" (JS.substringFrom url (String.length "https://"))) 1
  else Some EmptyString.

Definition normalizeUser (user : option string) : option string :=
  match user with
  | Some u =>
      if String.eqb u "gistlyn" || String.eqb u "mythz" then Some "ServiceStack"
      else Some u
  | None => None
  end.

(** [modifiers.to || null] *)
Definition orNull (v : option string) : option string :=
  match v with
  | Some s => if JS.isEmpty s then None else Some s
  | None => None
  end.

Definition parseGistLink (line : string) : option LinkRecord :=
  let trimmed := JS.trim line in
  if negb (JS.startsWith trimmed "- [") then None
  else
    match matchLink trimmed with
    | None => None
    | Some (name, url, matchLen) =>
        let remaining := JS.trim (JS.substringFrom trimmed matchLen) in
        let '(modifiers, remaining) := takeModifiers remaining in
        let '(tags, remaining) := takeTags remaining in
        let description := remaining in
        let user := normalizeUser (authorSegment url) in
        let '(user, gistId, repo) :=
          if JS.startsWith url "https://gist.github.com"
          then (user, last (JS.split "/" url), None)
          else if JS.startsWith url "https://github.com/"
          then
            let pathInfo := JS.substringFrom url (String.length "https://github.com/") in
            let parts := JS.split "/" pathInfo in
            (nth_error parts 0,
             None,
             match nth_error parts 1 with
             | Some p1 => nth_error (JS.split "/" p1) 0
             | None => None
             end)
          else (user, None, None) in
        Some {| name := name; url := url; user := user;
                to := orNull (assocGet "to" modifiers);
                description := description; tags := tags;
                gistId := gistId; repo := repo; modifiers := modifiers |}
    end.

(** [parseGistLinks(md)] *)
Definition parseGistLinks (md : string) : list LinkRecord :=
  if JS.isEmpty md then []
  else omap parseGistLink (JS.split (String "010"%char EmptyString) md).

End Registry.

(* ===================================================================== *)
(** ** Outcomes *)
(* ===================================================================== *)

(** The outcome of a call: a value, a thrown exception with its message,
    or [Beyond]: the run has left the fragment of the host language that
    the embedding covers (the reason is recorded). *)
Inductive result (A : Type) : Type :=
| Ok (a : A)
| Throw (msg : string)
| Beyond (why : string).
Arguments Ok {A} a.
Arguments Throw {A} msg.
Arguments Beyond {A} why.

Definition rbind {A B} (r : result A) (k : A -> result B) : result B :=
  match r with
  | Ok a => k a
  | Throw m => Throw m
  | Beyond w => Beyond w
  end.

Definition isOk {A} (r : result A) : bool :=
  match r with Ok _ => true | _ => false end.

(** Messages of the exceptions raised by the engine itself. *)
Definition typeError : string := "TypeError".

(* ===================================================================== *)
(** ** JSON documents and the JSON patch *)
(* ===================================================================== *)

(** Values a parsed JSON document is made of.  Objects keep their members
    in insertion order.  [JUndefined] is the value of a missing property.
    A number is an integer that a double holds exactly and prints in full
    (the engine does not look into numbers; the in-memory reader turns
    down the others). *)
Inductive json : Type :=
| JUndefined
| JNull
| JBool (b : bool)
| JNum (n : Z)
| JStr (s : string)
| JArr (items : list json)
| JObj (members : list (string * json)).

(** Names every plain object inherits from [Object.prototype]: for these
    [key in obj] holds without an own property. *)
Definition inheritedKeys : list string :=
  ["constructor"; "__proto__"; "hasOwnProperty"; "isPrototypeOf";
   "propertyIsEnumerable"; "toLocaleString"; "toString"; "valueOf";
   "__defineGetter__"; "__defineSetter__"; "__lookupGetter__";
   "__lookupSetter__"].

Definition isInherited (k : string) : bool :=
  existsb (String.eqb k) inheritedKeys.

Module Patch.

Inductive opKind := OpSet | OpRemove | OpOther.

(** One patch operation as the loop body reads it: [op.path], [op.op]
    and [op.value]. *)
Record operation := {
  opPath : string;
  kind : opKind;
  value : json
}.

(** Reading [op.path.split], [op.op] and [op.value] off an element of
    the patch document.  Only an object with a string [path] gets past
    [op.path.split('/')]. *)
Definition readOp (op : json) : result operation :=
  match op with
  | JObj ms =>
      match assocGet "path" ms with
      | Some (JStr p) =>
          Ok {| opPath := p;
                kind := match assocGet "op" ms with
                        | Some (JStr o) =>
                            if String.eqb o "add" || String.eqb o "replace" then OpSet
                            else if String.eqb o "remove" then OpRemove
                            else OpOther
                        | _ => OpOther
                        end;
                value := match assocGet "value" ms with
                         | Some v => v
                         | None => JUndefined
                         end |}
      | _ => Throw typeError
      end
  | _ => Throw typeError
  end.

(** [op.path.split('/').filter(p => p)] *)
Definition pathParts (path : string) : list string :=
  filter (fun p => negb (JS.isEmpty p)) (JS.split "/" path).

(** The cursor [target] walks down the document; a frame remembers the
    members of an object the cursor went through and the key it took,
    so that an update of the cursor is an update of the document. *)
Definition frame : Type := list (string * json) * string.

Definition plug (ctx : list frame) (v : json) : json :=
  fold_left (fun child (f : frame) => JObj (assocSet (snd f) child (fst f))) ctx v.

(** [for (i = 0; i < pathParts.length - 1; i++)
      { if (!(key in target)) target[key] = {}; target = target[key]; }] *)
Fixpoint descend (keys : list string) (ctx : list frame) (target : json)
    : result (list frame * json) :=
  match keys with
  | [] => Ok (ctx, target)
  | key :: rest =>
      match target with
      | JObj ms =>
          match assocGet key ms with
          | Some child => descend rest ((ms, key) :: ctx) child
          | None =>
              if isInherited key then Beyond "inherited property on the path"
              else descend rest ((assocSet key (JObj []) ms, key) :: ctx) (JObj [])
          end
      | JArr _ => Beyond "array on the path"
      | _ => Throw typeError
      end
  end.

(** [pathParts[pathParts.length - 1]] used as a property key *)
Definition lastKey (parts : list string) : string :=
  match last parts with
  | Some k => k
  | None => "undefined"
  end.

(** The [switch (op.op)] on the cursor. *)
Definition applyAt (k : opKind) (key : string) (v : json) (target : json) : result json :=
  match k with
  | OpOther => Ok target
  | OpSet =>
      match target with
      | JObj ms =>
          if String.eqb key "__proto__" && negb (hasKey key ms)
          then
            (* the inherited setter: a value that is no object and not
               null is dropped; another one replaces the prototype *)
            match v with
            | JObj _ | JArr _ | JNull => Beyond "assignment to the prototype"
            | _ => Ok target
            end
          else Ok (JObj (assocSet key v ms))
      | JArr _ => Beyond "array at the last segment"
      | JUndefined | JNull => Throw typeError
      | _ => Ok target
      end
  | OpRemove =>
      match target with
      | JObj ms => Ok (JObj (assocDel key ms))
      | JArr _ => Beyond "array at the last segment"
      | JUndefined | JNull => Throw typeError
      | _ => Ok target
      end
  end.

(** The body of [for (const op of patchJson)]. *)
Definition applyOp (targetJson : json) (op : json) : result json :=
  rbind (readOp op) (fun o =>
    let parts := pathParts (opPath o) in
    rbind (descend (removelast parts) [] targetJson) (fun '(ctx, target) =>
      rbind (applyAt (kind o) (lastKey parts) (value o) target) (fun target' =>
        Ok (plug ctx target')))).

(** What [for (const op of patchJson)] iterates over. *)
Definition iterate (patchJson : json) : result (list json) :=
  match patchJson with
  | JArr ops => Ok ops
  | JStr s => Ok (map JStr (JS.chars s))
  | _ => Throw typeError
  end.

Fixpoint applyOps (targetJson : json) (ops : list json) : result json :=
  match ops with
  | [] => Ok targetJson
  | op :: rest => rbind (applyOp targetJson op) (fun t => applyOps t rest)
  end.

(** The patch loop of [patchJsonFile] on parsed documents. *)
Definition applyPatch (targetJson patchJson : json) : result json :=
  rbind (iterate patchJson) (applyOps targetJson).

End Patch.

(* ===================================================================== *)
(** ** The host *)
(* ===================================================================== *)

(** [fs.Dirent] as returned by [readdirSync(dir, { withFileTypes: true })]. *)
Record Dirent := {
  d_name : string;
  d_isDirectory : bool;
  d_isFile : bool
}.

(** The modules of the platform the engine calls into.  [FS] is the state
    of the file system; an operation that can fail returns a [result]
    whose message is the host's. *)
Record Host := {
  FS : Type;
  (* path *)
  path_join : string -> string -> string;
  path_resolve : string -> string -> string;
  path_dirname : string -> string;
  path_basename : string -> string;
  (* fs *)
  existsSync : FS -> string -> bool;
  readdirSync : FS -> string -> result (list Dirent);
  readFileSync : FS -> string -> result string;
  writeFileSync : FS -> string -> string -> result FS;
  mkdirSync : FS -> string -> result FS;
  unlinkSync : FS -> string -> result FS;
  rmSync : FS -> string -> result FS;
  (* engines *)
  regexTest : string -> string -> result bool;
  JSON_parse : string -> result json;
  JSON_stringify : json -> string;
  base64Decode : string -> string;
  decodeURIComponent : string -> result string;
  (* network: the body of a successful GET, parsed *)
  getJson : string -> result json;
  (* child_process.spawnSync(executable, args, { cwd, shell: false }):
     the file system the process leaves behind, and [result.error] *)
  spawnSync : FS -> string -> list string -> string -> FS * option string
}.

(** A bundle: file name to content, in the order of [Object.entries]. *)
Definition Bundle : Type := list (string * string).

(** What a run does to the outside, in order. *)
Inductive event :=
| Log (line : string)
| Spawn (executable : string) (args : list string) (dir : string) (shell : bool)
| FsWrite (path : string)
| FsMkdir (path : string)
| FsUnlink (path : string)
| FsRm (path : string).

Definition isMutation (e : event) : bool :=
  match e with
  | FsWrite _ | FsMkdir _ | FsUnlink _ | FsRm _ => true
  | _ => false
  end.

Definition isSpawn (e : event) : bool :=
  match e with Spawn _ _ _ _ => true | _ => false end.

(** The state a pipeline threads: the file system, the keys still to be
    read from the terminal, the events so far (latest last), the two
    module-level caches [gistFilesCache] and [gistLinksCache], and the
    URLs [getJson] has handed to [httpRequest] so far (latest last). *)
Record World (h : Host) := {
  fs : FS h;
  stdin : list string;
  trace : list event;
  gistFilesCache : list (string * Bundle);
  gistLinksCache : list (string * list Registry.LinkRecord);
  requests : list string
}.
Arguments fs {h} w.
Arguments stdin {h} w.
Arguments trace {h} w.
Arguments gistFilesCache {h} w.
Arguments gistLinksCache {h} w.
Arguments requests {h} w.

Definition withFs {h} (f : FS h) (w : World h) : World h :=
  {| fs := f; stdin := stdin w; trace := trace w;
     gistFilesCache := gistFilesCache w; gistLinksCache := gistLinksCache w;
     requests := requests w |}.

Definition withStdin {h} (keys : list string) (w : World h) : World h :=
  {| fs := fs w; stdin := keys; trace := trace w;
     gistFilesCache := gistFilesCache w; gistLinksCache := gistLinksCache w;
     requests := requests w |}.

(** The world with one more event. *)
Definition logged {h} (w : World h) (e : event) : World h :=
  {| fs := fs w; stdin := stdin w; trace := trace w ++ [e];
     gistFilesCache := gistFilesCache w; gistLinksCache := gistLinksCache w;
     requests := requests w |}.

(** [gistFilesCache.set(key, files)] and [gistLinksCache.set(key, links)] *)
Definition cacheFiles {h} (key : string) (files : Bundle) (w : World h) : World h :=
  {| fs := fs w; stdin := stdin w; trace := trace w;
     gistFilesCache := assocSet key files (gistFilesCache w);
     gistLinksCache := gistLinksCache w; requests := requests w |}.

Definition cacheLinks {h} (key : string) (links : list Registry.LinkRecord)
    (w : World h) : World h :=
  {| fs := fs w; stdin := stdin w; trace := trace w;
     gistFilesCache := gistFilesCache w;
     gistLinksCache := assocSet key links (gistLinksCache w);
     requests := requests w |}.

(** The world after [getJson] has handed [url] to [httpRequest]. *)
Definition requested {h} (url : string) (w : World h) : World h :=
  {| fs := fs w; stdin := stdin w; trace := trace w;
     gistFilesCache := gistFilesCache w; gistLinksCache := gistLinksCache w;
     requests := requests w ++ [url] |}.

(** Effectful code: a state transformer that may throw.  The world at the
    time of the throw is kept. *)
Definition M (h : Host) (A : Type) : Type := World h -> result A * World h.

Definition ret {h A} (a : A) : M h A := fun w => (Ok a, w).

Definition bind {h A B} (m : M h A) (k : A -> M h B) : M h B :=
  fun w =>
    match m w with
    | (Ok a, w') => k a w'
    | (Throw e, w') => (Throw e, w')
    | (Beyond y, w') => (Beyond y, w')
    end.

Definition throw {h A} (msg : string) : M h A := fun w => (Throw msg, w).

Definition lift {h A} (r : result A) : M h A := fun w => (r, w).

(** [try { m } catch (e) { handler(e) }] *)
Definition catch {h A} (m : M h A) (handler : string -> M h A) : M h A :=
  fun w =>
    match m w with
    | (Throw e, w') => handler e w'
    | other => other
    end.

Definition emit {h} (e : event) : M h unit :=
  fun w => (Ok tt, logged w e).

Definition getFs {h} : M h (FS h) := fun w => (Ok (fs w), w).

Definition putFs {h} (f : FS h) : M h unit :=
  fun w => (Ok tt, withFs f w).

Declare Scope m_scope.
Delimit Scope m_scope with M.
Notation "'let!' x ':=' m 'in' k" := (bind m (fun x => k))
  (at level 10, x pattern, m at level 100, k at level 200) : m_scope.

(** [for (const x of xs) body(x)] *)
Fixpoint forEach {h A} (xs : list A) (body : A -> M h unit) : M h unit :=
  match xs with
  | [] => ret tt
  | x :: rest => bind (body x) (fun _ => forEach rest body)
  end.

(** A mutating [fs] call: the new file system, and the event. *)
Definition fsMutate {h} (op : FS h -> result (FS h)) (e : event) : M h unit :=
  fun w =>
    match op (fs w) with
    | Ok f => (Ok tt, logged (withFs f w) e)
    | Throw m => (Throw m, w)
    | Beyond y => (Beyond y, w)
    end.

(* ===================================================================== *)
(** ** Destination resolver *)
(* ===================================================================== *)

Definition HOST_FILES : list string :=
  ["appsettings.json"; "Web.config"; "App.config"; "Startup.cs"; "Program.cs";
   "*.csproj"].

Definition DEFAULT_MAX_DEPTH : nat := 10.

Definition skippedDirectory (name : string) : bool :=
  String.eqb name "node_modules" || String.eqb name "bin" || String.eqb name "obj".

Section Resolver.

Context (h : Host) (p : Process) (ss : Session).

(** [findFiles(dir, pattern, maxDepth)].  An exception inside the [try]
    (a failing [readdirSync], a pattern that is not a regular
    expression) ends the loop and keeps what was found so far. *)
Fixpoint findFiles (f : FS h) (dir pattern : string) (maxDepth : nat)
    : result (list string) :=
  match maxDepth with
  | O => Ok []
  | S depth =>
      match readdirSync h f dir with
      | Ok entries =>
          (fix loop (entries : list Dirent) (results : list string)
               : result (list string) :=
             match entries with
             | [] => Ok results
             | entry :: rest =>
                 if JS.startsWith (d_name entry) "." then loop rest results
                 else
                   let fullPath := path_join h dir (d_name entry) in
                   if d_isDirectory entry then
                     if negb (skippedDirectory (d_name entry))
                     then rbind (findFiles f fullPath pattern depth)
                                (fun found => loop rest (results ++ found))
                     else loop rest results
                   else if d_isFile entry then
                     if JS.includes pattern "*" then
                       match regexTest h ("^" +:+ JS.replaceAll "*" ".*" pattern +:+ "$")
                               (d_name entry) with
                       | Ok true => loop rest (results ++ [fullPath])
                       | Ok false => loop rest results
                       | Throw _ => Ok results
                       | Beyond why => Beyond why
                       end
                     else if String.eqb (d_name entry) pattern
                     then loop rest (results ++ [fullPath])
                     else loop rest results
                   else loop rest results
             end) entries []
      | Throw _ => Ok []
      | Beyond why => Beyond why
      end
  end.

(** [findDirectories(dir, name, maxDepth)] *)
Fixpoint findDirectories (f : FS h) (dir name : string) (maxDepth : nat)
    : result (list string) :=
  match maxDepth with
  | O => Ok []
  | S depth =>
      match readdirSync h f dir with
      | Ok entries =>
          (fix loop (entries : list Dirent) (results : list string)
               : result (list string) :=
             match entries with
             | [] => Ok results
             | entry :: rest =>
                 if JS.startsWith (d_name entry) "." then loop rest results
                 else if d_isDirectory entry then
                   let fullPath := path_join h dir (d_name entry) in
                   let results :=
                     if String.eqb (d_name entry) name then results ++ [fullPath]
                     else results in
                   if negb (skippedDirectory (d_name entry))
                   then rbind (findDirectories f fullPath name depth)
                              (fun found => loop rest (results ++ found))
                   else loop rest results
                 else loop rest results
             end) entries []
      | Throw _ => Ok []
      | Beyond why => Beyond why
      end
  end.

(** The [for (const hostFile of HOST_FILES)] loop of [resolveBasePath]. *)
Fixpoint firstHostFile (f : FS h) (hostFiles : list string) : result (option string) :=
  match hostFiles with
  | [] => Ok None
  | hostFile :: rest =>
      rbind (findFiles f (cwd p) hostFile DEFAULT_MAX_DEPTH) (fun files =>
        match files with
        | first :: _ => Ok (Some (path_dirname h first))
        | [] => firstHostFile f rest
        end)
  end.

(** [resolveBasePath(to, exSuffix)] *)
Definition resolveBasePath (f : FS h) (to : option string) (exSuffix : string)
    : result string :=
  match to with
  | None => Ok (cwd p)
  | Some to =>
      if String.eqb to "." || JS.isEmpty to then Ok (cwd p)
      else if JS.includes to ".." then
        Throw ("Invalid location '" +:+ to +:+ "'" +:+ exSuffix)
      else if JS.startsWith to "/" then
        if win32 p
        then Throw ("Cannot write to '" +:+ to +:+ "' on Windows" +:+ exSuffix)
        else Ok to
      else if JS.includes to ":\" then
        if negb (win32 p)
        then Throw ("Cannot write to '" +:+ to +:+ "'" +:+ exSuffix)
        else Ok to
      else if JS.startsWith to "$" then
        if JS.startsWith to "$HOST" then
          rbind (firstHostFile f HOST_FILES) (fun found =>
            match found with
            | Some dir => Ok dir
            | None =>
                Throw ("Couldn't find host project location containing any of "
                       +:+ JS.join ", " HOST_FILES +:+ exSuffix)
            end)
        else if JS.startsWith to "$HOME"
        then Ok (JS.replaceFirst "$HOME" (homedir p) to)
        else Throw ("Unknown location '" +:+ to +:+ "'" +:+ exSuffix)
      else if JS.endsWith to "/" then
        let dirName := JS.dropLast 1 to in
        rbind (findDirectories f (cwd p) dirName DEFAULT_MAX_DEPTH) (fun dirs =>
          match dirs with
          | [] => Throw ("Unable to find Directory named '" +:+ dirName +:+ "'" +:+ exSuffix)
          | first :: _ => Ok first
          end)
      else
        rbind (findFiles f (cwd p) to DEFAULT_MAX_DEPTH) (fun files =>
          match files with
          | [] => Throw ("Unable to find File named '" +:+ to +:+ "'" +:+ exSuffix)
          | first :: _ => Ok (path_dirname h first)
          end)
  end.

(** The first half of [resolveFilePath]: substitution on the name, the
    optional marker removed, resolution against the base. *)
Definition resolveNaive (gistFilePath basePath : string) (projName : option string)
    : string :=
  let fileName := replaceMyApp p ss (osPaths p gistFilePath) projName in
  let fileName := if JS.endsWith fileName "?" then JS.dropLast 1 fileName else fileName in
  path_resolve h basePath (osPaths p fileName).

(** [projName + '.' + gistFilePath] *)
Definition qualified (projName : option string) (gistFilePath : string) : string :=
  match projName with Some n => n | None => "null" end +:+ "." +:+ gistFilePath.

(** [resolveFilePath(gistFilePath, basePath, projName, applyTo)].  The
    inner call is made with [applyTo = '.'] and so is the naive one. *)
Definition resolveFilePath (f : FS h) (gistFilePath basePath : string)
    (projName : option string) (applyTo : option string) : string :=
  let resolvedFile := resolveNaive gistFilePath basePath projName in
  let writesToFolder := JS.includes gistFilePath "\" in
  if match applyTo with Some a => String.eqb a "$HOST" | None => false end
     && writesToFolder
     && negb (existsSync h f (path_dirname h resolvedFile))
  then
    let resolvedPath := resolveNaive (qualified projName gistFilePath) (cwd p) projName in
    if existsSync h f (path_dirname h resolvedPath) then resolvedPath else resolvedFile
  else resolvedFile.

End Resolver.

(* ===================================================================== *)
(** ** Command sandbox *)
(* ===================================================================== *)

Module Sandbox.

Definition allowedPrefixes : list string :=
  ["npm "; "yarn "; "pnpm "; "nuget "; "dotnet "; "flutter "; "dart "; "kamal "].

(** [prefixes.some(c => cmd.startsWith(c))] *)
Definition startsWithAny (cmd : string) (prefixes : list string) : bool :=
  existsb (JS.startsWith cmd) prefixes.

(** The additional restrictions on [nuget], [dotnet], [flutter], [dart]
    and [kamal] lines: [true] when one of them turns the line down. *)
Definition restricted (cmd : string) : bool :=
  (JS.startsWith cmd "nuget"
     && negb (startsWithAny cmd ["nuget add"; "nuget restore"; "nuget update"]))
  || (JS.startsWith cmd "dotnet"
        && negb (startsWithAny cmd ["dotnet add "; "dotnet restore"])
        && negb (String.eqb cmd "dotnet restore"))
  || (JS.startsWith cmd "flutter" && negb (JS.startsWith cmd "flutter create "))
  || (JS.startsWith cmd "dart"
        && negb (startsWithAny cmd ["dart pub add"; "dart pub get"]))
  || (JS.startsWith cmd "kamal" && negb (JS.startsWith cmd "kamal init")).

(** The characters of the class in the illegal-character test: double
    quote, single quote, ampersand, semicolon, dollar, at-sign, pipe and
    greater-than. *)
Definition illegalChars : list ascii :=
  ["034"; "'"; "&"; ";"; "$"; "@"; "|"; ">"]%char.

Definition isIllegal (c : ascii) : bool := existsb (Ascii.eqb c) illegalChars.

(** What the loop body decides for one line of the script. *)
Inductive verdict :=
| Comment
| NotSupported
| NotAllowed
| IllegalCharacters (cmd : string)
| Execute (cmd : string) (executable : string) (rawArgs : list string).

Definition judge (line : string) : verdict :=
  let trimmed := JS.trim line in
  if JS.startsWith trimmed "#" then Comment
  else
    let cmd := trimmed in
    if negb (startsWithAny cmd allowedPrefixes) then NotSupported
    else if restricted cmd then NotAllowed
    else if JS.anyChar isIllegal cmd then IllegalCharacters cmd
    else
      let cmdParts := JS.split " " cmd in
      Execute cmd (hd EmptyString cmdParts) (tl cmdParts).

End Sandbox.

(* ===================================================================== *)
(** ** Fetching bundles and the registry *)
(* ===================================================================== *)

Definition GIST_ID_LENGTH_SHORT : nat := 20.
Definition GIST_ID_LENGTH_LONG : nat := 32.
Definition GIST_ID_LENGTH_FULL : nat := 40.

(** JavaScript truthiness of a JSON value. *)
Definition truthy (v : json) : bool :=
  match v with
  | JUndefined | JNull | JBool false => false
  | JNum n => negb (Z.eqb n 0)
  | JStr s => negb (JS.isEmpty s)
  | _ => true
  end.

(** [v.k] for a property name [k] that no prototype defines. *)
Definition getField (v : json) (k : string) : result json :=
  match v with
  | JUndefined | JNull => Throw typeError
  | JObj ms => Ok (match assocGet k ms with Some x => x | None => JUndefined end)
  | _ => Ok JUndefined
  end.

Definition natToString (n : nat) : string :=
  NilEmpty.string_of_uint (Nat.to_uint n).

(** [Object.entries(v)]; the members of an object are taken in the order
    they are kept. *)
Definition objectEntries (v : json) : list (string * json) :=
  match v with
  | JObj ms => ms
  | JArr items => imap (fun i x => (natToString i, x)) items
  | JStr s => imap (fun i c => (natToString i, JStr c)) (JS.chars s)
  | _ => []
  end.

(** [fromJsonGist(response, gistRef)] *)
Definition fromJsonGist (response : json) (gistRef : string) : result Bundle :=
  rbind (getField response "files") (fun files =>
    if negb (truthy files)
    then Throw ("Invalid gist response returned for '" +:+ gistRef +:+ "'")
    else
      fold_left
        (fun (acc : result Bundle) (entry : string * json) =>
           rbind acc (fun bundle =>
             rbind (getField (snd entry) "content") (fun content =>
               rbind (if negb (truthy content) then Ok EmptyString
                      else match content with
                           | JStr s => Ok s
                           | _ => Beyond "file content that is not a string"
                           end)
                     (fun text =>
                        Ok (if String.eqb (fst entry) "__proto__" then bundle
                            else assocSet (fst entry) text bundle)))))
        (objectEntries files) (Ok [])).

Section Fetch.

Context (h : Host) (ss : Session).

(** The URL [getJson(route)] asks for: the API host unless the route is
    a URL already. *)
Definition routeUrl (route : string) : string :=
  if JS.startsWith route "http" then route else "https://api.github.com" +:+ route.

(** [getJson(route)] *)
Definition getJsonRoute (route : string) : result json :=
  getJson h (routeUrl route).

(** What [getGistFiles] works out from its argument before it asks the
    network: the route to ask for, the reference used in messages, and
    the URL of the bundle. *)
Definition gistRoute (gistIdOrUrl : string) : result (string * string * string) :=
  if negb (JS.includes gistIdOrUrl "://") then
    Ok ("/gists/" +:+ gistIdOrUrl, gistIdOrUrl, "https://gist.github.com/" +:+ gistIdOrUrl)
  else if JS.startsWith gistIdOrUrl "https://gist.github.com/" then
    let parts :=
      JS.split "/" (JS.substringFrom gistIdOrUrl (String.length "https://gist.github.com/")) in
    rbind
      (match parts with
       | [_; b; c] => Ok (JS.join "/" [b; c])
       | [a; b] =>
           if (String.length a =? GIST_ID_LENGTH_SHORT)
              || (String.length a =? GIST_ID_LENGTH_LONG)
           then Ok (JS.join "/" [a; b]) else Ok b
       | [a] => Ok a
       | _ => Throw ("Invalid Gist URL '" +:+ gistIdOrUrl +:+ "'")
       end)
      (fun gistId => Ok ("/gists/" +:+ gistId, gistId, gistIdOrUrl))
  else Ok (gistIdOrUrl, gistIdOrUrl, gistIdOrUrl).

(** [getGistFiles(gistIdOrUrl)] past the cache: the files and the URL of
    the bundle. *)
Definition fetchGistFiles (gistIdOrUrl : string) : result (Bundle * string) :=
  rbind (gistRoute gistIdOrUrl) (fun '(route, gistRef, gistUrl) =>
    rbind (getJsonRoute route) (fun json =>
      rbind (fromJsonGist json gistRef) (fun files =>
        Ok (files, gistUrl)))).

(** [getGistFiles(gistIdOrUrl)]: a cached bundle is returned with the
    identifier as its URL and nothing is asked of the network; otherwise
    the request goes out and a bundle that arrives is put in the cache. *)
Definition getGistFiles (gistIdOrUrl : string) : M h (Bundle * string) :=
  fun w =>
    match assocGet gistIdOrUrl (gistFilesCache w) with
    | Some files => (Ok (files, gistIdOrUrl), w)
    | None =>
        let w1 :=
          match gistRoute gistIdOrUrl with
          | Ok (route, _, _) => requested (routeUrl route) w
          | _ => w
          end in
        match fetchGistFiles gistIdOrUrl with
        | Ok (files, gistUrl) => (Ok (files, gistUrl), cacheFiles gistIdOrUrl files w1)
        | Throw msg => (Throw msg, w1)
        | Beyond why => (Beyond why, w1)
        end
    end.

(** [getGistApplyLinks()] *)
Definition getGistApplyLinks : M h (list Registry.LinkRecord) :=
  let cacheKey := gistLinksId ss +:+ ":mix.md" in
  fun w =>
    match assocGet cacheKey (gistLinksCache w) with
    | Some links => (Ok links, w)
    | None =>
        bind (getGistFiles (gistLinksId ss)) (fun '(files, _) =>
          match assocGet "mix.md" files with
          | Some mixMd =>
              if JS.isEmpty mixMd
              then throw ("Could not find 'mix.md' file in gist '"
                          +:+ gistLinksId ss +:+ "'")
              else
                let links := Registry.parseGistLinks mixMd in
                fun w' => (Ok links, cacheLinks cacheKey links w')
          | None =>
              throw ("Could not find 'mix.md' file in gist '" +:+ gistLinksId ss +:+ "'")
          end) w
    end.

End Fetch.

(** [isGistId(str)] *)
Definition isGistId (str : string) : bool :=
  if JS.includes str "-" || JS.includes str "." || JS.includes str ":" then false
  else if JS.includes str "/" then
    let firstPart := hd EmptyString (JS.split "/" str) in
    if String.length firstPart =? GIST_ID_LENGTH_FULL then false
    else (String.length firstPart =? GIST_ID_LENGTH_SHORT)
         || (String.length firstPart =? GIST_ID_LENGTH_LONG)
  else (String.length str =? GIST_ID_LENGTH_SHORT)
       || (String.length str =? GIST_ID_LENGTH_LONG).

(** [s.replace(/-/g, '').toLowerCase()] *)
Definition aliasKey (s : string) : string :=
  JS.toLowerCase (JS.removeChar (Ascii.eqb "-"%char) s).

(** [findGistLink(links, alias)] *)
Definition findGistLink (links : list Registry.LinkRecord) (alias : string)
    : option Registry.LinkRecord :=
  find (fun l => String.eqb (aliasKey (Registry.name l)) (aliasKey alias)) links.

(** [parseInt(s, 10)]; [None] is [NaN]. *)
Definition digitsValue (ds : string) : Z :=
  (fix go (acc : Z) (s : string) : Z :=
     match s with
     | EmptyString => acc
     | String c r => go (10 * acc + Z.of_nat (JS.code c - 48))%Z r
     end) 0%Z ds.

Definition parseInt (s : string) : option Z :=
  let s := JS.trimStart s in
  let '(neg, body) :=
    match s with
    | String c r =>
        if Ascii.eqb c "-"%char then (true, r)
        else if Ascii.eqb c "+"%char then (false, r)
        else (false, s)
    | EmptyString => (false, s)
    end in
  let '(ds, _) := span JS.isDigit body in
  if JS.isEmpty ds then None
  else Some (if neg then (- digitsValue ds)%Z else digitsValue ds).

(** The numeric-alias step of [applyGists] and [deleteGists]. *)
Definition resolveAlias (links : list Registry.LinkRecord) (alias : string) : string :=
  match parseInt alias with
  | Some num =>
      if (0 <? num)%Z && (num <=? Z.of_nat (length links))%Z then
        match nth_error links (Z.to_nat num - 1) with
        | Some l => Registry.name l
        | None => alias
        end
      else alias
  | None => alias
  end.

(* ===================================================================== *)
(** ** Apply pipeline *)
(* ===================================================================== *)

Definition nl : string := String "010"%char EmptyString.

Record ResolvedFile := {
  path : string;
  content : string;
  originalName : string
}.

(** [gistAlias ? `'${gistAlias}' ` : ''] *)
Definition aliasLabel (gistAlias : string) : string :=
  if JS.isEmpty gistAlias then EmptyString else "'" +:+ gistAlias +:+ "' ".

(** Stable insertion sort behind [[...folders].sort((a, b) => b.length - a.length)]. *)
Fixpoint insertByLength (x : string) (sorted : list string) : list string :=
  match sorted with
  | [] => [x]
  | y :: rest =>
      if String.length y <=? String.length x then x :: sorted
      else y :: insertByLength x rest
  end.

Definition sortLongestFirst (xs : list string) : list string :=
  fold_right insertByLength [] xs.

(** [set.add(x)] on a [Set] kept in insertion order *)
Definition setAdd (x : string) (xs : list string) : list string :=
  if existsb (String.eqb x) xs then xs else xs ++ [x].

Section Pipelines.

Context (h : Host) (p : Process) (ss : Session).

Local Open Scope m_scope.

(** The body of the first loop of [writeGistFile] for one entry of the
    bundle: the files resolved so far and the init script, updated. *)
Definition resolveEntry (f : FS h) (gistAlias : string) (to : option string)
    (projName : option string) (gistLinkUrl : string)
    (acc : list ResolvedFile * option string) (entry : string * string)
    : result (list ResolvedFile * option string) :=
  let '(fileName, fileContent) := entry in
  let '(resolvedFiles, initFile) := acc in
  if JS.includes fileName ".." then
    Throw ("Invalid file name '" +:+ fileName +:+ "' from '" +:+ gistLinkUrl +:+ "'")
  else
    let exSuffix := " required by " +:+ aliasLabel gistAlias +:+ gistLinkUrl in
    rbind (resolveBasePath h p f to exSuffix) (fun basePath =>
      if String.eqb fileName "_init" then Ok (resolvedFiles, Some fileContent)
      else
        let resolvedFile := resolveFilePath h p ss f fileName basePath projName to in
        let noOverride := preserve ss || JS.endsWith fileName "?" in
        if noOverride && existsSync h f resolvedFile then Ok (resolvedFiles, initFile)
        else Ok (resolvedFiles ++
                 [{| path := resolvedFile;
                     content := replaceMyApp p ss fileContent projName;
                     originalName := fileName |}], initFile)).

(** [for (const [fileName, content] of Object.entries(files))] *)
Fixpoint resolveEntries (f : FS h) (gistAlias : string) (to : option string)
    (projName : option string) (gistLinkUrl : string)
    (acc : list ResolvedFile * option string) (files : Bundle)
    : result (list ResolvedFile * option string) :=
  match files with
  | [] => Ok acc
  | entry :: rest =>
      rbind (resolveEntry f gistAlias to projName gistLinkUrl acc entry)
            (fun acc' => resolveEntries f gistAlias to projName gistLinkUrl acc' rest)
  end.

(** [promptYesNo(message)] *)
Definition promptYesNo (message : string) : M h bool :=
  if silent ss || forceApproval ss then ret true
  else
    let! _ := emit (Log message) in
    let! _ := emit (Log "Proceed? (n/Y):") in
    fun w =>
      match stdin w with
      | data :: later =>
          let key := JS.toLowerCase data in
          (Ok (String.eqb key (String "013"%char EmptyString)
               || String.eqb key nl || String.eqb key "y"),
           withStdin later w)
      | [] => (Beyond "waiting for a key", w)
      end.

(** The confirmation step shared by [writeGistFile] and [deleteGists]. *)
Definition confirm (message : string) (forced : string) : M h unit :=
  if negb (forceApproval ss) then
    let! approved := promptYesNo message in
    if approved then ret tt else throw "Operation cancelled by user."
  else emit (Log forced).

(** [patchJsonFile(targetFile, patchFile)] *)
Definition patchJsonFile (targetFile patchFile : string) : M h unit :=
  let! f := getFs in
  let! _ :=
    if negb (existsSync h f targetFile)
    then fsMutate (fun f => writeFileSync h f targetFile "{}") (FsWrite targetFile)
    else ret tt in
  let! f := getFs in
  let! targetText := lift (readFileSync h f targetFile) in
  let! targetJson := lift (JSON_parse h targetText) in
  let! patchText := lift (readFileSync h f patchFile) in
  let! patchJson := lift (JSON_parse h patchText) in
  let! patched := lift (Patch.applyPatch targetJson patchJson) in
  fsMutate (fun f => writeFileSync h f targetFile (JSON_stringify h patched))
           (FsWrite targetFile).

(** The body of the loop over the lines of the init script. *)
Definition runInitLine (hostDir : string) (projName : option string)
    (line : string) : M h unit :=
  match Sandbox.judge line with
  | Sandbox.Comment | Sandbox.NotSupported | Sandbox.NotAllowed => ret tt
  | Sandbox.IllegalCharacters cmd =>
      emit (Log ("Command contains illegal characters, ignoring: '" +:+ cmd +:+ "'"))
  | Sandbox.Execute cmd executable rawArgs =>
      let! _ := emit (Log cmd) in
      match projName with
      | None => throw typeError
      | Some name =>
          let joined := JS.replaceChar (Ascii.eqb "."%char) "_"%char name in
          let cmdArgs := map (fun arg => replaceMyApp p ss arg (Some joined)) rawArgs in
          fun w =>
            let '(f', error) := spawnSync h (fs w) executable cmdArgs hostDir in
            let w' := logged (withFs f' w) (Spawn executable cmdArgs hostDir false) in
            (Ok tt,
             match error with
             | Some _ => logged w' (Log ("Failed to execute: " +:+ cmd))
             | None => w'
             end)
      end
  end.

(** The write loop, first part: the parent directory is created when it
    is missing and the file is written (decoded first when its path
    carries the base64 marker).  Returns the path written. *)
Definition writeStep (file : ResolvedFile) : M h string :=
  let dir := path_dirname h (path file) in
  let! f := getFs in
  let! _ :=
    if negb (existsSync h f dir)
    then fsMutate (fun f => mkdirSync h f dir) (FsMkdir dir)
    else ret tt in
  let filePath :=
    if JS.endsWith (path file) "|base64" then JS.dropLast 7 (path file)
    else path file in
  let! _ :=
    if JS.endsWith (path file) "|base64"
    then fsMutate (fun f => writeFileSync h f filePath (base64Decode h (content file)))
                  (FsWrite filePath)
    else fsMutate (fun f => writeFileSync h f filePath (content file))
                  (FsWrite filePath) in
  ret filePath.

(** The write loop, second part: the JSON patch step on the path just
    written. *)
Definition patchStep (filePath : string) : M h unit :=
  if JS.endsWith filePath ".json.patch" then
    let patchTarget := JS.dropLast 6 filePath in
    let! f := getFs in
    if existsSync h f patchTarget then
      let! _ := emit (Log ("Patching " +:+ patchTarget +:+ "...")) in
      let! _ := patchJsonFile patchTarget filePath in
      fsMutate (fun f => unlinkSync h f filePath) (FsUnlink filePath)
    else ret tt
  else ret tt.

(** The body of the write loop. *)
Definition writeResolved (file : ResolvedFile) : M h unit :=
  if String.eqb (originalName file) "_init" then ret tt
  else
    let! filePath := writeStep file in
    patchStep filePath.

(** [writeGistFile(gistIdOrUrl, gistAlias, to, projName)] *)
Definition writeGistFile (gistIdOrUrl gistAlias : string) (to : option string)
    (projName : option string) : M h unit :=
  let projName := sanitizeProjectName projName in
  let! (files, gistLinkUrl) := getGistFiles h gistIdOrUrl in
  let! f := getFs in
  let! (resolvedFiles, initFile) :=
    lift (resolveEntries f gistAlias to projName gistLinkUrl ([], None) files) in
  let label :=
    if negb (JS.isEmpty gistAlias) && negb (JS.includes gistAlias "://")
    then "'" +:+ gistAlias +:+ "' " else EmptyString in
  let! _ :=
    if negb (silent ss) then
      let! shown := lift (decodeURIComponent h gistLinkUrl) in
      let message :=
        fold_left (fun m file => m +:+ "  " +:+ path file +:+ nl) resolvedFiles
          (nl +:+ "Write files from " +:+ label +:+ shown +:+ " to:" +:+ nl +:+ nl) in
      confirm message (JS.replaceFirst "Write files from" "Writing files from" message)
    else ret tt in
  let! _ :=
    match initFile with
    | Some script =>
        let! f := getFs in
        let! hostDir := lift (resolveBasePath h p f to (" required by " +:+ gistLinkUrl)) in
        forEach (JS.split nl script) (runInitLine hostDir projName)
    | None => ret tt
    end in
  forEach resolvedFiles writeResolved.

End Pipelines.

(** Text written with single quotes in place of double quotes. *)
Definition jsonText (s : string) : string :=
  JS.replaceChar (Ascii.eqb "'"%char) "034"%char s.

(* ===================================================================== *)
(** ** Tag search and the listing *)
(* ===================================================================== *)

(** [matchesTag(link, tagName)] *)
Definition matchesTag (link : Registry.LinkRecord) (tagName : string) : bool :=
  match Registry.tags link with
  | None => false
  | Some tags =>
      let searchTags :=
        map (fun t => JS.toLowerCase (JS.trim t)) (JS.split "," tagName) in
      match searchTags with
      | [searchTag] =>
          existsb (fun t => String.eqb (JS.toLowerCase t) searchTag) tags
      | _ =>
          existsb (fun t => existsb (String.eqb (JS.toLowerCase t)) searchTags) tags
      end
  end.

(** [n] spaces *)
Fixpoint spaces (n : nat) : string :=
  match n with
  | O => EmptyString
  | S k => String " "%char (spaces k)
  end.

(** [s.padEnd(n, ' ')] and [s.padStart(n, ' ')] *)
Definition padEnd (n : nat) (s : string) : string := s +:+ spaces (n - String.length s).
Definition padStart (n : nat) (s : string) : string := spaces (n - String.length s) +:+ s.

(** [Math.max(...lengths) + 1] for a list that is not empty (the pads are
    used only in the rows, of which an empty listing has none). *)
Definition padFor (lengths : list nat) : nat := fold_right Nat.max 0 lengths + 1.

(** Insertion into a list sorted by code units, behind [tags.sort()]. *)
Fixpoint insertSorted (x : string) (sorted : list string) : list string :=
  match sorted with
  | [] => [x]
  | y :: rest =>
      if String.leb x y then x :: sorted else y :: insertSorted x rest
  end.

(** [[...new Set(links.filter(l => l.tags).flatMap(l => l.tags))].sort()] *)
Definition availableTags (links : list Registry.LinkRecord) : list string :=
  fold_right insertSorted []
    (fold_left (fun seen t => setAdd t seen)
       (flat_map (fun l => match Registry.tags l with Some ts => ts | None => [] end) links)
       []).

(** The row of the listing for the link at position [i] (from 0). *)
Definition listingRow (padName padTo padBy padDesc : nat) (i : nat)
    (link : Registry.LinkRecord) (user : string) : string :=
  let toLabel :=
    match Registry.to link with
    | Some t => if JS.isEmpty t then EmptyString else " to: " +:+ padEnd padTo t
    | None => EmptyString
    end in
  let tagsStr :=
    match Registry.tags link with
    | Some ts => "[" +:+ JS.join "," ts +:+ "]"
    | None => EmptyString
    end in
  " " +:+ padStart 3 (natToString (i + 1)) +:+ ". "
  +:+ padEnd padName (Registry.name link) +:+ " "
  +:+ padEnd padDesc (Registry.description link) +:+ toLabel
  +:+ " by @" +:+ padEnd padBy user +:+ " " +:+ tagsStr.

(** [links.map(l => l.user)]: [None] when a link has no user, on which
    [l.user.length] raises. *)
Fixpoint usersOf (links : list Registry.LinkRecord) : option (list string) :=
  match links with
  | [] => Some []
  | l :: rest =>
      match Registry.user l, usersOf rest with
      | Some u, Some us => Some (u :: us)
      | _, _ => None
      end
  end.

(** The rows of [links.forEach((link, i) => ...)], from position [i]. *)
Fixpoint listingRows (padName padTo padBy padDesc : nat) (i : nat)
    (links : list Registry.LinkRecord) (users : list string) : list string :=
  match links, users with
  | link :: links', user :: users' =>
      listingRow padName padTo padBy padDesc i link user
      :: listingRows padName padTo padBy padDesc (S i) links' users'
  | _, _ => []
  end.

(** The links a listing shows: all of them, or those that match the tag. *)
Definition listed (links : list Registry.LinkRecord) (tag : option string)
    : list Registry.LinkRecord :=
  match tag with
  | Some t =>
      if JS.isEmpty t then links
      else List.filter (fun l => match Registry.tags l with
                                 | Some _ => matchesTag l t
                                 | None => false
                                 end) links
  | None => links
  end.

Section Listing.

Context {h : Host}.

Local Open Scope m_scope.

(** [console.log] of each line in turn *)
Definition logLines (lines : list string) : M h unit :=
  forEach lines (fun line => emit (Log line)).

(** [printGistLinks(tool, links, tag, usage)] *)
Definition printGistLinks (tool : string) (links : list Registry.LinkRecord)
    (tag usage : option string) : M h unit :=
  let! _ := emit (Log EmptyString) in
  let tags := availableTags links in
  let! _ :=
    match tag with
    | Some t =>
        if JS.isEmpty t then ret tt
        else
          let plural := if JS.includes t "," then "s" else EmptyString in
          logLines ["Results matching tag" +:+ plural +:+ " [" +:+ t +:+ "]:"; EmptyString]
    | None => ret tt
    end in
  let links := listed links tag in
  let padName := padFor (map (fun l => String.length (Registry.name l)) links) in
  let padTo :=
    padFor (map (fun l => match Registry.to l with
                          | Some t => String.length t
                          | None => 0
                          end) links) in
  match usersOf links with
  | None => throw typeError
  | Some users =>
      let padBy := padFor (map String.length users) in
      let padDesc := padFor (map (fun l => String.length (Registry.description l)) links) in
      let! _ := logLines (listingRows padName padTo padBy padDesc 0 links users) in
      let! _ := emit (Log EmptyString) in
      match usage with
      | Some u =>
          if JS.isEmpty u
          then logLines ["   Usage: " +:+ tool +:+ " <name> <name> ..."; EmptyString;
                         "  Search: " +:+ tool +:+ " [tag] Available tags: "
                           +:+ JS.join ", " tags;
                         EmptyString; "Advanced: " +:+ tool +:+ " ?"]
          else emit (Log u)
      | None =>
          logLines ["   Usage: " +:+ tool +:+ " <name> <name> ..."; EmptyString;
                    "  Search: " +:+ tool +:+ " [tag] Available tags: "
                      +:+ JS.join ", " tags;
                    EmptyString; "Advanced: " +:+ tool +:+ " ?"]
      end
  end.

(** [printHelp(tool)] *)
Definition VERSION : string := "1.0.0".

Definition helpLines (tool : string) : list string :=
  ["Version: " +:+ VERSION;
   EmptyString;
   "View all published gists:";
   "   " +:+ tool;
   EmptyString;
   "Simple Usage:";
   "   " +:+ tool +:+ " <name> <name> ...";
   EmptyString;
   "Apply add-in using numbered list index instead:";
   "   " +:+ tool +:+ " 1 3 5 ...";
   EmptyString;
   "Apply add-in file contents from gist URL:";
   "   " +:+ tool +:+ " <gist-url>";
   EmptyString;
   "Delete previous add-ins:";
   "   " +:+ tool +:+ " -delete <name> <name> ...";
   EmptyString;
   "Use custom project name instead of current folder name (replaces MyApp):";
   "   " +:+ tool +:+ " -name ProjectName <name> <name> ...";
   EmptyString;
   "Replace additional tokens before applying add-in:";
   "   " +:+ tool +:+ " -replace term=with <name> <name> ...";
   EmptyString;
   "Multi replace with escaped string example:";
   "   " +:+ tool
     +:+ jsonText " -replace term=with -replace 'This Phrase'='With This' <name> <name> ...";
   EmptyString;
   "Only display available gists with a specific tag:";
   "  " +:+ tool +:+ " [tag]";
   "  " +:+ tool +:+ " [tag1,tag2]"].

Definition printHelp (tool : string) : M h unit := logLines (helpLines tool).

End Listing.

(* ===================================================================== *)
(** ** Delete pipeline *)
(* ===================================================================== *)

Section Delete.

Context (h : Host) (p : Process) (ss : Session).

Local Open Scope m_scope.

(** What the first loop of [deleteGists] has gathered. *)
Record Gathered := {
  allResolvedFiles : list string;
  output : string
}.

(** How the first loop ends: it went through every alias, or it left
    the function with [return false] at an alias the registry lacks. *)
Inductive gathering :=
| GatheredAll (g : Gathered)
| NoMatch (gistAlias : string).

(** [projName || path.basename(process.cwd())] *)
Definition defaultProjectName (projName : option string) : option string :=
  match projName with
  | Some n => if JS.isEmpty n then Some (path_basename h (cwd p)) else Some n
  | None => Some (path_basename h (cwd p))
  end.

(** The bundle, its URL and the location hint for one alias; [None]
    when the registry has no such alias. *)
Definition lookupBundle (links : list Registry.LinkRecord) (gistAlias : string)
    : M h (option (Bundle * string * option string)) :=
  if isGistId gistAlias
     || JS.startsWith gistAlias "https://" || JS.startsWith gistAlias "http://"
  then
    let! (files, url) := getGistFiles h gistAlias in
    ret (Some (files, url, Some "."))
  else
    match findGistLink links gistAlias with
    | None => ret None
    | Some gistLink =>
        let to :=
          match Registry.to gistLink with
          | Some t => if JS.isEmpty t then Some "." else Some t
          | None => Some "."
          end in
        let! (files, _) :=
          getGistFiles h
            (match Registry.gistId gistLink with
             | Some id => if JS.isEmpty id then Registry.url gistLink else id
             | None => Registry.url gistLink
             end) in
        ret (Some (files, Registry.url gistLink, to))
    end.

(** [for (const gistFile of Object.keys(gistFiles))]: the resolved paths
    that exist. *)
Definition existingFiles (f : FS h) (files : Bundle) (basePath : string)
    (projName : option string) (to : option string) : list string :=
  filter (fun resolvedFile => existsSync h f resolvedFile)
    (map (fun entry => resolveFilePath h p ss f (fst entry) basePath projName to) files).

(** The paragraph added to [output] for one alias. *)
Definition deleteNotice (gistAlias gistLinkUrl : string) (resolvedFiles : list string)
    : string :=
  fold_left (fun out file => out +:+ file +:+ nl) resolvedFiles
    (nl +:+ "Delete " +:+ natToString (length resolvedFiles) +:+ " file"
     +:+ (if length resolvedFiles =? 1 then EmptyString else "s")
     +:+ " from " +:+ aliasLabel gistAlias +:+ gistLinkUrl +:+ ":" +:+ nl +:+ nl).

(** [for (const gistAlias of resolvedAliases)] *)
Fixpoint gather (links : list Registry.LinkRecord)
    (projName : option string) (acc : Gathered) (aliases : list string)
    : M h gathering :=
  match aliases with
  | [] => ret (GatheredAll acc)
  | gistAlias :: rest =>
      let! found := lookupBundle links gistAlias in
      match found with
      | None => ret (NoMatch gistAlias)
      | Some (gistFiles, gistLinkUrl, to) =>
          let exSuffix := " required by " +:+ aliasLabel gistAlias +:+ gistLinkUrl in
          let! f := getFs in
          let! basePath := lift (resolveBasePath h p f to exSuffix) in
          let resolvedFiles := existingFiles f gistFiles basePath projName to in
          gather links projName
            {| allResolvedFiles := allResolvedFiles acc ++ resolvedFiles;
               output :=
                 if 0 <? length resolvedFiles
                 then output acc +:+ deleteNotice gistAlias gistLinkUrl resolvedFiles
                 else output acc |}
            rest
      end
  end.

(** The body of [for (const file of allResolvedFiles)]: the folders
    touched so far, updated. *)
Definition unlinkFile (folders : list string) (file : string) : M h (list string) :=
  catch
    (let! _ := fsMutate (fun f => unlinkSync h f file) (FsUnlink file) in
     ret (setAdd (path_dirname h file) folders))
    (fun _ => ret folders).

Fixpoint unlinkFiles (folders : list string) (files : list string) : M h (list string) :=
  match files with
  | [] => ret folders
  | file :: rest =>
      let! folders' := unlinkFile folders file in
      unlinkFiles folders' rest
  end.

(** The body of [for (const folder of sortedFolders)] *)
Definition removeIfEmpty (folder : string) : M h unit :=
  catch
    (let! f := getFs in
     let! entries := lift (readdirSync h f folder) in
     if length entries =? 0
     then fsMutate (fun f => rmSync h f folder) (FsRm folder)
     else ret tt)
    (fun _ => ret tt).

(** [deleteGists(tool, gistAliases, projName)] *)
Definition deleteGists (tool : string) (gistAliases : list string)
    (projName : option string) : M h bool :=
  let projName := defaultProjectName projName in
  let! links := getGistApplyLinks h ss in
  let resolvedAliases := map (resolveAlias links) gistAliases in
  let! gathered :=
    gather links projName {| allResolvedFiles := []; output := EmptyString |}
           resolvedAliases in
  match gathered with
  | NoMatch gistAlias =>
      let! _ := emit (Log ("No match found for '" +:+ gistAlias +:+ "', available gists:")) in
      let! _ := printGistLinks tool links None None in
      ret false
  | GatheredAll g =>
      if length (allResolvedFiles g) =? 0 then
        let! _ :=
          emit (Log ("Did not find any existing files from '"
                     +:+ JS.join "," gistAliases +:+ "' to delete")) in
        ret false
      else
        let! _ :=
          if negb (silent ss) then
            let! _ := confirm h ss (output g) (output g) in
            let! _ := emit (Log EmptyString) in
            emit (Log ("Deleting " +:+ natToString (length (allResolvedFiles g))
                       +:+ " files..."))
          else ret tt in
        let! folders := unlinkFiles [] (allResolvedFiles g) in
        let! _ := forEach (sortLongestFirst folders) removeIfEmpty in
        let! _ := if negb (silent ss) then emit (Log "Done.") else ret tt in
        ret true
  end.

End Delete.

(* ===================================================================== *)
(** ** A small in-memory host *)
(* ===================================================================== *)

(** A host to run the engine on: POSIX-style paths without normalisation,
    a file system held in a finite map, a JSON reader and writer for
    documents of objects, arrays, plain strings, integers and literals, a
    network answering from a table, and child processes that do nothing.
    It is one host among those the pipelines are written against. *)
Module TestHost.

Inductive node :=
| FileNode (text : string)
| DirNode.

Definition disk : Type := gmap string node.

Definition dquote : string := String "034"%char EmptyString.

(** The part of [s] before its last [/], and the part after it. *)
Fixpoint splitLast (s : string) : option (string * string) :=
  match s with
  | EmptyString => None
  | String c r =>
      match splitLast r with
      | Some (d, b) => Some (String c d, b)
      | None => if Ascii.eqb c "/"%char then Some (EmptyString, r) else None
      end
  end.

Definition dirname (s : string) : string :=
  match splitLast s with
  | Some (d, _) => if JS.isEmpty d then "/" else d
  | None => "."
  end.

Definition basename (s : string) : string :=
  match splitLast s with
  | Some (_, b) => b
  | None => s
  end.

Definition join (a b : string) : string :=
  if JS.endsWith a "/" then a +:+ b else a +:+ "/" +:+ b.

Definition resolve (base q : string) : string :=
  if JS.startsWith q "/" then q else join base q.

Definition exists_ (d : disk) (q : string) : bool :=
  match d !! q with Some _ => true | None => false end.

Definition readdir (d : disk) (dir : string) : result (list Dirent) :=
  match d !! dir with
  | Some DirNode =>
      Ok (omap (fun kv : string * node =>
                  if String.eqb (dirname (fst kv)) dir && negb (String.eqb (fst kv) dir)
                  then Some {| d_name := basename (fst kv);
                               d_isDirectory := match snd kv with DirNode => true | _ => false end;
                               d_isFile := match snd kv with FileNode _ => true | _ => false end |}
                  else None)
               (map_to_list d))
  | Some (FileNode _) => Throw ("ENOTDIR: not a directory, scandir '" +:+ dir +:+ "'")
  | None => Throw ("ENOENT: no such file or directory, scandir '" +:+ dir +:+ "'")
  end.

Definition readFile (d : disk) (q : string) : result string :=
  match d !! q with
  | Some (FileNode text) => Ok text
  | Some DirNode => Throw "EISDIR: illegal operation on a directory, read"
  | None => Throw ("ENOENT: no such file or directory, open '" +:+ q +:+ "'")
  end.

Definition writeFile (d : disk) (q text : string) : result disk :=
  match d !! q with
  | Some DirNode => Throw ("EISDIR: illegal operation on a directory, open '" +:+ q +:+ "'")
  | _ =>
      match d !! dirname q with
      | Some DirNode => Ok (<[q := FileNode text]> d)
      | _ => Throw ("ENOENT: no such file or directory, open '" +:+ q +:+ "'")
      end
  end.

(** [mkdirSync(dir, { recursive: true })] *)
Fixpoint mkdirFuel (fuel : nat) (d : disk) (q : string) : result disk :=
  match d !! q with
  | Some DirNode => Ok d
  | Some (FileNode _) => Throw ("EEXIST: file already exists, mkdir '" +:+ q +:+ "'")
  | None =>
      match fuel with
      | O => Ok (<[q := DirNode]> d)
      | S k =>
          if String.eqb (dirname q) q then Ok (<[q := DirNode]> d)
          else rbind (mkdirFuel k d (dirname q)) (fun d' => Ok (<[q := DirNode]> d'))
      end
  end.

Definition mkdir (d : disk) (q : string) : result disk :=
  mkdirFuel (String.length q) d q.

Definition unlink (d : disk) (q : string) : result disk :=
  match d !! q with
  | Some (FileNode _) => Ok (delete q d)
  | Some DirNode => Throw ("EPERM: operation not permitted, unlink '" +:+ q +:+ "'")
  | None => Throw ("ENOENT: no such file or directory, unlink '" +:+ q +:+ "'")
  end.

(** [rmSync(path, { recursive: false })] *)
Definition rm (d : disk) (q : string) : result disk :=
  match d !! q with
  | Some (FileNode _) => Ok (delete q d)
  | Some DirNode => Throw ("Path is a directory: rm returned EISDIR (is a directory) " +:+ q)
  | None => Throw ("ENOENT: no such file or directory, rm '" +:+ q +:+ "'")
  end.

(** Regular expressions built from [^], literal characters, [.], [.*]
    and [$], which is what [findFiles] builds from a file pattern made
    of name characters and [*]. *)
Inductive token := AnyChar | AnyRun | Lit (c : ascii).

Fixpoint tokens (s : string) : list token :=
  match s with
  | EmptyString => []
  | String c r =>
      if Ascii.eqb c "."%char then
        match r with
        | String d r' =>
            if Ascii.eqb d "*"%char then AnyRun :: tokens r' else AnyChar :: tokens r
        | EmptyString => [AnyChar]
        end
      else Lit c :: tokens r
  end.

Fixpoint matches (ts : list token) (s : string) : bool :=
  match ts with
  | [] => JS.isEmpty s
  | AnyChar :: ts' =>
      match s with String _ r => matches ts' r | EmptyString => false end
  | Lit c :: ts' =>
      match s with
      | String d r => Ascii.eqb c d && matches ts' r
      | EmptyString => false
      end
  | AnyRun :: ts' =>
      (fix run (s : string) : bool :=
         matches ts' s ||
         match s with String _ r => run r | EmptyString => false end) s
  end.

Definition isMeta (c : ascii) : bool :=
  existsb (Ascii.eqb c) ["("; ")"; "["; "]"; "{"; "}"; "+"; "?"; "|"; "\"; "^"; "$"; "*"]%char.

Definition regex (source name : string) : result bool :=
  if JS.startsWith source "^" && JS.endsWith source "$" then
    let body := JS.dropLast 1 (JS.drop 1 source) in
    let ts := tokens body in
    if existsb (fun t => match t with Lit c => isMeta c | _ => false end) ts
    then Beyond "regular expression outside the supported fragment"
    else Ok (matches ts name)
  else Beyond "regular expression outside the supported fragment".

End TestHost.

(** The JSON reader and writer of the in-memory host. *)
Module TestJson.

Definition isWs (c : ascii) : bool :=
  existsb (Ascii.eqb c) [" "; "009"; "010"; "013"]%char.

Fixpoint skipWs (s : string) : string :=
  match s with
  | String c r => if isWs c then skipWs r else s
  | EmptyString => s
  end.

Definition syntaxError {A} : result A := Throw "SyntaxError".

(** The characters of a string literal after its opening quote. *)
Fixpoint scanString (s : string) : result (string * string) :=
  match s with
  | EmptyString => syntaxError
  | String c r =>
      if Ascii.eqb c "034"%char then Ok (EmptyString, r)
      else if Ascii.eqb c "\"%char then Beyond "escape sequence in a JSON string"
      else if JS.code c <? 32 then syntaxError
      else rbind (scanString r) (fun '(t, rest) => Ok (String c t, rest))
  end.

Definition scanNumber (neg : bool) (s : string) : result (json * string) :=
  let '(ds, rest) := span JS.isDigit s in
  if JS.isEmpty ds then syntaxError
  else if JS.startsWith ds "0" && (1 <? String.length ds) then syntaxError
  else if JS.startsWith rest "." || JS.startsWith rest "e" || JS.startsWith rest "E"
  then Beyond "number that is not an integer"
  else if (9007199254740992 <? digitsValue ds)%Z
  then Beyond "integer that a double does not hold exactly"
  else Ok (JNum (if neg then - digitsValue ds else digitsValue ds)%Z, rest).

Fixpoint parseValue (fuel : nat) (s : string) : result (json * string) :=
  match fuel with
  | O => Beyond "document too deep"
  | S k =>
      match skipWs s with
      | EmptyString => syntaxError
      | String c r as s' =>
          if Ascii.eqb c "{"%char then
            match skipWs r with
            | String d r' =>
                if Ascii.eqb d "}"%char then Ok (JObj [], r')
                else rbind (parseMembers k (skipWs r) []) (fun '(ms, rest) => Ok (JObj ms, rest))
            | EmptyString => syntaxError
            end
          else if Ascii.eqb c "["%char then
            match skipWs r with
            | String d r' =>
                if Ascii.eqb d "]"%char then Ok (JArr [], r')
                else rbind (parseItems k (skipWs r) []) (fun '(xs, rest) => Ok (JArr xs, rest))
            | EmptyString => syntaxError
            end
          else if Ascii.eqb c "034"%char then
            rbind (scanString r) (fun '(t, rest) => Ok (JStr t, rest))
          else if Ascii.eqb c "-"%char then scanNumber true r
          else if JS.isDigit c then scanNumber false s'
          else if JS.startsWith s' "true" then Ok (JBool true, JS.drop 4 s')
          else if JS.startsWith s' "false" then Ok (JBool false, JS.drop 5 s')
          else if JS.startsWith s' "null" then Ok (JNull, JS.drop 4 s')
          else syntaxError
      end
  end
with parseItems (fuel : nat) (s : string) (acc : list json) : result (list json * string) :=
  match fuel with
  | O => Beyond "document too deep"
  | S k =>
      rbind (parseValue k s) (fun '(v, rest) =>
        match skipWs rest with
        | String c r =>
            if Ascii.eqb c ","%char then parseItems k r (acc ++ [v])
            else if Ascii.eqb c "]"%char then Ok (acc ++ [v], r)
            else syntaxError
        | EmptyString => syntaxError
        end)
  end
with parseMembers (fuel : nat) (s : string) (acc : list (string * json))
    : result (list (string * json) * string) :=
  match fuel with
  | O => Beyond "document too deep"
  | S k =>
      match skipWs s with
      | String q r =>
          if Ascii.eqb q "034"%char then
            rbind (scanString r) (fun '(key, rest) =>
              match skipWs rest with
              | String c r1 =>
                  if Ascii.eqb c ":"%char then
                    rbind (parseValue k r1) (fun '(v, rest') =>
                      match skipWs rest' with
                      | String c' r2 =>
                          if Ascii.eqb c' ","%char then parseMembers k r2 (assocSet key v acc)
                          else if Ascii.eqb c' "}"%char then Ok (assocSet key v acc, r2)
                          else syntaxError
                      | EmptyString => syntaxError
                      end)
                  else syntaxError
              | EmptyString => syntaxError
              end)
          else syntaxError
      | EmptyString => syntaxError
      end
  end.

Definition parse (text : string) : result json :=
  rbind (parseValue (2 * String.length text + 2) text) (fun '(v, rest) =>
    if JS.isEmpty (skipWs rest) then Ok v else syntaxError).

Definition zToString (n : Z) : string :=
  NilEmpty.string_of_int (Z.to_int n).

Fixpoint escape (s : string) : string :=
  match s with
  | EmptyString => EmptyString
  | String c r =>
      if Ascii.eqb c "034"%char || Ascii.eqb c "\"%char
      then String "\"%char (String c (escape r))
      else if Ascii.eqb c "010"%char then "\n" +:+ escape r
      else if Ascii.eqb c "013"%char then "\r" +:+ escape r
      else if Ascii.eqb c "009"%char then "\t" +:+ escape r
      else String c (escape r)
  end.

Definition quote (s : string) : string :=
  TestHost.dquote +:+ escape s +:+ TestHost.dquote.

(** [JSON.stringify(v, null, 2)] below the current indentation; [None]
    where the result is [undefined]. *)
Fixpoint print (indent : string) (v : json) {struct v} : option string :=
  let inner := indent +:+ "  " in
  match v with
  | JUndefined => None
  | JNull => Some "null"
  | JBool b => Some (if b then "true" else "false")
  | JNum n => Some (zToString n)
  | JStr s => Some (quote s)
  | JArr items =>
      let lines :=
        (fix each (l : list json) : list string :=
           match l with
           | [] => []
           | x :: r =>
               (inner +:+ match print inner x with Some t => t | None => "null" end)
                 :: each r
           end) items in
      Some (match lines with
            | [] => "[]"
            | _ => "[" +:+ nl +:+ JS.join ("," +:+ nl) lines +:+ nl +:+ indent +:+ "]"
            end)
  | JObj ms =>
      let lines :=
        (fix each (l : list (string * json)) : list string :=
           match l with
           | [] => []
           | (k, x) :: r =>
               match print inner x with
               | Some t => (inner +:+ quote k +:+ ": " +:+ t) :: each r
               | None => each r
               end
           end) ms in
      Some (match lines with
            | [] => "{}"
            | _ => "{" +:+ nl +:+ JS.join ("," +:+ nl) lines +:+ nl +:+ indent +:+ "}"
            end)
  end.

Definition stringify (v : json) : string :=
  match print EmptyString v with
  | Some t => t
  | None => "undefined"
  end.

End TestJson.

(** The in-memory host over a network table of URLs and their bodies. *)
Definition testHost (network : list (string * json)) : Host := {|
  FS := TestHost.disk;
  path_join := TestHost.join;
  path_resolve := TestHost.resolve;
  path_dirname := TestHost.dirname;
  path_basename := TestHost.basename;
  existsSync := TestHost.exists_;
  readdirSync := TestHost.readdir;
  readFileSync := TestHost.readFile;
  writeFileSync := TestHost.writeFile;
  mkdirSync := TestHost.mkdir;
  unlinkSync := TestHost.unlink;
  rmSync := TestHost.rm;
  regexTest := TestHost.regex;
  JSON_parse := TestJson.parse;
  JSON_stringify := TestJson.stringify;
  base64Decode := fun text => text;
  decodeURIComponent := fun text =>
    if JS.includes text "%" then Beyond "percent-encoded URL" else Ok text;
  getJson := fun url =>
    match assocGet url network with
    | Some body => Ok body
    | None => Throw "HTTP 404: Not Found"
    end;
  spawnSync := fun d _ _ _ => (d, None)
|}.

Definition posix : Process := {| win32 := false; cwd := "/work"; homedir := "/home/dev" |}.

Definition quiet : Session := {|
  verbose := false; silent := true; forceApproval := true; preserve := false;
  outDir := None; replaceTokens := []; gistLinksId := "registry"
|}.

(** A gist API response with the given files. *)
Definition gistResponse (files : list (string * string)) : json :=
  JObj [("files", JObj (map (fun kv => (fst kv, JObj [("content", JStr (snd kv))])) files))].

Definition startWorld (network : list (string * json)) (d : TestHost.disk)
    : World (testHost network) :=
  Build_World (testHost network) d [] [] [] [] [].

(* ===================================================================== *)
(** ** Notions used to state the properties *)
(* ===================================================================== *)

(** [s] is empty or begins with a code unit that is not a blank. *)
Definition startsNonBlank (s : string) : Prop :=
  match s with
  | EmptyString => True
  | String c _ => JS.isSpace c = false
  end.

(** None of the six placeholder spellings occurs in [s]. *)
Definition placeholderFree (s : string) : Prop :=
  Forall (fun ph => JS.includes s ph = false) placeholders.

(** None of the separator characters occurs in [s]. *)
Definition separatorFree (s : string) : Prop :=
  Forall (fun c => JS.includes s (String c EmptyString) = false) sepChars.

(** The text of a registry link with the given name and URL. *)
Definition linkText (name url : string) : string :=
  "- [" +:+ name +:+ "](" +:+ url +:+ ")".

(** [s] without the modifier block at its head: when [s] begins with an
    opening brace and holds a closing one, the text after the first
    closing brace, trimmed; [s] itself otherwise. *)
Definition afterModifiers (s : string) : string :=
  match s with
  | String c rest =>
      if Ascii.eqb c "{"%char then
        match JS.indexOf rest "}" 0 with
        | Some n => JS.trim (JS.drop (S n) rest)
        | None => s
        end
      else s
  | EmptyString => s
  end.

(** The text between the opening backtick at the head of [remaining] and
    the next backtick, when both are there. *)
Definition tagBlock (remaining : string) : option string :=
  match remaining with
  | String c rest =>
      if Ascii.eqb c "`"%char then
        match JS.indexOf rest "`" 0 with
        | Some n => Some (JS.take n rest)
        | None => None
        end
      else None
  | EmptyString => None
  end.

(** [t] is not empty and trimming leaves it as it is. *)
Definition trimmedTag (t : string) : Prop :=
  t <> EmptyString /\ JS.trim t = t.

(** The seven characters the sandbox claim names: double quote, single
    quote, ampersand, semicolon, dollar, at-sign and pipe. *)
Definition namedChars : list ascii := ["034"; "'"; "&"; ";"; "$"; "@"; "|"]%char.

(** The line is one the loop body goes on to execute. *)
Definition executes (line : string) : Prop :=
  exists cmd executable rawArgs, Sandbox.judge line = Sandbox.Execute cmd executable rawArgs.

(** A process is started without a shell. *)
Definition shellFree (e : event) : Prop :=
  match e with
  | Spawn _ _ _ shell => shell = false
  | _ => True
  end.

(** The events of a world that start a process. *)
Definition spawns {h} (w : World h) : list event := filter (fun e => isSpawn e = true) (trace w).

(** The argument vector the init loop builds for a project name. *)
Definition initArgs (p : Process) (ss : Session) (name : string) (rawArgs : list string)
    : list string :=
  map (fun arg =>
         replaceMyApp p ss arg (Some (JS.replaceChar (Ascii.eqb "."%char) "_"%char name)))
      rawArgs.

(** *** The JSON patch as the specification words it

    For each operation: walk the pointer's segments except the last,
    creating an empty object at any missing intermediate segment; at the
    last segment, add/replace set the value (overwriting), remove deletes
    the key; an unrecognised operation kind does nothing there. *)

(** What the operation does to the members of the object at the last
    segment. *)
Definition specEdit (k : Patch.opKind) (key : string) (v : json)
    (members : list (string * json)) : list (string * json) :=
  match k with
  | Patch.OpSet => assocSet key v members
  | Patch.OpRemove => assocDel key members
  | Patch.OpOther => members
  end.

(** The walk through the intermediate segments, as a function on the
    members of the object it starts from. *)
Fixpoint specWalk (edit : list (string * json) -> list (string * json))
    (segments : list string) (members : list (string * json)) : list (string * json) :=
  match segments with
  | [] => edit members
  | segment :: rest =>
      let child :=
        match assocGet segment members with
        | Some (JObj ms) => ms
        | _ => []
        end in
      assocSet segment (JObj (specWalk edit rest child)) members
  end.

Definition specApplyOp (o : Patch.operation) (members : list (string * json))
    : list (string * json) :=
  let parts := Patch.pathParts (Patch.opPath o) in
  specWalk (specEdit (Patch.kind o) (Patch.lastKey parts) (Patch.value o))
           (removelast parts) members.

(** The operations of a patch one after the other, in document order. *)
Fixpoint specApplyOps (ops : list Patch.operation) (members : list (string * json))
    : list (string * json) :=
  match ops with
  | [] => members
  | o :: rest => specApplyOps rest (specApplyOp o members)
  end.

(** Every value the walk meets at an existing segment is an object. *)
Fixpoint objectsAlong (segments : list string) (members : list (string * json)) : Prop :=
  match segments with
  | [] => True
  | segment :: rest =>
      match assocGet segment members with
      | Some (JObj child) => objectsAlong rest child
      | Some _ => False
      | None => True
      end
  end.

(** No segment is a name inherited from [Object.prototype]. *)
Definition ownNames (segments : list string) : Prop :=
  Forall (fun s => isInherited s = false) segments.

(** The pointer of [o] stays in the document [members]: it has a segment,
    no intermediate segment is a name inherited from [Object.prototype],
    every intermediate segment that exists holds an object, and the last
    segment is not [__proto__]. *)
Definition staysInside (o : Patch.operation) (members : list (string * json)) : Prop :=
  let parts := Patch.pathParts (Patch.opPath o) in
  parts <> [] /\
  ownNames (removelast parts) /\
  objectsAlong (removelast parts) members /\
  Patch.lastKey parts <> "__proto__".

(** Each operation of a patch stays in the document the operations
    before it have made. *)
Fixpoint allInside (ops : list Patch.operation) (members : list (string * json)) : Prop :=
  match ops with
  | [] => True
  | o :: rest => staysInside o members /\ allInside rest (specApplyOp o members)
  end.

(** The elements of a patch document read as operations. *)
Fixpoint readOps (ops : list json) : result (list Patch.operation) :=
  match ops with
  | [] => Ok []
  | op :: rest =>
      rbind (Patch.readOp op) (fun o =>
        rbind (readOps rest) (fun os => Ok (o :: os)))
  end.

(** The value a pointer leads to. *)
Fixpoint getPath (segments : list string) (doc : json) : option json :=
  match segments with
  | [] => Some doc
  | segment :: rest =>
      match doc with
      | JObj ms =>
          match assocGet segment ms with
          | Some child => getPath rest child
          | None => None
          end
      | _ => None
      end
  end.

(** A patch operation as a JSON value. *)
Definition patchOp (op path : string) (v : option json) : json :=
  JObj ([("op", JStr op); ("path", JStr path)]
        ++ match v with Some x => [("value", x)] | None => [] end).

(** Starting in the world [w], every alias of a delete batch resolves
    (its bundle is fetched and its base directory found) and none of its
    resolved destination paths exists on the file system. *)
Fixpoint batchMissing (h : Host) (p : Process) (ss : Session)
    (links : list Registry.LinkRecord) (projName : option string)
    (aliases : list string) (w : World h) : Prop :=
  match aliases with
  | [] => True
  | gistAlias :: rest =>
      exists files url to basePath w',
        lookupBundle h links gistAlias w = (Ok (Some (files, url, to)), w') /\
        resolveBasePath h p (fs w') to (" required by " +:+ aliasLabel gistAlias +:+ url)
          = Ok basePath /\
        Forall (fun entry : string * string =>
                  existsSync h (fs w')
                    (resolveFilePath h p ss (fs w') (fst entry) basePath projName to)
                  = false) files /\
        batchMissing h p ss links projName rest w'
  end.

(** Two worlds with the same file system, terminal input and events. *)
Definition sameOutside {h} (w w' : World h) : Prop :=
  fs w' = fs w /\ stdin w' = stdin w /\ trace w' = trace w.

(** The events of [w'] that came after those of [w]. *)
Definition eventsSince {h} (w w' : World h) : list event :=
  drop (length (trace w)) (trace w').

(** A patch file of a bundle, resolved into the working directory. *)
Definition examplePatchFile : ResolvedFile := {|
  path := "/work/app.json.patch";
  content := jsonText "[{'op':'add','path':'/a/b','value':1}]";
  originalName := "app.json.patch"
|}.

Definition diskWithTarget : TestHost.disk :=
  {[ "/work" := TestHost.DirNode; "/work/app.json" := TestHost.FileNode "{}" ]}.

Definition diskWithoutTarget : TestHost.disk :=
  {[ "/work" := TestHost.DirNode ]}.

(** A registry with one add-in, and the add-in's bundle. *)
Definition exampleNetwork : list (string * json) :=
  [("https://api.github.com/gists/registry",
    gistResponse
      [("mix.md",
        "- [redis](https://gist.github.com/gistlyn/abc) {} `db` Use ServiceStack.Redis")]);
   ("https://api.github.com/gists/abc",
    gistResponse [("Configure.Redis.cs", "namespace MyApp;"); ("MyApp/Redis.md", "notes")])].

Definition exampleLinks : list Registry.LinkRecord :=
  Registry.parseGistLinks
    "- [redis](https://gist.github.com/gistlyn/abc) {} `db` Use ServiceStack.Redis".

(** The registry document of the repository's test file (written with
    [jsonText]: a single quote stands for a double quote). *)
Definition testMd : string :=
  jsonText "
# Mix Registry

 - [init](https://gist.github.com/gistlyn/58030e271595520d87873c5df5e14f60) {} `project,sharp,ss` Empty .NET 6.0 ServiceStack App
 - [redis](https://gist.github.com/gistlyn/67d6c72fba8e07c4aeb82d3bb6bfef0f) {to:'$HOST'} `db` Use ServiceStack.Redis
 - [sqlite](https://gist.github.com/gistlyn/e9f70c3f68e6c7a1a80c25cdc7bc71e7) {to:'$HOST'} `db,lite` Use OrmLite with SQLite
 - [auth](https://gist.github.com/gistlyn/1ec54e10d44f87e0f20daaf7e2248fea) {to:'$HOST'} `auth` Configure ServiceStack Auth
".
From Stdlib Require Import DecimalNat Sorted.


(* ===================================================================== *)
(** ** Notions used to state further properties *)
(* ===================================================================== *)


(** The carriage return as a string. *)
Definition carriageReturn : string := String "013"%char EmptyString.

(** No term of the custom token pairs occurs in [s]. *)
Definition termsAbsent (tokens : list (string * string)) (s : string) : Prop :=
  Forall (fun tr : string * string => JS.includes s (fst tr) = false) tokens.

(** The character [c] does not occur in any of the strings. *)
Definition noneHas (c : ascii) (parts : list string) : Prop :=
  Forall (fun part => JS.anyChar (Ascii.eqb c) part = false) parts.

(** Every custom token pair replaces its term by itself. *)
Definition selfReplacing (tokens : list (string * string)) : Prop :=
  Forall (fun tr : string * string => snd tr = fst tr) tokens.

(** [s] is empty or begins with a code unit that is not a digit. *)
Definition startsNonDigit (s : string) : Prop :=
  match s with
  | EmptyString => True
  | String c _ => JS.isDigit c = false
  end.

(** [s.split('/')[0]] *)
Definition firstSegment (s : string) : string := hd EmptyString (JS.split "/" s).

(** [w'] comes from [w] by adding events to its trace, all of which
    satisfy [P]. *)
Definition addsOnly {h} (P : event -> Prop) (w w' : World h) : Prop :=
  exists evs, trace w' = trace w ++ evs /\ Forall P evs.

(** What a removal that starts on the file system [f0] may do: print,
    unlink a file that was on [f0], and remove the directory of such a
    file. *)
Definition removalEvent (h : Host) (f0 : FS h) (e : event) : Prop :=
  match e with
  | Log _ => True
  | FsUnlink file => existsSync h f0 file = true
  | FsRm folder =>
      exists file, existsSync h f0 file = true /\ folder = path_dirname h file
  | FsWrite _ | FsMkdir _ | Spawn _ _ _ _ => False
  end.

(** The key pressed counts as a yes: [key === '\r' || key === '\n' ||
    key === 'y'] on the lower-cased key. *)
Definition answersYes (data : string) : bool :=
  let key := JS.toLowerCase data in
  String.eqb key carriageReturn || String.eqb key nl || String.eqb key "y".

(** The event only prints. *)
Definition printsOnly (e : event) : Prop :=
  match e with
  | Log _ => True
  | _ => False
  end.

(** A session in which the prompt is shown. *)
Definition asking : Session := {|
  verbose := false; silent := false; forceApproval := false; preserve := false;
  outDir := None; replaceTokens := []; gistLinksId := "registry"
|}.

(** The world of the in-memory host with keys waiting on the terminal. *)
Definition keyedWorld (network : list (string * json)) (d : TestHost.disk)
    (keys : list string) : World (testHost network) :=
  Build_World (testHost network) d keys [] [] [] [].

(** An entry of a directory listing that [findFiles] passes over without
    looking at the pattern: a hidden one, a directory it does not go
    into, or one that is neither a directory nor a file. *)
Definition passedOver (entry : Dirent) : bool :=
  JS.startsWith (d_name entry) "." ||
  (if d_isDirectory entry then skippedDirectory (d_name entry) else negb (d_isFile entry)).

(** The regular expression [findFiles] builds from a pattern with a star. *)
Definition patternSource (pattern : string) : string :=
  "^" +:+ JS.replaceAll "*" ".*" pattern +:+ "$".

(** The host answers every listing, and every test of the pattern,
    within the model. *)
Definition scanAnswered (h : Host) (f : FS h) (pattern : string) : Prop :=
  (forall dir why, readdirSync h f dir <> Beyond why) /\
  (forall name why, regexTest h (patternSource pattern) name <> Beyond why).

(** A project directory with a hidden file and a directory of packages. *)
Definition scanDisk : TestHost.disk :=
  {[ "/work" := TestHost.DirNode;
     "/work/.hidden.csproj" := TestHost.FileNode "x";
     "/work/node_modules" := TestHost.DirNode;
     "/work/node_modules/Lib.csproj" := TestHost.FileNode "x";
     "/work/src" := TestHost.DirNode;
     "/work/src/App.csproj" := TestHost.FileNode "x";
     "/work/src/Program.cs" := TestHost.FileNode "x" ]}.

(** A working directory that holds a file of the example bundle. *)
Definition diskWithBundle : TestHost.disk :=
  {[ "/work" := TestHost.DirNode;
     "/work/Configure.Redis.cs" := TestHost.FileNode "namespace work;" ]}.

(** [w'] comes from [w] by adding events to its trace, which as a
    sequence satisfy [Q]. *)
Definition addsTrace {h} (Q : list event -> Prop) (w w' : World h) : Prop :=
  exists evs, trace w' = trace w ++ evs /\ Q evs.

(** An event that removes nothing, and starts a process only without a
    shell. *)
Definition keepsFiles (e : event) : Prop :=
  match e with
  | FsRm _ | FsUnlink _ => False
  | Spawn _ _ _ shell => shell = false
  | Log _ | FsWrite _ | FsMkdir _ => True
  end.

(** What applying a bundle may do: it removes no directory, unlinks only
    paths that end in [.json.patch], and starts a process only without a
    shell. *)
Definition applyEvent (e : event) : Prop :=
  match e with
  | FsRm _ => False
  | FsUnlink file => JS.endsWith file ".json.patch" = true
  | Spawn _ _ _ shell => shell = false
  | Log _ | FsWrite _ | FsMkdir _ => True
  end.

(** Every file unlinked in [evs] was written earlier in [evs]. *)
Definition unlinksOwnWrites (evs : list event) : Prop :=
  forall pre file post, evs = pre ++ FsUnlink file :: post -> In (FsWrite file) pre.

Definition applyTrace (evs : list event) : Prop :=
  Forall applyEvent evs /\ unlinksOwnWrites evs.

(** The page of a gist under its owner. *)
Definition gistPage (owner id : string) : string :=
  "https://gist.github.com/" +:+ owner +:+ "/" +:+ id.

(** What the first loop of [writeGistFile] may queue for writing from the
    bundle [files] on the file system [f]: an entry of the bundle other
    than [_init], its name free of [..], its content substituted, its
    destination as [resolveFilePath] gives it, and, when the file must
    not be overwritten, a destination that does not exist. *)
Definition queued (h : Host) (p : Process) (ss : Session) (f : FS h)
    (to projName : option string) (exSuffix : string) (files : Bundle)
    (file : ResolvedFile) : Prop :=
  originalName file <> "_init" /\
  JS.includes (originalName file) ".." = false /\
  (exists fileContent,
     In (originalName file, fileContent) files /\
     content file = replaceMyApp p ss fileContent projName) /\
  (exists basePath,
     resolveBasePath h p f to exSuffix = Ok basePath /\
     path file = resolveFilePath h p ss f (originalName file) basePath projName to) /\
  (preserve ss || JS.endsWith (originalName file) "?" = true ->
   existsSync h f (path file) = false).

(* ===================================================================== *)
(** ** Apply pipeline *)
(* ===================================================================== *)

(** [forceApproval = true] *)
Definition approved (ss : Session) : Session := {|
  verbose := verbose ss; silent := silent ss; forceApproval := true;
  preserve := preserve ss; outDir := outDir ss; replaceTokens := replaceTokens ss;
  gistLinksId := gistLinksId ss
|}.

(** [a || b] on strings that may be [null] *)
Definition orElse (a b : option string) : option string :=
  match a with
  | Some s => if JS.isEmpty s then b else a
  | None => b
  end.

Section Apply.

Context (h : Host) (p : Process).

Local Open Scope m_scope.

(** [for (const gistAlias of resolvedAliases)] of [applyGists]; the
    session is passed along because the loop sets [forceApproval] after
    each bundle.  The result comes with the session the loop ends in. *)
Fixpoint applyLoop (ss : Session) (tool : string) (links : list Registry.LinkRecord)
    (projName : option string) (aliases : list string) : M h (bool * Session) :=
  match aliases with
  | [] => ret (true, ss)
  | gistAlias :: rest =>
      if isGistId gistAlias then
        let! _ := writeGistFile h p ss ("https://gist.github.com/" +:+ gistAlias) gistAlias
                    (orElse (outDir ss) (Some ".")) projName in
        applyLoop (approved ss) tool links projName rest
      else if JS.startsWith gistAlias "https://" || JS.startsWith gistAlias "http://" then
        let! _ := writeGistFile h p ss gistAlias gistAlias
                    (orElse (outDir ss) (Some ".")) projName in
        applyLoop (approved ss) tool links projName rest
      else
        match findGistLink links gistAlias with
        | None =>
            let! _ := emit (Log ("No match found for '" +:+ gistAlias
                                 +:+ "', available gists:")) in
            let! _ := printGistLinks tool links None None in
            ret (false, ss)
        | Some gistLink =>
            let! _ := writeGistFile h p ss
                        (match Registry.gistId gistLink with
                         | Some id => if JS.isEmpty id then Registry.url gistLink else id
                         | None => Registry.url gistLink
                         end)
                        gistAlias
                        (orElse (outDir ss) (orElse (Registry.to gistLink) (Some ".")))
                        projName in
            applyLoop (approved ss) tool links projName rest
        end
  end.

(** [applyGists(tool, gistAliases, projName)] *)
Definition applyGists (ss : Session) (tool : string) (gistAliases : list string)
    (projName : option string) : M h (bool * Session) :=
  let projName := defaultProjectName h p projName in
  let! links := getGistApplyLinks h ss in
  let resolvedAliases := map (resolveAlias links) gistAliases in
  applyLoop ss tool links projName resolvedAliases.

End Apply.

(* ===================================================================== *)
(** ** Command line *)
(* ===================================================================== *)

(** No key is read from the terminal between [w] and [w']. *)
Definition keysKept {h} (w w' : World h) : Prop := stdin w' = stdin w.

(** At most one key is read from the terminal between [w] and [w']. *)
Definition readsAtMostOneKey {h} (w w' : World h) : Prop :=
  stdin w' = stdin w \/ exists key, stdin w = key :: stdin w'.

Module Cli.

(** The module-level variables of [lib/index.js]; [gistLinksId],
    [outDir] and [projectName] are [None] when they hold [undefined] or
    [null]. *)
Record Globals := {
  gistLinksId : option string;
  verbose : bool;
  silent : bool;
  forceApproval : bool;
  preserve : bool;
  outDir : option string;
  projectName : option string;
  replaceTokens : list (string * string);
  ignoreSslErrors : bool
}.

(** The [result] object of [parseArgs]. *)
Record Parsed := {
  help : bool;
  deleteMode : bool;
  gistAliases : list string
}.

Definition helpArgs : list string := ["/help"; "--help"; "-help"; "?"].
Definition verboseArgs : list string := ["/v"; "-v"; "/verbose"; "-verbose"; "--verbose"].
Definition sourceArgs : list string := ["/s"; "-s"; "/source"; "-source"; "--source"].
Definition forceArgs : list string := ["/f"; "-f"; "/force"; "-force"; "--force"].
Definition yesArgs : list string := ["/y"; "-y"; "/yes"; "-yes"; "--yes"].
Definition preserveArgs : list string :=
  ["/p"; "-p"; "/preserve"; "-preserve"; "--preserve"].
Definition ignoreSslArgs : list string := ["/ignore-ssl-errors"; "--ignore-ssl-errors"].
Definition deleteArgs : list string := ["/delete"; "-delete"; "--delete"].
Definition outArgs : list string := ["/out"; "-out"; "--out"].
Definition nameArgs : list string := ["/name"; "-name"; "--name"].
Definition replaceArgs : list string := ["/replace"; "-replace"; "--replace"].

(** [list.includes(arg)] *)
Definition isOneOf (list : list string) (arg : string) : bool :=
  existsb (String.eqb arg) list.

Definition withHelp (r : Parsed) : Parsed :=
  {| help := true; deleteMode := deleteMode r; gistAliases := gistAliases r |}.

Definition withDeleteMode (r : Parsed) : Parsed :=
  {| help := help r; deleteMode := true; gistAliases := gistAliases r |}.

Definition withAlias (arg : string) (r : Parsed) : Parsed :=
  {| help := help r; deleteMode := deleteMode r; gistAliases := gistAliases r ++ [arg] |}.

Definition withVerbose (g : Globals) : Globals :=
  {| gistLinksId := gistLinksId g; verbose := true; silent := silent g;
     forceApproval := forceApproval g; preserve := preserve g; outDir := outDir g;
     projectName := projectName g; replaceTokens := replaceTokens g;
     ignoreSslErrors := ignoreSslErrors g |}.

Definition withSource (v : option string) (g : Globals) : Globals :=
  {| gistLinksId := v; verbose := verbose g; silent := silent g;
     forceApproval := forceApproval g; preserve := preserve g; outDir := outDir g;
     projectName := projectName g; replaceTokens := replaceTokens g;
     ignoreSslErrors := ignoreSslErrors g |}.

Definition withForce (g : Globals) : Globals :=
  {| gistLinksId := gistLinksId g; verbose := verbose g; silent := true;
     forceApproval := true; preserve := preserve g; outDir := outDir g;
     projectName := projectName g; replaceTokens := replaceTokens g;
     ignoreSslErrors := ignoreSslErrors g |}.

Definition withPreserve (g : Globals) : Globals :=
  {| gistLinksId := gistLinksId g; verbose := verbose g; silent := silent g;
     forceApproval := forceApproval g; preserve := true; outDir := outDir g;
     projectName := projectName g; replaceTokens := replaceTokens g;
     ignoreSslErrors := ignoreSslErrors g |}.

Definition withIgnoreSsl (g : Globals) : Globals :=
  {| gistLinksId := gistLinksId g; verbose := verbose g; silent := silent g;
     forceApproval := forceApproval g; preserve := preserve g; outDir := outDir g;
     projectName := projectName g; replaceTokens := replaceTokens g;
     ignoreSslErrors := true |}.

Definition withOutDir (v : option string) (g : Globals) : Globals :=
  {| gistLinksId := gistLinksId g; verbose := verbose g; silent := silent g;
     forceApproval := forceApproval g; preserve := preserve g; outDir := v;
     projectName := projectName g; replaceTokens := replaceTokens g;
     ignoreSslErrors := ignoreSslErrors g |}.

Definition withProjectName (v : option string) (g : Globals) : Globals :=
  {| gistLinksId := gistLinksId g; verbose := verbose g; silent := silent g;
     forceApproval := forceApproval g; preserve := preserve g; outDir := outDir g;
     projectName := v; replaceTokens := replaceTokens g;
     ignoreSslErrors := ignoreSslErrors g |}.

Definition withToken (term replacement : string) (g : Globals) : Globals :=
  {| gistLinksId := gistLinksId g; verbose := verbose g; silent := silent g;
     forceApproval := forceApproval g; preserve := preserve g; outDir := outDir g;
     projectName := projectName g;
     replaceTokens := replaceTokens g ++ [(term, replacement)];
     ignoreSslErrors := ignoreSslErrors g |}.

(** The loop of [parseArgs] from the argument at hand: the outcome, and
    the module-level variables as the loop leaves them (they keep what
    was assigned before an exception).  [args[++i]] past the end of
    the arguments is [undefined]. *)
Fixpoint parseLoop (args : list string) (r : Parsed) (g : Globals)
    : result Parsed * Globals :=
  match args with
  | [] => (Ok r, g)
  | arg :: rest =>
      if isOneOf helpArgs arg then parseLoop rest (withHelp r) g
      else if isOneOf verboseArgs arg then parseLoop rest r (withVerbose g)
      else if isOneOf sourceArgs arg then
        match rest with
        | v :: rest' => parseLoop rest' r (withSource (Some v) g)
        | [] => (Ok r, withSource None g)
        end
      else if isOneOf forceArgs arg || isOneOf yesArgs arg then
        parseLoop rest r (withForce g)
      else if isOneOf preserveArgs arg then parseLoop rest r (withPreserve g)
      else if isOneOf ignoreSslArgs arg then parseLoop rest r (withIgnoreSsl g)
      else if isOneOf deleteArgs arg then parseLoop rest (withDeleteMode r) g
      else if isOneOf outArgs arg then
        match rest with
        | v :: rest' =>
            parseLoop rest' r
              (withOutDir (Some (if JS.endsWith v "/" then v else v +:+ "/")) g)
        | [] => (Throw typeError, withOutDir None g)
        end
      else if isOneOf nameArgs arg then
        match rest with
        | v :: rest' =>
            if JS.isEmpty v
            then (Throw "Missing -name value", withProjectName (Some v) g)
            else parseLoop rest' r (withProjectName (Some v) g)
        | [] => (Throw "Missing -name value", withProjectName None g)
        end
      else if isOneOf replaceArgs arg then
        match rest with
        | replacePair :: rest' =>
            if JS.isEmpty replacePair
            then (Throw "Missing -replace value, e.g -replace term=with", g)
            else
              match JS.indexOf replacePair "=" 0 with
              | None => (Throw "Invalid -replace usage, e.g: -replace term=with", g)
              | Some eqPos =>
                  parseLoop rest' r
                    (withToken (JS.substring replacePair 0 eqPos)
                               (JS.substringFrom replacePair (eqPos + 1)) g)
              end
        | [] => (Throw "Missing -replace value, e.g -replace term=with", g)
        end
      else if JS.startsWith arg "-" then (Throw ("Unknown switch: " +:+ arg), g)
      else parseLoop rest (withAlias arg r) g
  end.

(** [parseArgs(args)] *)
Definition parseArgs (args : list string) (g : Globals) : result Parsed * Globals :=
  parseLoop args {| help := false; deleteMode := false; gistAliases := [] |} g.

(** The session the pipelines read, for a registry id that is set. *)
Definition toSession (g : Globals) (id : string) : Session :=
  Build_Session (verbose g) (silent g) (forceApproval g) (preserve g) (outDir g)
    (replaceTokens g) id.

Section Main.

Context (h : Host) (p : Process).

Local Open Scope m_scope.

(** The part of [mix] after the help switch: listing, tag search, or the
    pipeline for the aliases, in the session [ss]. *)
Definition dispatch (tool : string) (parsed : Parsed) (projName : option string)
    (ss : Session) : M h bool :=
  match gistAliases parsed with
  | [] =>
      let! links := getGistApplyLinks h ss in
      let! _ := printGistLinks tool links None None in
      ret false
  | firstArg :: others =>
      if JS.startsWith firstArg "#" then
        let! links := getGistApplyLinks h ss in
        let! _ := printGistLinks tool links (Some (JS.substringFrom firstArg 1)) None in
        ret false
      else if JS.startsWith firstArg "[" && JS.endsWith firstArg "]" then
        let! links := getGistApplyLinks h ss in
        let! _ := printGistLinks tool links
                    (Some (JS.substring firstArg 1 (String.length firstArg - 1))) None in
        ret false
      else
        let gistAliases :=
          match others with
          | [] => if JS.includes firstArg "+" then JS.split "+" firstArg else [firstArg]
          | _ => firstArg :: others
          end in
        if negb (deleteMode parsed) then
          let! done := applyGists h p ss tool gistAliases projName in
          ret (fst done)
        else deleteGists h p ss tool gistAliases projName
  end.

(** [mix(tool, args)] from the module-level variables [g].  With a
    registry id left [undefined] by a source switch without a value, the
    registry is found only in the cache, under the key the template
    string gives, and asking the network for it raises a type error. *)
Definition mix (tool : string) (args : list string) (g : Globals) : M h bool :=
  match parseArgs args g with
  | (Throw msg, _) => throw msg
  | (Beyond why, _) => lift (Beyond why)
  | (Ok parsed, g) =>
      if help parsed then
        let! _ := printHelp tool in
        ret false
      else
        match gistLinksId g with
        | Some id => dispatch tool parsed (projectName g) (toSession g id)
        | None =>
            fun w =>
              if hasKey "undefined:mix.md" (gistLinksCache w)
              then dispatch tool parsed (projectName g) (toSession g "undefined") w
              else (Throw typeError, w)
        end
  end.

End Main.

End Cli.

(** Every spelling of every switch. *)
Definition switches : list string :=
  Cli.helpArgs ++ Cli.verboseArgs ++ Cli.sourceArgs ++ Cli.forceArgs ++ Cli.yesArgs
  ++ Cli.preserveArgs ++ Cli.ignoreSslArgs ++ Cli.deleteArgs ++ Cli.outArgs
  ++ Cli.nameArgs ++ Cli.replaceArgs.

(** An argument that is no switch and does not begin with a hyphen. *)
Definition plainArgument (arg : string) : Prop :=
  Cli.isOneOf switches arg = false /\ JS.startsWith arg "-" = false.

(** Between [g] and [g'] no switch was turned off and no replacement was
    dropped. *)
Definition onlySwitchedOn (g g' : Cli.Globals) : Prop :=
  (Cli.verbose g = true -> Cli.verbose g' = true) /\
  (Cli.silent g = true -> Cli.silent g' = true) /\
  (Cli.forceApproval g = true -> Cli.forceApproval g' = true) /\
  (Cli.preserve g = true -> Cli.preserve g' = true) /\
  (Cli.ignoreSslErrors g = true -> Cli.ignoreSslErrors g' = true) /\
  (exists more, Cli.replaceTokens g' = Cli.replaceTokens g ++ more).

(** Module-level variables as they are when the module is loaded. *)
Definition freshGlobals (source : string) : Cli.Globals := {|
  Cli.gistLinksId := Some source; Cli.verbose := false; Cli.silent := false;
  Cli.forceApproval := false; Cli.preserve := false; Cli.outDir := None;
  Cli.projectName := None; Cli.replaceTokens := []; Cli.ignoreSslErrors := false
|}.

(** The command line asks for a removal. *)
Definition asksRemoval (args : list string) (g : Cli.Globals) : bool :=
  match fst (Cli.parseArgs args g) with
  | Ok parsed => Cli.deleteMode parsed
  | _ => false
  end.

(** What a run of the tool may do, by the kind of run. *)
Definition runTrace (h : Host) (f0 : FS h) (removal : bool) (evs : list event) : Prop :=
  if removal then Forall (removalEvent h f0) evs else applyTrace evs.

(** A link with one tag. *)
Definition taggedLink : Registry.LinkRecord := {|
  Registry.name := "redis"; Registry.url := "https://gist.github.com/gistlyn/abc";
  Registry.user := Some "ServiceStack"; Registry.to := None;
  Registry.description := "Use ServiceStack.Redis"; Registry.tags := Some ["db"];
  Registry.gistId := Some "abc"; Registry.repo := None; Registry.modifiers := []
|}.

(** A word with letters outside A to Z: e acute, t, e acute; and the same
    word in capitals. *)
Definition accented : string :=
  String "233"%char (String "t"%char (String "233"%char EmptyString)).

Definition accentedCapitals : string :=
  String "201"%char (String "T"%char (String "201"%char EmptyString)).

(** A link with a name and a tag outside A to Z. *)
Definition accentedLink : Registry.LinkRecord := {|
  Registry.name := accentedCapitals; Registry.url := "https://gist.github.com/u/1";
  Registry.user := Some "u"; Registry.to := None;
  Registry.description := EmptyString; Registry.tags := Some [accented];
  Registry.gistId := Some "1"; Registry.repo := None; Registry.modifiers := []
|}.

(** No code unit of [s] is one of the three below 256 that upper-casing
    does not turn into a single code unit below 256 (see
    [JS.upperLeaves]). *)
Definition upperWithin (s : string) : Prop := JS.anyChar JS.upperLeaves s = false.

(** What the argument loop keeps, from any argument on. *)
Definition parseLoopKeeps (args : list string) (r : Cli.Parsed) (g : Cli.Globals) : Prop :=
  onlySwitchedOn g (snd (Cli.parseLoop args r g)) /\
  forall parsed, fst (Cli.parseLoop args r g) = Ok parsed ->
    exists more, Cli.gistAliases parsed = Cli.gistAliases r ++ more /\
                 sublist more args /\ Forall plainArgument more.

(** Closes an equation between closed terms by evaluating both sides. *)
Ltac evaluate :=
  match goal with |- ?a = ?b => exact (@eq_refl _ a <: a = b) end.

(* ===================================================================== *)
(** * Properties *)
(* ===================================================================== *)

(** ** Facts about the string primitives *)

Lemma prefix_single (c d : ascii) (r : string) :
  String.prefix (String c EmptyString) (String d r) = Ascii.eqb c d.
Proof.
  simpl. destruct (ascii_dec c d) as [->|Hne].
  - rewrite Ascii.eqb_refl. now destruct r.
  - symmetry. now apply Ascii.eqb_neq.
Qed.

Lemma includes_single (c : ascii) (s : string) :
  JS.includes s (String c EmptyString) = JS.anyChar (Ascii.eqb c) s.
Proof.
  induction s as [|d r IH].
  - reflexivity.
  - cbn [JS.includes JS.anyChar]. now rewrite prefix_single, IH.
Qed.

Lemma anyChar_append (P : ascii -> bool) (a b : string) :
  JS.anyChar P (a +:+ b) = JS.anyChar P a || JS.anyChar P b.
Proof.
  induction a as [|c r IH]; simpl.
  - reflexivity.
  - now rewrite IH, orb_assoc.
Qed.

Lemma anyChar_ext (P Q : ascii -> bool) (s : string) :
  (forall c, P c = Q c) -> JS.anyChar P s = JS.anyChar Q s.
Proof.
  intros HPQ. induction s as [|c r IH]; simpl; [reflexivity|].
  now rewrite HPQ, IH.
Qed.

Lemma anyChar_false_weaken (P Q : ascii -> bool) (s : string) :
  (forall c, Q c = true -> P c = true) ->
  JS.anyChar P s = false -> JS.anyChar Q s = false.
Proof.
  intros HQP. induction s as [|c r IH]; simpl; [reflexivity|].
  intros H. apply orb_false_iff in H as [Hc Hr].
  apply orb_false_iff. split; [|now apply IH].
  destruct (Q c) eqn:E; [|reflexivity].
  apply HQP in E. congruence.
Qed.

Lemma anyChar_true_exists (P : ascii -> bool) (s : string) :
  JS.anyChar P s = true <-> exists a c b, s = a +:+ String c b /\ P c = true.
Proof.
  split.
  - induction s as [|d r IH]; simpl; [discriminate|].
    intros H. apply orb_true_iff in H as [Hd|Hr].
    + exists EmptyString, d, r. now split.
    + destruct (IH Hr) as (a & c & b & -> & Hc).
      exists (String d a), c, b. now split.
  - intros (a & c & b & -> & Hc). rewrite anyChar_append. simpl.
    rewrite Hc. now rewrite orb_true_r.
Qed.

Lemma length_append (a b : string) :
  String.length (a +:+ b) = String.length a + String.length b.
Proof.
  induction a as [|c a IH]; [reflexivity|].
  change (S (String.length (a +:+ b)) = S (String.length a) + String.length b).
  now rewrite IH.
Qed.

Lemma append_cons (x : ascii) (a b : string) : String x a +:+ b = String x (a +:+ b).
Proof. reflexivity. Qed.

Lemma append_assoc' (a b c : string) : (a +:+ b) +:+ c = a +:+ b +:+ c.
Proof.
  induction a as [|x a IH]; [reflexivity|].
  rewrite !append_cons. f_equal. exact IH.
Qed.

Lemma prefix_append (q s : string) :
  String.prefix q s = true -> s = q +:+ JS.drop (String.length q) s.
Proof.
  revert s. induction q as [|c q IH]; intros s H; [now destruct s|].
  destruct s as [|d s]; [discriminate|]. simpl in H.
  destruct (ascii_dec c d) as [->|]; [|discriminate].
  rewrite append_cons. f_equal. exact (IH s H).
Qed.

Lemma drop_append (a b : string) : JS.drop (String.length a) (a +:+ b) = b.
Proof. induction a as [|c a IH]; [now destruct b|]. exact IH. Qed.

(** *** [trim] *)

Lemma trimEnd_idempotent (s : string) : JS.trimEnd (JS.trimEnd s) = JS.trimEnd s.
Proof.
  induction s as [|c r IH]; [reflexivity|].
  cbn [JS.trimEnd].
  destruct (JS.isSpace c && JS.isEmpty (JS.trimEnd r)) eqn:E; [reflexivity|].
  cbn [JS.trimEnd]. rewrite IH, E. reflexivity.
Qed.

Lemma trimStart_startsNonBlank (s : string) : startsNonBlank (JS.trimStart s).
Proof.
  induction s as [|c r IH]; simpl; [exact I|].
  destruct (JS.isSpace c) eqn:E; [exact IH|]. simpl. exact E.
Qed.

Lemma trimEnd_startsNonBlank (s : string) :
  startsNonBlank s -> startsNonBlank (JS.trimEnd s).
Proof.
  destruct s as [|c r]; simpl; [trivial|].
  intros Hc. rewrite Hc. simpl. exact Hc.
Qed.

Lemma trimStart_fixed (s : string) : startsNonBlank s -> JS.trimStart s = s.
Proof.
  destruct s as [|c r]; simpl; [reflexivity|]. now intros ->.
Qed.

Lemma trim_startsNonBlank (s : string) : startsNonBlank (JS.trim s).
Proof. apply trimEnd_startsNonBlank, trimStart_startsNonBlank. Qed.

Lemma trim_idempotent (s : string) : JS.trim (JS.trim s) = JS.trim s.
Proof.
  unfold JS.trim at 1.
  rewrite (trimStart_fixed (JS.trim s)) by apply trim_startsNonBlank.
  unfold JS.trim. apply trimEnd_idempotent.
Qed.

(** Trimming only removes blanks: it keeps every other code unit. *)
Lemma trimStart_keeps (P : ascii -> bool) (s : string) :
  (forall c, P c = true -> JS.isSpace c = false) ->
  JS.anyChar P (JS.trimStart s) = JS.anyChar P s.
Proof.
  intros HP. induction s as [|c r IH]; simpl; [reflexivity|].
  destruct (JS.isSpace c) eqn:E; [|reflexivity].
  rewrite IH. destruct (P c) eqn:EP; [|reflexivity].
  apply HP in EP. congruence.
Qed.

Lemma trimEnd_keeps (P : ascii -> bool) (s : string) :
  (forall c, P c = true -> JS.isSpace c = false) ->
  JS.anyChar P (JS.trimEnd s) = JS.anyChar P s.
Proof.
  intros HP. induction s as [|c r IH]; [reflexivity|].
  cbn [JS.trimEnd JS.anyChar].
  destruct (JS.isSpace c && JS.isEmpty (JS.trimEnd r)) eqn:E.
  - apply andb_true_iff in E as [Ec Er].
    destruct (JS.trimEnd r) eqn:Et; [|discriminate].
    simpl in IH. rewrite <- IH. simpl.
    destruct (P c) eqn:EP; [|reflexivity].
    apply HP in EP. congruence.
  - cbn [JS.anyChar]. now rewrite IH.
Qed.

Lemma trim_keeps (P : ascii -> bool) (s : string) :
  (forall c, P c = true -> JS.isSpace c = false) ->
  JS.anyChar P (JS.trim s) = JS.anyChar P s.
Proof.
  intros HP. unfold JS.trim.
  now rewrite trimEnd_keeps, trimStart_keeps.
Qed.

(** *** Global replacement of a literal *)

Lemma replaceAux_absent (pat repl whole : string) (s : string) (pos : nat) :
  JS.includes s pat = false -> JS.replaceAux pat repl whole pos 0 s = s.
Proof.
  revert pos. induction s as [|c r IH]; intros pos H; [reflexivity|].
  cbn [JS.includes] in H. apply orb_false_iff in H as [Hp Hr].
  cbn [JS.replaceAux]. rewrite Hp. f_equal. now apply IH.
Qed.

Lemma replaceAll_absent (pat repl s : string) :
  JS.includes s pat = false -> JS.replaceAll pat repl s = s.
Proof. apply replaceAux_absent. Qed.

(* ===================================================================== *)
(** ** Project-name sanitisation *)
(* ===================================================================== *)

Lemma splitClassAux_clean (P : ascii -> bool) (s : string) :
  JS.anyChar P (fst (JS.splitClassAux P s)) = false /\
  Forall (fun w => JS.anyChar P w = false) (snd (JS.splitClassAux P s)).
Proof.
  induction s as [|c r [IHp IHps]]; simpl.
  - split; [reflexivity|constructor].
  - destruct (JS.splitClassAux P r) as [q qs]. simpl in *.
    destruct (P c) eqn:E; simpl.
    + split; [reflexivity|]. now constructor.
    + split; [|assumption]. now rewrite E.
Qed.

Lemma splitClass_clean (P : ascii -> bool) (s : string) :
  Forall (fun w => JS.anyChar P w = false) (JS.splitClass P s).
Proof.
  unfold JS.splitClass. pose proof (splitClassAux_clean P s) as [Hp Hps].
  destruct (JS.splitClassAux P s) as [q qs]. now constructor.
Qed.

Lemma upperOf_not_sep (c : ascii) :
  isSep c = false -> JS.anyChar isSep (JS.upperOf c) = false.
Proof.
  destruct c as [[] [] [] [] [] [] [] []]; vm_compute; intros H; congruence.
Qed.

Lemma titleCase_clean (w : string) :
  JS.anyChar isSep w = false -> JS.anyChar isSep (titleCase w) = false.
Proof.
  destruct w as [|c r]; [reflexivity|].
  change (titleCase (String c r)) with ((JS.upperOf c +:+ EmptyString) +:+ r).
  cbn [JS.anyChar]. intros H.
  apply orb_false_iff in H as [Hc Hr].
  rewrite !anyChar_append, (upperOf_not_sep c Hc), Hr. reflexivity.
Qed.

Lemma join_empty_clean (P : ascii -> bool) (ws : list string) :
  Forall (fun w => JS.anyChar P w = false) ws ->
  JS.anyChar P (JS.join EmptyString ws) = false.
Proof.
  induction 1 as [|w ws Hw Hws IH]; [reflexivity|].
  cbn [JS.join]. destruct ws as [|w' ws']; [assumption|].
  rewrite !anyChar_append, Hw, IH. reflexivity.
Qed.

Lemma isSep_separatorFree (s : string) :
  JS.anyChar isSep s = false -> separatorFree s.
Proof.
  intros H. unfold separatorFree. apply Forall_forall. intros c Hc.
  apply list_elem_of_In in Hc. rewrite includes_single.
  apply (anyChar_false_weaken isSep); [|assumption].
  intros d Hd. apply Ascii.eqb_eq in Hd. subst d.
  unfold isSep. apply existsb_exists. exists c. split; [assumption|].
  apply Ascii.eqb_refl.
Qed.

(** C10.  For every non-null, non-empty name, [sanitizeProjectName] returns
    a string, and that string contains none of the separator characters
    space, hyphen, plus and underscore. *)
Theorem sanitizeProjectName_no_separator (name : string) :
  name <> EmptyString ->
  exists r, sanitizeProjectName (Some name) = Some r /\ separatorFree r.
Proof.
  intros Hne. unfold sanitizeProjectName.
  destruct name as [|c0 r0]; [congruence|]. cbn [JS.isEmpty].
  destruct (negb (existsb _ sepChars)) eqn:E.
  - eexists. split; [reflexivity|].
    apply negb_true_iff in E. unfold separatorFree. apply Forall_forall.
    intros c Hc. apply list_elem_of_In in Hc.
    destruct (JS.includes (String c0 r0) (String c EmptyString)) eqn:Ei;
      [|reflexivity].
    assert (existsb (fun c => JS.includes (String c0 r0) (String c EmptyString)) sepChars
            = true) as Hex by (apply existsb_exists; eauto).
    congruence.
  - eexists. split; [reflexivity|].
    apply isSep_separatorFree, join_empty_clean.
    apply Forall_forall. intros w Hw.
    apply list_elem_of_In, in_map_iff in Hw as (w0 & <- & Hw0).
    apply titleCase_clean.
    apply list_elem_of_In, list_elem_of_filter in Hw0 as [_ Hw0].
    pose proof (splitClass_clean isSep (String c0 r0)) as Hall.
    rewrite Forall_forall in Hall. apply Hall. assumption.
Qed.

Lemma sanitizeProjectName_no_separator_witness :
  exists r, sanitizeProjectName (Some "my-cool_app") = Some r /\ separatorFree r.
Proof.
  apply (sanitizeProjectName_no_separator "my-cool_app"). discriminate.
Defined.

(* ===================================================================== *)
(** ** Token substitution *)
(* ===================================================================== *)

(** The claim C6 makes about the project name [my_app], which is
    sanitised before substitution, fails on its first line: with the
    sanitised name the placeholder [MyApp] is replaced by [MyApp], not by
    [myapp]. *)
Lemma my_app_sanitized_table_counterexample :
  sanitizeProjectName (Some "my_app") = Some "MyApp" /\
  replacePlaceholders "MyApp" "MyApp" <> "myapp" /\
  replacePlaceholders "my-app" "MyApp" <> "myapp" /\
  replacePlaceholders "My App" "MyApp" <> "myapp".
Proof. repeat split; vm_compute; congruence. Qed.

(** C6, amended.  The caller-supplied name [my_app] is sanitised to
    [MyApp]; with it the placeholders are replaced as [MyApp] to [MyApp],
    [my-app] to [my-app], [myapp] to [myapp], [My App] to [My App] and
    [my_app] to [myapp], the lower-case form of the sanitised name.  The
    table of the claim ([myapp] four times, then [my_app]) is what the
    substitution yields for the name [my_app] when it is not sanitised. *)
Theorem my_app_substitution_table :
  sanitizeProjectName (Some "my_app") = Some "MyApp" /\
  (replacePlaceholders "MyApp" "MyApp" = "MyApp" /\
   replacePlaceholders "my-app" "MyApp" = "my-app" /\
   replacePlaceholders "myapp" "MyApp" = "myapp" /\
   replacePlaceholders "My App" "MyApp" = "My App" /\
   replacePlaceholders "my_app" "MyApp" = JS.toLowerCase "MyApp") /\
  (replacePlaceholders "MyApp" "my_app" = "myapp" /\
   replacePlaceholders "my-app" "my_app" = "myapp" /\
   replacePlaceholders "myapp" "my_app" = "myapp" /\
   replacePlaceholders "My App" "my_app" = "myapp" /\
   replacePlaceholders "my_app" "my_app" = JS.toLowerCase "my_app").
Proof. repeat split; vm_compute; reflexivity. Qed.

(** Without custom tokens [replaceMyApp] is the chain of the six
    replacements, followed by the removal of carriage returns where the
    platform is not Windows. *)
Lemma replaceMyApp_placeholders (p : Process) (ss : Session) (input name : string) :
  replaceTokens ss = [] -> input <> EmptyString -> name <> EmptyString ->
  replaceMyApp p ss input (Some name)
  = if win32 p then replacePlaceholders input name
    else JS.removeChar (Ascii.eqb "013"%char) (replacePlaceholders input name).
Proof.
  intros Htok Hi Hn. unfold replaceMyApp.
  destruct input; [congruence|]. destruct name; [congruence|].
  cbn [JS.isEmpty orb]. rewrite Htok. now destruct (win32 p).
Qed.

(** The claim C5 makes fails: the name [y] contains none of the six
    spellings, the input [mmyappapp] becomes [myapp], and substituting
    again turns that into [y]. *)
Lemma substitution_twice_counterexample :
  placeholderFree "y" /\
  replacePlaceholders "mmyappapp" "y" = "myapp" /\
  replacePlaceholders (replacePlaceholders "mmyappapp" "y") "y" = "y" /\
  replacePlaceholders (replacePlaceholders "mmyappapp" "y") "y"
    <> replacePlaceholders "mmyappapp" "y".
Proof.
  split; [|repeat split; vm_compute; congruence].
  unfold placeholderFree, placeholders. repeat constructor.
Qed.

Lemma replacePlaceholders_fixed (s name : string) :
  placeholderFree s -> replacePlaceholders s name = s.
Proof.
  unfold placeholderFree, placeholders. intros H.
  repeat match goal with
         | H : Forall _ (_ :: _) |- _ => inversion H; subst; clear H
         end.
  unfold replacePlaceholders.
  rewrite (replaceAll_absent "My_App" _ s) by assumption.
  rewrite (replaceAll_absent "MyApp" _ s) by assumption.
  rewrite (replaceAll_absent "My App" _ s) by assumption.
  rewrite (replaceAll_absent "my-app" _ s) by assumption.
  rewrite (replaceAll_absent "myapp" _ s) by assumption.
  now rewrite (replaceAll_absent "my_app" _ s) by assumption.
Qed.

(** C5, amended.  When the output of one substitution contains none of
    the six placeholder spellings, substituting again with the same
    project name leaves it unchanged. *)
Theorem substitution_twice (input name : string) :
  placeholderFree (replacePlaceholders input name) ->
  replacePlaceholders (replacePlaceholders input name) name
  = replacePlaceholders input name.
Proof. apply replacePlaceholders_fixed. Qed.

Lemma substitution_twice_witness :
  replacePlaceholders (replacePlaceholders "namespace MyApp.ServiceModel" "Acme") "Acme"
  = replacePlaceholders "namespace MyApp.ServiceModel" "Acme".
Proof.
  apply (substitution_twice "namespace MyApp.ServiceModel" "Acme").
  unfold placeholderFree, placeholders. repeat constructor.
Defined.

(* ===================================================================== *)
(** ** Registry parser *)
(* ===================================================================== *)

(** The assertions of the repository's test file hold of the embedding. *)
Example parseGistLinks_test :
  map (fun l => (Registry.name l, Registry.to l, Registry.tags l))
      (Registry.parseGistLinks testMd)
  = [("init", None, Some ["project"; "sharp"; "ss"]);
     ("redis", Some "$HOST", Some ["db"]);
     ("sqlite", Some "$HOST", Some ["db"; "lite"]);
     ("auth", Some "$HOST", Some ["auth"])] /\
  (Registry.url <$> head (Registry.parseGistLinks testMd))
  = Some "https://gist.github.com/gistlyn/58030e271595520d87873c5df5e14f60".
Proof. split; vm_compute; reflexivity. Qed.

Example parseGistLinks_edge_cases :
  Registry.parseGistLinks EmptyString = [] /\
  Registry.parseGistLinks ("# Title" +:+ nl +:+ nl +:+ "Some text") = [] /\
  map (fun l => (Registry.name l, Registry.user l, Registry.repo l))
      (Registry.parseGistLinks " - [blazor](https://github.com/user/repo) {} `ui` Blazor template")
  = [("blazor", Some "user", Some "repo")].
Proof. repeat split; vm_compute; reflexivity. Qed.

Example parseGistLinks_user_normalization :
  map Registry.user
      (Registry.parseGistLinks " - [test](https://gist.github.com/mythz/abc123) {} `` Description")
  = [Some "ServiceStack"] /\
  map Registry.user
      (Registry.parseGistLinks " - [test](https://gist.github.com/gistlyn/abc123) {} `` Description")
  = [Some "ServiceStack"].
Proof. split; vm_compute; reflexivity. Qed.

Lemma span_spec (P : ascii -> bool) (s : string) :
  s = fst (span P s) +:+ snd (span P s) /\
  JS.anyChar (fun c => negb (P c)) (fst (span P s)) = false.
Proof.
  induction s as [|c r [IHs IHc]]; [split; reflexivity|].
  cbn [span]. destruct (P c) eqn:E; [|split; reflexivity].
  destruct (span P r) as [a b]. cbn [fst snd] in *.
  rewrite append_cons. split; [now f_equal|].
  cbn [JS.anyChar]. now rewrite E.
Qed.

Lemma negb_negb_eqb (c : ascii) (s : string) :
  JS.anyChar (fun d => negb (negb (Ascii.eqb d c))) s = JS.anyChar (Ascii.eqb c) s.
Proof.
  apply anyChar_ext. intros d. now rewrite negb_involutive, Ascii.eqb_sym.
Qed.

Lemma nonempty_isEmpty (s : string) : JS.isEmpty s = false -> s <> EmptyString.
Proof. now destruct s. Qed.

(** What a match of the link pattern at the head of [s] consists of. *)
Lemma matchLinkAt_spec (s name url : string) (n : nat) :
  Registry.matchLinkAt s = Some (name, url, n) ->
  name <> EmptyString /\ JS.anyChar (Ascii.eqb "]"%char) name = false /\
  url <> EmptyString /\ JS.anyChar (Ascii.eqb ")"%char) url = false /\
  n = String.length (linkText name url) /\
  exists post, s = linkText name url +:+ post.
Proof.
  unfold Registry.matchLinkAt.
  destruct (String.prefix "- [" s) eqn:E1; [|discriminate].
  pose proof (span_spec (fun c => negb (Ascii.eqb c "]"%char)) (JS.drop 3 s)) as [Hs1 Hc1].
  destruct (span _ (JS.drop 3 s)) as [nm r1]. cbn [fst snd] in *.
  destruct (JS.isEmpty nm) eqn:En; [discriminate|].
  destruct (String.prefix "](" r1) eqn:E2; [|discriminate].
  pose proof (span_spec (fun c => negb (Ascii.eqb c ")"%char)) (JS.drop 2 r1)) as [Hs2 Hc2].
  destruct (span _ (JS.drop 2 r1)) as [u r2]. cbn [fst snd] in *.
  destruct (JS.isEmpty u) eqn:Eu; [discriminate|].
  destruct (String.prefix ")" r2) eqn:E3; [|discriminate].
  intros [= <- <- <-].
  rewrite negb_negb_eqb in Hc1, Hc2.
  repeat split; try assumption; try (now apply nonempty_isEmpty).
  - unfold linkText. rewrite !length_append. simpl. lia.
  - apply prefix_append in E1, E2, E3.
    change (String.length "- [") with 3 in E1. change (String.length "](") with 2 in E2.
    exists (JS.drop (String.length ")") r2).
    rewrite E1, Hs1, E2, Hs2, E3 at 1. unfold linkText.
    now rewrite !append_assoc'.
Qed.

Lemma matchLink_spec (s : string) (m : string * string * nat) :
  Registry.matchLink s = Some m ->
  exists pre suf, s = pre +:+ suf /\ Registry.matchLinkAt suf = Some m.
Proof.
  induction s as [|c r IH]; cbn [Registry.matchLink].
  - destruct (Registry.matchLinkAt EmptyString) eqn:E; [|discriminate].
    intros [= <-]. now exists EmptyString, EmptyString.
  - destruct (Registry.matchLinkAt (String c r)) eqn:E.
    + intros [= <-]. now exists EmptyString, (String c r).
    + intros H. destruct (IH H) as (pre & suf & -> & Hm).
      now exists (String c pre), suf.
Qed.

Lemma parseGistLink_match (line : string) (r : Registry.LinkRecord) :
  Registry.parseGistLink line = Some r ->
  exists n, Registry.matchLink (JS.trim line) = Some (Registry.name r, Registry.url r, n).
Proof.
  unfold Registry.parseGistLink.
  destruct (negb (JS.startsWith (JS.trim line) "- [")); [discriminate|].
  destruct (Registry.matchLink (JS.trim line)) as [[[nm u] n]|]; [|discriminate].
  destruct (Registry.takeModifiers _) as [mods rem].
  destruct (Registry.takeTags rem) as [tg rem'].
  destruct (if JS.startsWith u "https://gist.github.com" then _ else _) as [[us gid] rp].
  intros [= <-]. cbn [Registry.name Registry.url]. eauto.
Qed.

(** What [parseGistLink] returns, field by field. *)
Lemma parseGistLink_fields (line : string) (r : Registry.LinkRecord) :
  Registry.parseGistLink line = Some r ->
  exists matchLen,
    Registry.matchLink (JS.trim line)
      = Some (Registry.name r, Registry.url r, matchLen) /\
    Registry.tags r =
      fst (Registry.takeTags
             (snd (Registry.takeModifiers
                     (JS.trim (JS.substringFrom (JS.trim line) matchLen))))) /\
    Registry.user r =
      if JS.startsWith (Registry.url r) "https://gist.github.com"
      then Registry.normalizeUser (Registry.authorSegment (Registry.url r))
      else if JS.startsWith (Registry.url r) "https://github.com/"
      then nth_error (JS.split "/" (JS.substringFrom (Registry.url r)
                                      (String.length "https://github.com/"))) 0
      else Registry.normalizeUser (Registry.authorSegment (Registry.url r)).
Proof.
  unfold Registry.parseGistLink.
  destruct (negb (JS.startsWith (JS.trim line) "- [")); [discriminate|].
  destruct (Registry.matchLink (JS.trim line)) as [[[nm u] n]|]; [|discriminate].
  destruct (Registry.takeModifiers _) as [mods rem] eqn:Em.
  destruct (Registry.takeTags rem) as [tg rem'] eqn:Et.
  destruct (JS.startsWith u "https://gist.github.com") eqn:Eg.
  - intros [= <-]. cbn [Registry.name Registry.url Registry.tags Registry.user].
    exists n. rewrite Eg, Em. cbn [snd]. rewrite Et. auto.
  - destruct (JS.startsWith u "https://github.com/") eqn:Eh.
    + intros [= <-]. cbn [Registry.name Registry.url Registry.tags Registry.user].
      exists n. rewrite Eg, Eh, Em. cbn [snd]. rewrite Et. auto.
    + intros [= <-]. cbn [Registry.name Registry.url Registry.tags Registry.user].
      exists n. rewrite Eg, Eh, Em. cbn [snd]. rewrite Et. auto.
Qed.

(** For gist-style URLs the two legacy handles are rewritten. *)
Lemma gist_url_author_normalized (line : string) (r : Registry.LinkRecord) :
  Registry.parseGistLink line = Some r ->
  JS.startsWith (Registry.url r) "https://gist.github.com" = true ->
  Registry.authorSegment (Registry.url r) = Some "gistlyn"
  \/ Registry.authorSegment (Registry.url r) = Some "mythz" ->
  Registry.user r = Some "ServiceStack".
Proof.
  intros Hp Hg Ha. destruct (parseGistLink_fields _ _ Hp) as (n & _ & _ & Hu).
  rewrite Hg in Hu. rewrite Hu. now destruct Ha as [-> | ->].
Qed.

(** C3, at the failing input.  For a line whose URL is a repository URL
    with the author segment [mythz], the record keeps [mythz] as its
    [user]: the repository branch assigns the first path segment after
    the normalisation has been done. *)
Theorem repository_url_keeps_legacy_handle :
  exists r,
    Registry.parseGistLink "- [blazor](https://github.com/mythz/repo) {} `ui` Blazor" = Some r /\
    Registry.authorSegment (Registry.url r) = Some "mythz" /\
    Registry.user r = Some "mythz" /\
    Registry.user r <> Some "ServiceStack".
Proof.
  eexists. split; [vm_compute; reflexivity|].
  repeat split; vm_compute; congruence.
Qed.

Lemma indexOfAux_shift (sub s : string) (i : nat) :
  JS.indexOfAux sub s i = Nat.add i <$> JS.indexOfAux sub s 0.
Proof.
  revert i. induction s as [|c r IH]; intros i; cbn [JS.indexOfAux].
  - destruct (String.prefix sub EmptyString); cbn; [f_equal; lia|reflexivity].
  - destruct (String.prefix sub (String c r)); cbn; [f_equal; lia|].
    rewrite (IH (S i)), (IH 1). destruct (JS.indexOfAux sub r 0); cbn; [|reflexivity].
    f_equal. lia.
Qed.

(** The tags of [takeTags] are the non-empty trimmed fragments of the tag
    block, and there are none exactly when there is no block. *)
Lemma takeTags_tagBlock (remaining : string) :
  fst (Registry.takeTags remaining)
  = (fun block => filter (fun t => negb (JS.isEmpty t))
                         (map JS.trim (JS.split "," block))) <$> tagBlock remaining.
Proof.
  unfold Registry.takeTags, tagBlock, JS.startsWith.
  destruct remaining as [|c rest]; [reflexivity|].
  rewrite prefix_single, Ascii.eqb_sym.
  destruct (Ascii.eqb c "`"%char); [|reflexivity].
  unfold JS.indexOf. cbn [JS.drop String.length Nat.min].
  rewrite (indexOfAux_shift _ rest 1).
  destruct (JS.indexOfAux "`" rest 0) as [n|]; [|reflexivity].
  cbn [fmap option_fmap option_map Nat.add Nat.ltb Nat.leb fst].
  unfold JS.substring.
  replace (Nat.max 1 (S n) - Nat.min 1 (S n)) with n by lia.
  replace (Nat.min 1 (S n)) with 1 by lia.
  reflexivity.
Qed.

Lemma filtered_tags_trimmed (parts : list string) :
  Forall trimmedTag (filter (fun t => negb (JS.isEmpty t)) (map JS.trim parts)).
Proof.
  apply Forall_forall. intros t Ht.
  apply list_elem_of_filter in Ht as [Hne Ht].
  apply list_elem_of_In, in_map_iff in Ht as (x & <- & _).
  split.
  - intros E. rewrite E in Hne. exact Hne.
  - apply trim_idempotent.
Qed.

Lemma prefix_app (q s : string) : String.prefix q (q +:+ s) = true.
Proof.
  induction q as [|c q IH]; [now destruct s|].
  rewrite append_cons. simpl. destruct (ascii_dec c c); [exact IH|congruence].
Qed.

Lemma span_append (P : ascii -> bool) (a b : string) :
  JS.anyChar (fun c => negb (P c)) a = false ->
  match b with EmptyString => True | String c _ => P c = false end ->
  span P (a +:+ b) = (a, b).
Proof.
  intros Ha Hb. induction a as [|c a IH].
  - destruct b as [|d b]; [reflexivity|]. simpl. now rewrite Hb.
  - cbn [JS.anyChar] in Ha. apply orb_false_iff in Ha as [Hc Ha].
    rewrite append_cons. cbn [span].
    apply negb_false_iff in Hc. rewrite Hc, (IH Ha). reflexivity.
Qed.

Lemma isEmpty_nonempty (s : string) : s <> EmptyString -> JS.isEmpty s = false.
Proof. now destruct s. Qed.

(** A line that begins with a well-formed link matches at its head. *)
Lemma matchLinkAt_link (name url rest : string) :
  name <> EmptyString -> JS.anyChar (Ascii.eqb "]"%char) name = false ->
  url <> EmptyString -> JS.anyChar (Ascii.eqb ")"%char) url = false ->
  Registry.matchLinkAt (linkText name url +:+ rest)
  = Some (name, url, String.length (linkText name url)).
Proof.
  intros Hn Hnc Hu Huc. unfold Registry.matchLinkAt, linkText.
  rewrite !append_assoc'. rewrite prefix_app.
  change 3 with (String.length "- [") at 1. rewrite drop_append.
  rewrite (span_append _ name) by (now rewrite ?negb_negb_eqb).
  rewrite (isEmpty_nonempty _ Hn), prefix_app.
  change 2 with (String.length "](") at 1. rewrite drop_append.
  rewrite (span_append _ url) by (now rewrite ?negb_negb_eqb).
  rewrite (isEmpty_nonempty _ Hu), prefix_app.
  do 3 f_equal. rewrite !length_append. simpl. lia.
Qed.

Lemma matchLink_head (s : string) (m : string * string * nat) :
  Registry.matchLinkAt s = Some m -> Registry.matchLink s = Some m.
Proof. intros H. destruct s; cbn [Registry.matchLink]; now rewrite H. Qed.

Lemma indexOf_zero (s sub : string) : JS.indexOf s sub 0 = JS.indexOfAux sub s 0.
Proof. unfold JS.indexOf. now destruct s. Qed.

(** What [parseGistLink] takes for the text after the modifier block is
    the text after it. *)
Lemma takeModifiers_afterModifiers (s : string) :
  snd (Registry.takeModifiers s) = afterModifiers s.
Proof.
  unfold Registry.takeModifiers, afterModifiers, JS.startsWith.
  destruct s as [|c rest]; [reflexivity|].
  rewrite prefix_single, Ascii.eqb_sym.
  destruct (Ascii.eqb c "{"%char) eqn:Ec; [|reflexivity].
  apply Ascii.eqb_eq in Ec as ->.
  rewrite (indexOf_zero rest), (indexOf_zero (String "{" rest)).
  cbn [JS.indexOfAux]. rewrite prefix_single. cbn [Ascii.eqb Bool.eqb andb].
  rewrite (indexOfAux_shift _ rest 1).
  destruct (JS.indexOfAux "}" rest 0) as [n|]; [|reflexivity].
  cbn [fmap option_fmap option_map Nat.add Nat.ltb Nat.leb snd].
  unfold JS.substringFrom. now rewrite Nat.add_1_r.
Qed.

(** The text in which [parseGistLink] looks for the tag block, for a line
    that begins with the link. *)
Lemma parseGistLink_after_link (line rest : string) (r : Registry.LinkRecord) :
  Registry.parseGistLink line = Some r ->
  JS.trim line = linkText (Registry.name r) (Registry.url r) +:+ rest ->
  Registry.tags r = fst (Registry.takeTags (afterModifiers (JS.trim rest))).
Proof.
  intros Hp Hline.
  destruct (parseGistLink_fields _ _ Hp) as (n & Hm & Ht & _).
  destruct (matchLink_spec _ _ Hm) as (pre & suf & _ & Hat).
  destruct (matchLinkAt_spec _ _ _ _ Hat) as (H1 & H2 & H3 & H4 & _).
  pose proof (matchLink_head _ _ (matchLinkAt_link _ _ rest H1 H2 H3 H4)) as Hhead.
  rewrite <- Hline, Hm in Hhead.
  assert (n = String.length (linkText (Registry.name r) (Registry.url r))) as ->
    by congruence.
  rewrite Ht, takeModifiers_afterModifiers. unfold JS.substringFrom.
  now rewrite Hline, drop_append.
Qed.

(** Every line that begins with a well-formed link is parsed, and the
    record has the name and the URL of the link. *)
Lemma parseGistLink_link (line name url rest : string) :
  JS.trim line = linkText name url +:+ rest ->
  name <> EmptyString -> JS.anyChar (Ascii.eqb "]"%char) name = false ->
  url <> EmptyString -> JS.anyChar (Ascii.eqb ")"%char) url = false ->
  exists r, Registry.parseGistLink line = Some r /\
            Registry.name r = name /\ Registry.url r = url.
Proof.
  intros Hline H1 H2 H3 H4. unfold Registry.parseGistLink.
  rewrite Hline, (matchLink_head _ _ (matchLinkAt_link _ _ rest H1 H2 H3 H4)).
  unfold JS.startsWith at 1. unfold linkText at 1.
  rewrite !append_assoc', prefix_app. cbn [negb].
  destruct (Registry.takeModifiers _) as [mods rem].
  destruct (Registry.takeTags rem) as [tg rem'].
  destruct (if JS.startsWith url "https://gist.github.com" then _ else _) as [[us gid] rp].
  eexists. split; [reflexivity|]. split; reflexivity.
Qed.

(** The claim C4 makes fails three times: a line with an empty tag block
    has a present and empty [tags]; a repeated tag is kept twice; and a
    line whose link does not stand at its head has a null [tags] although
    a tag block follows the link, the text after the link being taken by
    the length of the link from the start of the line. *)
Lemma tags_nonempty_deduplicated_counterexample :
  (exists r,
     Registry.parseGistLink
       " - [test](https://gist.github.com/mythz/abc123) {} `` Description" = Some r /\
     Registry.tags r = Some []) /\
  (exists r,
     Registry.parseGistLink " - [orm](https://gist.github.com/mythz/abc123) `db, db`" = Some r /\
     Registry.tags r = Some ["db"; "db"]) /\
  (exists r,
     Registry.parseGistLink "- [x] see - [a](https://gist.github.com/u/1) `t1,t2` desc" = Some r /\
     "- [x] see - [a](https://gist.github.com/u/1) `t1,t2` desc"
       = "- [x] see " +:+ linkText (Registry.name r) (Registry.url r) +:+ " `t1,t2` desc" /\
     tagBlock (afterModifiers (JS.trim " `t1,t2` desc")) = Some "t1,t2" /\
     Registry.tags r = None /\
     Registry.description r = "b.com/u/1) `t1,t2` desc").
Proof.
  split; [|split]; eexists; (split; [vm_compute; reflexivity|]).
  - vm_compute; reflexivity.
  - vm_compute; reflexivity.
  - repeat split; vm_compute; reflexivity.
Qed.

(** C4, amended.  For every line parsed by [parseGistLink], every tag of
    the record is a non-empty trimmed string.  When the trimmed line
    begins with the link the record names, [tags] is null exactly when the
    text after the link, trimmed and without the modifier block at its
    head, does not begin with a backtick-delimited block; otherwise it is
    the list, in source order, of the trimmed comma-separated fragments of
    that block that are not empty.  The list may be empty and may hold a
    tag more than once. *)
Theorem tags_shape (line : string) (r : Registry.LinkRecord) :
  Registry.parseGistLink line = Some r ->
  (forall ts, Registry.tags r = Some ts -> Forall trimmedTag ts) /\
  (forall rest,
     JS.trim line = linkText (Registry.name r) (Registry.url r) +:+ rest ->
     (Registry.tags r = None <-> tagBlock (afterModifiers (JS.trim rest)) = None) /\
     (forall ts, Registry.tags r = Some ts ->
        exists block,
          tagBlock (afterModifiers (JS.trim rest)) = Some block /\
          ts = filter (fun t => negb (JS.isEmpty t)) (map JS.trim (JS.split "," block)))).
Proof.
  intros Hp. split.
  - destruct (parseGistLink_fields _ _ Hp) as (n & _ & Ht & _).
    rewrite Ht, takeTags_tagBlock.
    destruct (tagBlock _) as [block|]; cbn; [|discriminate].
    intros ts [= <-]. apply filtered_tags_trimmed.
  - intros rest Hline.
    rewrite (parseGistLink_after_link _ _ _ Hp Hline), takeTags_tagBlock.
    destruct (tagBlock (afterModifiers (JS.trim rest))) as [block|]; cbn.
    + split; [split; discriminate|]. intros ts [= <-]. eauto.
    + split; [tauto|discriminate].
Qed.

Lemma tags_shape_witness :
  exists r,
    Registry.parseGistLink
      " - [sqlite](https://gist.github.com/gistlyn/e9f7) {to:'$HOST'} `db, lite` OrmLite"
      = Some r /\
    JS.trim " - [sqlite](https://gist.github.com/gistlyn/e9f7) {to:'$HOST'} `db, lite` OrmLite"
      = linkText (Registry.name r) (Registry.url r) +:+ " {to:'$HOST'} `db, lite` OrmLite" /\
    tagBlock (afterModifiers (JS.trim " {to:'$HOST'} `db, lite` OrmLite")) = Some "db, lite" /\
    Registry.tags r = Some ["db"; "lite"] /\
    Forall trimmedTag ["db"; "lite"] /\
    (Registry.tags r = None <->
       tagBlock (afterModifiers (JS.trim " {to:'$HOST'} `db, lite` OrmLite")) = None).
Proof.
  eexists. split; [vm_compute; reflexivity|].
  destruct (tags_shape
              " - [sqlite](https://gist.github.com/gistlyn/e9f7) {to:'$HOST'} `db, lite` OrmLite"
              _ ltac:(vm_compute; reflexivity)) as [Htrim Hafter].
  destruct (Hafter " {to:'$HOST'} `db, lite` OrmLite" ltac:(vm_compute; reflexivity))
    as [Hnull _].
  split; [vm_compute; reflexivity|].
  split; [vm_compute; reflexivity|].
  split; [vm_compute; reflexivity|].
  split; [apply Htrim; vm_compute; reflexivity|exact Hnull].
Defined.

(* ===================================================================== *)
(** ** Command sandbox *)
(* ===================================================================== *)

Lemma split_nonempty (sep s : string) :
  sep <> EmptyString -> JS.split sep s = hd EmptyString (JS.split sep s) :: tl (JS.split sep s).
Proof.
  intros Hsep. unfold JS.split. destruct sep; [congruence|]. cbn [JS.isEmpty].
  now destruct (JS.splitAux _ 0 s).
Qed.

(** What it takes for a line to be executed. *)
Lemma judge_Execute (line cmd executable : string) (rawArgs : list string) :
  Sandbox.judge line = Sandbox.Execute cmd executable rawArgs ->
  cmd = JS.trim line /\
  JS.startsWith cmd "#" = false /\
  Sandbox.startsWithAny cmd Sandbox.allowedPrefixes = true /\
  Sandbox.restricted cmd = false /\
  JS.anyChar Sandbox.isIllegal cmd = false /\
  executable :: rawArgs = JS.split " " cmd.
Proof.
  unfold Sandbox.judge.
  destruct (JS.startsWith (JS.trim line) "#") eqn:Ec; [discriminate|].
  destruct (Sandbox.startsWithAny (JS.trim line) Sandbox.allowedPrefixes) eqn:Ea;
    [|discriminate].
  destruct (Sandbox.restricted (JS.trim line)) eqn:Er; [discriminate|].
  destruct (JS.anyChar Sandbox.isIllegal (JS.trim line)) eqn:Ei; [discriminate|].
  cbn [negb]. intros [= <- <- <-]. repeat split; try reflexivity; try assumption.
  symmetry. apply split_nonempty. discriminate.
Qed.

Lemma named_is_illegal (c : ascii) : In c namedChars -> Sandbox.isIllegal c = true.
Proof.
  cbn. intros H. repeat (destruct H as [<-|H]; [reflexivity|]). contradiction.
Qed.

Lemma illegal_not_blank (c : ascii) : Sandbox.isIllegal c = true -> JS.isSpace c = false.
Proof.
  destruct c as [[] [] [] [] [] [] [] []]; vm_compute; congruence.
Qed.

(** A line in which a named character occurs is not executed. *)
Lemma named_char_not_executed (line : string) (c : ascii) :
  In c namedChars -> JS.includes line (String c EmptyString) = true ->
  ~ executes line.
Proof.
  intros Hc Hin (cmd & exe & raw & Hj).
  apply judge_Execute in Hj as (-> & _ & _ & _ & Hill & _).
  rewrite trim_keeps in Hill by apply illegal_not_blank.
  rewrite includes_single in Hin.
  apply anyChar_true_exists in Hin as (a & d & b & -> & Hd).
  apply Ascii.eqb_eq in Hd. subst d.
  rewrite anyChar_append in Hill. cbn [JS.anyChar] in Hill.
  rewrite (named_is_illegal c Hc) in Hill.
  now rewrite orb_true_r in Hill.
Qed.

(** Past the prefix checks, such a line is turned down for its
    characters. *)
Lemma named_char_rejected (line : string) (c : ascii) :
  In c namedChars -> JS.includes line (String c EmptyString) = true ->
  JS.startsWith (JS.trim line) "#" = false ->
  Sandbox.startsWithAny (JS.trim line) Sandbox.allowedPrefixes = true ->
  Sandbox.restricted (JS.trim line) = false ->
  Sandbox.judge line = Sandbox.IllegalCharacters (JS.trim line).
Proof.
  intros Hc Hin Hcom Hal Hre. unfold Sandbox.judge. rewrite Hcom, Hal, Hre. cbn [negb].
  destruct (JS.anyChar Sandbox.isIllegal (JS.trim line)) eqn:Hill; [reflexivity|].
  exfalso. apply (named_char_not_executed line c Hc Hin).
  unfold executes, Sandbox.judge. rewrite Hcom, Hal, Hre, Hill. cbn [negb]. eauto.
Qed.

Lemma no_prefix_not_executed (line : string) :
  Sandbox.startsWithAny (JS.trim line) Sandbox.allowedPrefixes = false ->
  ~ executes line.
Proof.
  intros Hno (cmd & exe & raw & Hj).
  apply judge_Execute in Hj as (-> & _ & Hal & _). congruence.
Qed.

Section SandboxRun.

Context (h : Host) (p : Process) (ss : Session).
Context (hostDir : string) (projName : option string).

(** The events one line of the script adds: none that starts a process
    unless the line is executed, and then exactly one, without a shell,
    with the executable and the argument vector of the split line. *)
Lemma runInitLine_events (line : string) (w : World h) :
  exists evs,
    trace (snd (runInitLine h p ss hostDir projName line w)) = trace w ++ evs /\
    forall e, In e evs -> isSpawn e = true ->
      exists cmd executable rawArgs name,
        Sandbox.judge line = Sandbox.Execute cmd executable rawArgs /\
        projName = Some name /\
        e = Spawn executable (initArgs p ss name rawArgs) hostDir false.
Proof.
  unfold runInitLine.
  destruct (Sandbox.judge line) as [| | |cmd|cmd exe raw] eqn:Hj.
  - exists []. cbn. rewrite app_nil_r. split; [reflexivity|contradiction].
  - exists []. cbn. rewrite app_nil_r. split; [reflexivity|contradiction].
  - exists []. cbn. rewrite app_nil_r. split; [reflexivity|contradiction].
  - eexists [_]. cbn. split; [reflexivity|].
    intros e [<-|[]]. discriminate.
  - destruct projName as [name|].
    + unfold bind, emit. cbn [fs stdin trace logged withFs].
      destruct (spawnSync h (fs w) exe _ hostDir) as [f' [err|]] eqn:Es.
      * eexists [_; _; _]. cbn [snd trace logged withFs]. rewrite <- !app_assoc.
        split; [reflexivity|].
        intros e [<-|[<-|[<-|[]]]]; try discriminate.
        intros _. exists cmd, exe, raw, name. repeat split; reflexivity.
      * eexists [_; _]. cbn [snd trace logged withFs]. rewrite <- !app_assoc.
        split; [reflexivity|].
        intros e [<-|[<-|[]]]; try discriminate.
        intros _. exists cmd, exe, raw, name. repeat split; reflexivity.
    + eexists [_]. cbn. split; [reflexivity|].
      intros e [<-|[]]. discriminate.
Qed.

(** The same for a whole script. *)
Lemma runInitScript_events (lines : list string) (w : World h) :
  exists evs,
    trace (snd (forEach lines (runInitLine h p ss hostDir projName) w)) = trace w ++ evs /\
    forall e, In e evs -> isSpawn e = true ->
      exists line cmd executable rawArgs name,
        In line lines /\
        Sandbox.judge line = Sandbox.Execute cmd executable rawArgs /\
        projName = Some name /\
        e = Spawn executable (initArgs p ss name rawArgs) hostDir false.
Proof.
  revert w. induction lines as [|line rest IH]; intros w.
  - exists []. cbn. rewrite app_nil_r. split; [reflexivity|contradiction].
  - cbn [forEach]. unfold bind at 1.
    destruct (runInitLine_events line w) as (evs1 & Ht1 & Hs1).
    destruct (runInitLine h p ss hostDir projName line w) as [[[]|msg|why] w1] eqn:E1;
      cbn [snd] in Ht1.
    + destruct (IH w1) as (evs2 & Ht2 & Hs2).
      exists (evs1 ++ evs2). rewrite Ht2, Ht1, app_assoc. split; [reflexivity|].
      intros e He Hsp. apply in_app_or in He as [He|He].
      * destruct (Hs1 e He Hsp) as (cmd & exe & raw & name & Hj & Hn & ->).
        exists line, cmd, exe, raw, name. repeat split; auto. now left.
      * destruct (Hs2 e He Hsp) as (l & cmd & exe & raw & name & Hl & Hj & Hn & ->).
        exists l, cmd, exe, raw, name. repeat split; auto. now right.
    + exists evs1. cbn [snd]. split; [assumption|].
      intros e He Hsp.
      destruct (Hs1 e He Hsp) as (cmd & exe & raw & name & Hj & Hn & ->).
      exists line, cmd, exe, raw, name. repeat split; auto. now left.
    + exists evs1. cbn [snd]. split; [assumption|].
      intros e He Hsp.
      destruct (Hs1 e He Hsp) as (cmd & exe & raw & name & Hj & Hn & ->).
      exists line, cmd, exe, raw, name. repeat split; auto. now left.
Qed.

End SandboxRun.

Lemma judge_examples :
  Sandbox.judge "rm -rf /" = Sandbox.NotSupported /\
  Sandbox.judge "npm install $(whoami)"
    = Sandbox.IllegalCharacters "npm install $(whoami)" /\
  Sandbox.judge "npm install" = Sandbox.Execute "npm install" "npm" ["install"].
Proof. repeat split; vm_compute; reflexivity. Qed.

(** C2.  In the init loop of [writeGistFile]:
    - a line in which a double quote, single quote, ampersand, semicolon,
      dollar, at-sign or pipe occurs is never executed, and it is turned
      down for its characters when it gets past the prefix checks, as
      [npm install $(whoami)] is;
    - a line that, once trimmed, starts with none of the allowed prefixes
      is never executed, as [rm -rf /] is not;
    - every process a script starts comes from a line that is executed,
      and is started without a shell, with the executable and the
      argument vector obtained by splitting the trimmed line on spaces;
    - the line [npm install] starts [npm] with the one argument
      [install] (after token substitution), without a shell. *)
Theorem init_script_sandbox (h : Host) (p : Process) (ss : Session)
    (hostDir : string) (projName : option string) (w : World h) :
  (forall line c,
     In c namedChars -> JS.includes line (String c EmptyString) = true ->
     ~ executes line /\
     (JS.startsWith (JS.trim line) "#" = false ->
      Sandbox.startsWithAny (JS.trim line) Sandbox.allowedPrefixes = true ->
      Sandbox.restricted (JS.trim line) = false ->
      Sandbox.judge line = Sandbox.IllegalCharacters (JS.trim line))) /\
  (forall line,
     Sandbox.startsWithAny (JS.trim line) Sandbox.allowedPrefixes = false ->
     ~ executes line) /\
  Sandbox.judge "rm -rf /" = Sandbox.NotSupported /\
  Sandbox.judge "npm install $(whoami)"
    = Sandbox.IllegalCharacters "npm install $(whoami)" /\
  Sandbox.judge "npm install" = Sandbox.Execute "npm install" "npm" ["install"] /\
  (forall script, exists evs,
     trace (snd (forEach (JS.split nl script) (runInitLine h p ss hostDir projName) w))
       = trace w ++ evs /\
     forall e, In e evs -> isSpawn e = true ->
       shellFree e /\
       exists line executable rawArgs name,
         In line (JS.split nl script) /\ executes line /\
         executable :: rawArgs = JS.split " " (JS.trim line) /\
         projName = Some name /\
         e = Spawn executable (initArgs p ss name rawArgs) hostDir false) /\
  (forall name, projName = Some name ->
     exists tail,
       trace (snd (runInitLine h p ss hostDir projName "npm install" w))
       = trace w ++ Log "npm install"
                 :: Spawn "npm" (initArgs p ss name ["install"]) hostDir false :: tail).
Proof.
  destruct judge_examples as (Hrm & Hwho & Hnpm).
  repeat split; try assumption.
  - now apply (named_char_not_executed line c).
  - now apply (named_char_rejected line c).
  - now apply no_prefix_not_executed.
  - intros script.
    destruct (runInitScript_events h p ss hostDir projName (JS.split nl script) w)
      as (evs & Ht & Hs).
    exists evs. split; [assumption|]. intros e He Hsp.
    destruct (Hs e He Hsp) as (line & cmd & exe & raw & name & Hl & Hj & Hn & ->).
    split; [reflexivity|].
    exists line, exe, raw, name. repeat split; auto.
    + now exists cmd, exe, raw.
    + apply judge_Execute in Hj as (-> & _ & _ & _ & _ & Hsplit). exact Hsplit.
  - intros name ->. unfold runInitLine. rewrite Hnpm.
    unfold bind, emit. cbn [fs stdin trace logged withFs].
    destruct (spawnSync h (fs w) "npm" _ hostDir) as [f' [err|]].
    + eexists [_]. cbn [snd trace logged withFs]. rewrite <- !app_assoc. reflexivity.
    + exists []. cbn [snd trace logged withFs]. rewrite <- !app_assoc. reflexivity.
Qed.

Lemma init_script_sandbox_witness :
  ~ executes "npm install $(whoami)" /\
  ~ executes "rm -rf /" /\
  exists tail,
    trace (snd (runInitLine (testHost []) posix quiet "/work" (Some "Acme") "npm install"
                  (startWorld [] ∅)))
    = [] ++ Log "npm install"
         :: Spawn "npm" (initArgs posix quiet "Acme" ["install"]) "/work" false :: tail.
Proof.
  pose proof (init_script_sandbox (testHost []) posix quiet "/work" (Some "Acme")
                (startWorld [] ∅)) as (Hchar & Hprefix & _ & _ & _ & _ & Hnpm).
  split; [|split].
  - apply (Hchar "npm install $(whoami)" "$"%char); [cbn; tauto|vm_compute; reflexivity].
  - apply Hprefix. vm_compute. reflexivity.
  - apply (Hnpm "Acme"). reflexivity.
Defined.

(* ===================================================================== *)
(** ** JSON patch *)
(* ===================================================================== *)

Lemma assocSet_assocSet {V} (k : string) (v v' : V) (ms : list (string * V)) :
  assocSet k v (assocSet k v' ms) = assocSet k v ms.
Proof.
  induction ms as [|[k0 v0] ms IH]; cbn.
  - now rewrite String.eqb_refl.
  - destruct (String.eqb k0 k) eqn:E; cbn.
    + now rewrite String.eqb_refl.
    + now rewrite E, IH.
Qed.

Lemma assocGet_assocSet {V} (k : string) (v : V) (ms : list (string * V)) :
  assocGet k (assocSet k v ms) = Some v.
Proof.
  induction ms as [|[k0 v0] ms IH]; cbn.
  - now rewrite String.eqb_refl.
  - destruct (String.eqb k0 k) eqn:E; cbn.
    + now rewrite String.eqb_refl.
    + now rewrite E.
Qed.

Lemma assocGet_assocSet_other {V} (k k' : string) (v : V) (ms : list (string * V)) :
  k <> k' -> assocGet k' (assocSet k v ms) = assocGet k' ms.
Proof.
  intros Hne. induction ms as [|[k0 v0] ms IH]; cbn.
  - destruct (String.eqb k k') eqn:E; [|reflexivity].
    apply String.eqb_eq in E. congruence.
  - destruct (String.eqb k0 k) eqn:E; cbn.
    + apply String.eqb_eq in E. subst k0.
      destruct (String.eqb k k') eqn:E'; [|reflexivity].
      apply String.eqb_eq in E'. congruence.
    + now rewrite IH.
Qed.

Lemma assocGet_assocDel {V} (k : string) (ms : list (string * V)) :
  assocGet k (assocDel k ms) = None.
Proof.
  induction ms as [|[k0 v0] ms IH]; cbn; [reflexivity|].
  destruct (String.eqb k0 k) eqn:E; cbn; [assumption|]. now rewrite E.
Qed.

Lemma plug_frame (ms : list (string * json)) (key : string)
    (ctx : list Patch.frame) (v : json) :
  Patch.plug ((ms, key) :: ctx) v = Patch.plug ctx (JObj (assocSet key v ms)).
Proof. reflexivity. Qed.

(** The cursor of the loop and the walk of the specification agree: what
    the loop reaches, edited and plugged back, is the document with the
    walk applied. *)
Lemma descend_specWalk (keys : list string) :
  forall (ms : list (string * json)) (ctx : list Patch.frame),
    ownNames keys -> objectsAlong keys ms ->
    exists ctx' ms',
      Patch.descend keys ctx (JObj ms) = Ok (ctx', JObj ms') /\
      forall edit,
        Patch.plug ctx' (JObj (edit ms')) = Patch.plug ctx (JObj (specWalk edit keys ms)).
Proof.
  induction keys as [|key rest IH]; intros ms ctx Hown Hobj.
  - exists ctx, ms. split; reflexivity.
  - inversion Hown as [|? ? Hkey Hrest]; subst.
    cbn [Patch.descend specWalk]. cbn [objectsAlong] in Hobj.
    destruct (assocGet key ms) as [child|] eqn:Eg.
    + destruct child as [| | | | | |cms]; try contradiction.
      destruct (IH cms ((ms, key) :: ctx) Hrest Hobj) as (ctx' & ms' & Hd & Hp).
      exists ctx', ms'. split; [assumption|].
      intros edit. now rewrite Hp, plug_frame.
    + rewrite Hkey.
      destruct (IH [] ((assocSet key (JObj []) ms, key) :: ctx) Hrest) as (ctx' & ms' & Hd & Hp).
      { destruct rest; cbn; trivial. }
      exists ctx', ms'. split; [assumption|].
      intros edit. now rewrite Hp, plug_frame, assocSet_assocSet.
Qed.

(** One operation refines the specification's walk. *)
Lemma applyOp_specApplyOp (ms : list (string * json)) (op : json) (o : Patch.operation) :
  Patch.readOp op = Ok o ->
  ownNames (removelast (Patch.pathParts (Patch.opPath o))) ->
  objectsAlong (removelast (Patch.pathParts (Patch.opPath o))) ms ->
  Patch.lastKey (Patch.pathParts (Patch.opPath o)) <> "__proto__" ->
  Patch.applyOp (JObj ms) op = Ok (JObj (specApplyOp o ms)).
Proof.
  intros Hr Hown Hobj Hk. unfold Patch.applyOp, specApplyOp. rewrite Hr. cbn [rbind].
  set (parts := Patch.pathParts (Patch.opPath o)) in *.
  destruct (descend_specWalk (removelast parts) ms [] Hown Hobj) as (ctx' & ms' & Hd & Hp).
  rewrite Hd. cbn [rbind].
  apply String.eqb_neq in Hk.
  destruct (Patch.kind o) eqn:Ek; cbn [Patch.applyAt specEdit rbind].
  - rewrite Hk. cbn [andb rbind].
    now rewrite (Hp (assocSet (Patch.lastKey parts) (Patch.value o))).
  - now rewrite (Hp (assocDel (Patch.lastKey parts))).
  - now rewrite (Hp (fun m => m)).
Qed.

(** The loop over the operations refines the specification's, as long as
    each pointer stays in the document. *)
Lemma applyOps_specApplyOps (ops : list json) :
  forall (os : list Patch.operation) (ms : list (string * json)),
    readOps ops = Ok os -> allInside os ms ->
    Patch.applyOps (JObj ms) ops = Ok (JObj (specApplyOps os ms)).
Proof.
  induction ops as [|op rest IH]; intros os ms Hr Hin; cbn [readOps] in Hr.
  - injection Hr as <-. reflexivity.
  - destruct (Patch.readOp op) as [o| |] eqn:Eo; cbn [rbind] in Hr; try discriminate.
    destruct (readOps rest) as [os'| |] eqn:Er; cbn [rbind] in Hr; try discriminate.
    injection Hr as <-. cbn [allInside] in Hin.
    destruct Hin as ((_ & Hown & Hobj & Hk) & Hrest).
    cbn [Patch.applyOps specApplyOps].
    rewrite (applyOp_specApplyOp ms op o Eo Hown Hobj Hk). cbn [rbind].
    now apply IH.
Qed.

(** Operations are applied one after the other, in the order of the
    document. *)
Lemma applyOps_app (doc : json) (ops1 ops2 : list json) :
  Patch.applyOps doc (ops1 ++ ops2)
  = rbind (Patch.applyOps doc ops1) (fun d => Patch.applyOps d ops2).
Proof.
  revert doc. induction ops1 as [|op rest IH]; intros doc; [reflexivity|].
  cbn [app Patch.applyOps]. destruct (Patch.applyOp doc op); cbn [rbind]; auto.
Qed.

(** What the walk of the specification leaves at the pointer. *)
Lemma getPath_specWalk_set (segments : list string) (k : string) (v : json) :
  forall ms,
    getPath (segments ++ [k]) (JObj (specWalk (assocSet k v) segments ms)) = Some v.
Proof.
  induction segments as [|s rest IH]; intros ms; cbn [app getPath specWalk].
  - now rewrite assocGet_assocSet.
  - rewrite assocGet_assocSet. apply IH.
Qed.

Lemma getPath_specWalk_remove (segments : list string) (k : string) :
  forall ms,
    getPath (segments ++ [k]) (JObj (specWalk (assocDel k) segments ms)) = None.
Proof.
  induction segments as [|s rest IH]; intros ms; cbn [app getPath specWalk].
  - now rewrite assocGet_assocDel.
  - rewrite assocGet_assocSet. apply IH.
Qed.

Lemma getPath_specWalk_intermediate (edit : list (string * json) -> list (string * json))
    (segments : list string) :
  forall ms, exists ms', getPath segments (JObj (specWalk edit segments ms)) = Some (JObj ms').
Proof.
  induction segments as [|s rest IH]; intros ms; cbn [getPath specWalk].
  - eauto.
  - rewrite assocGet_assocSet. apply IH.
Qed.

Lemma parts_removelast_lastKey (parts : list string) :
  parts <> [] -> removelast parts ++ [Patch.lastKey parts] = parts.
Proof.
  induction parts as [|x [|y l] IH]; intros Hne; [congruence|reflexivity|].
  change (removelast (x :: y :: l)) with (x :: removelast (y :: l)).
  change (Patch.lastKey (x :: y :: l)) with (Patch.lastKey (y :: l)).
  cbn [app]. f_equal. apply IH. discriminate.
Qed.

Lemma getPath_empty_object (segments : list string) :
  segments <> [] -> getPath segments (JObj []) = None.
Proof. now destruct segments. Qed.

(** A walk that edits nothing leaves what the pointer leads to. *)
Lemma getPath_specWalk_other (segments : list string) (k : string) :
  forall ms,
    objectsAlong segments ms ->
    getPath (segments ++ [k]) (JObj (specWalk (fun m => m) segments ms))
    = getPath (segments ++ [k]) (JObj ms).
Proof.
  induction segments as [|s rest IH]; intros ms Hobj; [reflexivity|].
  cbn [app getPath specWalk]. cbn [objectsAlong] in Hobj.
  rewrite assocGet_assocSet.
  destruct (assocGet s ms) as [child|] eqn:Eg.
  - destruct child as [| | | | | |cms]; try contradiction. now apply IH.
  - rewrite IH by (destruct rest; exact I).
    apply getPath_empty_object. now destruct rest.
Qed.

(** What [patchJsonFile] does when both files are read and the patch
    loop ends well. *)
Lemma patchJsonFile_patched (h : Host) (targetFile patchFile targetText patchText : string)
    (targetJson patchJson patched : json) (w : World h) :
  existsSync h (fs w) targetFile = true ->
  readFileSync h (fs w) targetFile = Ok targetText ->
  JSON_parse h targetText = Ok targetJson ->
  readFileSync h (fs w) patchFile = Ok patchText ->
  JSON_parse h patchText = Ok patchJson ->
  Patch.applyPatch targetJson patchJson = Ok patched ->
  patchJsonFile h targetFile patchFile w
  = fsMutate (fun f => writeFileSync h f targetFile (JSON_stringify h patched))
             (FsWrite targetFile) w.
Proof.
  intros Hex Ht Htj Hp Hpj Hpatch.
  unfold patchJsonFile, bind, getFs, ret, lift.
  rewrite Hex. cbn [negb]. rewrite Ht, Htj, Hp, Hpj, Hpatch. reflexivity.
Qed.

(** The claim C7 makes fails of [patchJsonFile] on three counts.  An
    operation of an unrecognised kind is not ignored: its intermediate
    segments are created.  An add whose last intermediate segment holds a
    number sets nothing.  And an operation that has a segment to walk
    below a number creates no object there: the call raises and the file
    is left as it was. *)
Lemma json_patch_unrecognised_counterexample :
  let disk (target patch : string) : TestHost.disk :=
    {[ "/work" := TestHost.DirNode;
       "/work/app.json" := TestHost.FileNode (jsonText target);
       "/work/app.json.patch" := TestHost.FileNode (jsonText patch) ]} in
  let run (target patch : string) :=
    patchJsonFile (testHost []) "/work/app.json" "/work/app.json.patch"
      (startWorld [] (disk target patch)) in
  let document (target patch : string) :=
    rbind (TestHost.readFile (fs (snd (run target patch))) "/work/app.json")
          TestJson.parse in
  (fst (run "{}" "[{'op':'test','path':'/q/r/x','value':1}]") = Ok tt /\
   document "{}" "[{'op':'test','path':'/q/r/x','value':1}]"
   = Ok (JObj [("q", JObj [("r", JObj [])])])) /\
  (fst (run "{'a':1}" "[{'op':'add','path':'/a/b','value':2}]") = Ok tt /\
   document "{'a':1}" "[{'op':'add','path':'/a/b','value':2}]"
   = Ok (JObj [("a", JNum 1)])) /\
  (fst (run "{'a':1}" "[{'op':'add','path':'/a/b/c','value':2}]") = Throw typeError /\
   snd (run "{'a':1}" "[{'op':'add','path':'/a/b/c','value':2}]")
   = startWorld [] (disk "{'a':1}" "[{'op':'add','path':'/a/b/c','value':2}]")).
Proof. cbv zeta. repeat split; evaluate. Qed.

(** C7, amended.  When the target file exists and holds an object, the
    patch file holds an array of operations, and the pointer of each
    operation stays in the document the operations before it have made
    (it has a segment, no intermediate segment is a name inherited from
    [Object.prototype], every intermediate segment that exists holds an
    object, and the last segment is not [__proto__]), then
    [patchJsonFile] writes to the target file the document with the
    operations applied one after the other in document order, each of
    them as follows: an empty object is created at every missing
    intermediate segment, whatever the kind of the operation; at the last
    segment add/replace set the value (whatever was there), remove
    deletes the key, and an operation of any other kind leaves what the
    pointer leads to.  Concretely, add [/a/b] 1 turns a file [{}] into
    [{a: {b: 1}}], and remove [/a/b] then turns it into [{a: {}}]. *)
Theorem json_patch_semantics (h : Host) (targetFile patchFile targetText patchText : string)
    (ms : list (string * json)) (ops : list json) (os : list Patch.operation)
    (w : World h) :
  existsSync h (fs w) targetFile = true ->
  readFileSync h (fs w) targetFile = Ok targetText ->
  JSON_parse h targetText = Ok (JObj ms) ->
  readFileSync h (fs w) patchFile = Ok patchText ->
  JSON_parse h patchText = Ok (JArr ops) ->
  readOps ops = Ok os ->
  allInside os ms ->
  patchJsonFile h targetFile patchFile w
  = fsMutate (fun f => writeFileSync h f targetFile
                         (JSON_stringify h (JObj (specApplyOps os ms))))
             (FsWrite targetFile) w /\
  (forall o members,
     staysInside o members ->
     let parts := Patch.pathParts (Patch.opPath o) in
     let after := JObj (specApplyOp o members) in
     (exists ms', getPath (removelast parts) after = Some (JObj ms')) /\
     (Patch.kind o = Patch.OpSet -> getPath parts after = Some (Patch.value o)) /\
     (Patch.kind o = Patch.OpRemove -> getPath parts after = None) /\
     (Patch.kind o = Patch.OpOther -> getPath parts after = getPath parts (JObj members))) /\
  (let d : TestHost.disk :=
     {[ "/work" := TestHost.DirNode;
        "/work/app.json" := TestHost.FileNode "{}";
        "/work/app.json.patch" :=
          TestHost.FileNode (jsonText "[{'op':'add','path':'/a/b','value':1}]");
        "/work/undo.json.patch" :=
          TestHost.FileNode (jsonText "[{'op':'remove','path':'/a/b'}]") ]} in
   let added :=
     snd (patchJsonFile (testHost []) "/work/app.json" "/work/app.json.patch"
            (startWorld [] d)) in
   let removed :=
     snd (patchJsonFile (testHost []) "/work/app.json" "/work/undo.json.patch" added) in
   rbind (TestHost.readFile (fs added) "/work/app.json") TestJson.parse
   = Ok (JObj [("a", JObj [("b", JNum 1)])]) /\
   rbind (TestHost.readFile (fs removed) "/work/app.json") TestJson.parse
   = Ok (JObj [("a", JObj [])])).
Proof.
  intros Hex Ht Htj Hp Hpj Hr Hin. split; [|split].
  - apply (patchJsonFile_patched h targetFile patchFile targetText patchText
             (JObj ms) (JArr ops)); try assumption.
    unfold Patch.applyPatch. cbn [Patch.iterate rbind].
    now apply applyOps_specApplyOps.
  - intros o members (Hne & _ & Hobj & _) parts after. subst parts after.
    unfold specApplyOp.
    set (parts := Patch.pathParts (Patch.opPath o)) in *.
    split; [apply getPath_specWalk_intermediate|].
    pose proof (parts_removelast_lastKey parts Hne) as Hparts.
    set (front := removelast parts) in *. set (k := Patch.lastKey parts) in *.
    rewrite <- Hparts.
    repeat split; intros Hk; rewrite Hk; cbn [specEdit].
    + apply getPath_specWalk_set.
    + apply getPath_specWalk_remove.
    + now apply getPath_specWalk_other.
  - cbv zeta. split; evaluate.
Qed.

Lemma json_patch_semantics_witness :
  let d : TestHost.disk :=
    {[ "/work" := TestHost.DirNode;
       "/work/app.json" := TestHost.FileNode (jsonText "{'name':'app','a':{'c':true}}");
       "/work/app.json.patch" :=
         TestHost.FileNode
           (jsonText "[{'op':'add','path':'/a/b','value':1},{'op':'remove','path':'/a/c'}]") ]} in
  allInside
    [ {| Patch.opPath := "/a/b"; Patch.kind := Patch.OpSet; Patch.value := JNum 1 |};
      {| Patch.opPath := "/a/c"; Patch.kind := Patch.OpRemove; Patch.value := JUndefined |} ]
    [("name", JStr "app"); ("a", JObj [("c", JBool true)])] /\
  rbind (TestHost.readFile
           (fs (snd (patchJsonFile (testHost []) "/work/app.json" "/work/app.json.patch"
                       (startWorld [] d))))
           "/work/app.json")
        TestJson.parse
  = Ok (JObj [("name", JStr "app"); ("a", JObj [("b", JNum 1)])]).
Proof.
  cbv zeta.
  assert (allInside
            [ {| Patch.opPath := "/a/b"; Patch.kind := Patch.OpSet; Patch.value := JNum 1 |};
              {| Patch.opPath := "/a/c"; Patch.kind := Patch.OpRemove;
                 Patch.value := JUndefined |} ]
            [("name", JStr "app"); ("a", JObj [("c", JBool true)])]) as Hin.
  { cbn [allInside]. unfold staysInside, ownNames.
    repeat split; try discriminate; try exact I;
      try (vm_compute; repeat constructor; fail). }
  split; [exact Hin|].
  match goal with |- context [patchJsonFile _ _ _ ?w] => set (w0 := w) end.
  rewrite (proj1 (json_patch_semantics (testHost []) "/work/app.json" "/work/app.json.patch"
                    (jsonText "{'name':'app','a':{'c':true}}")
                    (jsonText "[{'op':'add','path':'/a/b','value':1},{'op':'remove','path':'/a/c'}]")
                    [("name", JStr "app"); ("a", JObj [("c", JBool true)])]
                    [patchOp "add" "/a/b" (Some (JNum 1)); patchOp "remove" "/a/c" None]
                    [ {| Patch.opPath := "/a/b"; Patch.kind := Patch.OpSet;
                         Patch.value := JNum 1 |};
                      {| Patch.opPath := "/a/c"; Patch.kind := Patch.OpRemove;
                         Patch.value := JUndefined |} ]
                    w0
                    ltac:(evaluate) ltac:(evaluate) ltac:(evaluate) ltac:(evaluate)
                    ltac:(evaluate) ltac:(evaluate) Hin)).
  evaluate.
Defined.

(* ===================================================================== *)
(** ** Path traversal *)
(* ===================================================================== *)

Lemma prefix_length (q s : string) :
  String.prefix q s = true -> String.length q <= String.length s.
Proof.
  revert s. induction q as [|c q IH]; intros s; [simpl; lia|].
  destruct s as [|d s]; simpl; [discriminate|].
  destruct (ascii_dec c d); [|discriminate].
  intros H. apply IH in H. lia.
Qed.

Lemma includes_length (s sub : string) :
  JS.includes s sub = true -> String.length sub <= String.length s.
Proof.
  induction s as [|c r IH]; cbn [JS.includes]; intros H.
  - apply orb_true_iff in H as [H|H]; [now apply prefix_length|discriminate].
  - apply orb_true_iff in H as [H|H]; [now apply prefix_length|].
    apply IH in H. simpl. lia.
Qed.

Lemma includes_dotdot_long (s : string) :
  JS.includes s ".." = true -> String.eqb s "." = false /\ JS.isEmpty s = false.
Proof.
  intros H. apply includes_length in H.
  destruct s as [|c [|d r]]; simpl in H; try lia.
  split; [|reflexivity].
  apply String.eqb_neq. discriminate.
Qed.

(** A hint in which [..] occurs is turned down before anything is
    searched for. *)
Lemma resolveBasePath_traversal (h : Host) (p : Process) (f : FS h)
    (to exSuffix : string) :
  JS.includes to ".." = true ->
  resolveBasePath h p f (Some to) exSuffix
  = Throw ("Invalid location '" +:+ to +:+ "'" +:+ exSuffix).
Proof.
  intros Hin. unfold resolveBasePath.
  destruct (includes_dotdot_long to Hin) as [-> ->]. cbn [orb]. now rewrite Hin.
Qed.

Section Traversal.

Context (h : Host) (p : Process) (ss : Session).
Context (f : FS h) (gistAlias : string) (to projName : option string) (url : string).

Lemma resolveEntry_traversal (acc : list ResolvedFile * option string)
    (fileName fileContent : string) :
  JS.includes fileName ".." = true ->
  resolveEntry h p ss f gistAlias to projName url acc (fileName, fileContent)
  = Throw ("Invalid file name '" +:+ fileName +:+ "' from '" +:+ url +:+ "'").
Proof. intros Hin. unfold resolveEntry. destruct acc. now rewrite Hin. Qed.

Lemma resolveEntries_app (acc : list ResolvedFile * option string) (pre post : Bundle) :
  resolveEntries h p ss f gistAlias to projName url acc (pre ++ post)
  = rbind (resolveEntries h p ss f gistAlias to projName url acc pre)
          (fun acc' => resolveEntries h p ss f gistAlias to projName url acc' post).
Proof.
  revert acc. induction pre as [|entry rest IH]; intros acc; [reflexivity|].
  cbn [app resolveEntries].
  destruct (resolveEntry h p ss f gistAlias to projName url acc entry); cbn [rbind]; auto.
Qed.

Lemma resolveEntries_traversal (files : Bundle) (fileName fileContent : string) :
  In (fileName, fileContent) files -> JS.includes fileName ".." = true ->
  forall acc, isOk (resolveEntries h p ss f gistAlias to projName url acc files) = false.
Proof.
  intros Hin Hdots. induction files as [|entry rest IH]; intros acc; [contradiction|].
  cbn [resolveEntries]. destruct Hin as [->|Hin].
  - now rewrite resolveEntry_traversal.
  - destruct (resolveEntry h p ss f gistAlias to projName url acc entry);
      cbn [rbind isOk]; auto.
Qed.

End Traversal.

(** Fetching a bundle touches the cache only. *)
Lemma getGistFiles_outside (h : Host) (gistIdOrUrl : string) (w w' : World h)
    (r : result (Bundle * string)) :
  getGistFiles h gistIdOrUrl w = (r, w') -> sameOutside w w'.
Proof.
  unfold getGistFiles, sameOutside.
  destruct (assocGet gistIdOrUrl (gistFilesCache w)); [now intros [= <- <-]|].
  destruct (gistRoute gistIdOrUrl) as [[[route gistRef] gistUrl]|msg0|why0];
    destruct (fetchGistFiles h gistIdOrUrl) as [[files url]|msg|why];
    now intros [= <- <-].
Qed.

(** C1.  A location hint in which [..] occurs makes [resolveBasePath]
    raise the traversal error, whatever else the hint holds and whatever
    is on the file system.  A bundle file name in which [..] occurs makes
    the loop body of [writeGistFile] raise before it resolves anything;
    [writeGistFile] then does not complete and leaves the file system,
    the terminal and the trace as they were (no file written, no command
    run), and the error is the one for that file name when the entries
    before it resolved. *)
Theorem traversal_rejected (h : Host) (p : Process) (ss : Session) :
  (forall f to exSuffix,
     JS.includes to ".." = true ->
     resolveBasePath h p f (Some to) exSuffix
     = Throw ("Invalid location '" +:+ to +:+ "'" +:+ exSuffix)) /\
  (forall f gistAlias to projName url acc fileName fileContent,
     JS.includes fileName ".." = true ->
     resolveEntry h p ss f gistAlias to projName url acc (fileName, fileContent)
     = Throw ("Invalid file name '" +:+ fileName +:+ "' from '" +:+ url +:+ "'")) /\
  (forall gistIdOrUrl gistAlias to projName w w0 files url fileName fileContent,
     getGistFiles h gistIdOrUrl w = (Ok (files, url), w0) ->
     In (fileName, fileContent) files ->
     JS.includes fileName ".." = true ->
     sameOutside w w0 /\
     (exists r,
        writeGistFile h p ss gistIdOrUrl gistAlias to projName w = (r, w0) /\
        isOk r = false) /\
     (forall pre post acc,
        files = pre ++ (fileName, fileContent) :: post ->
        resolveEntries h p ss (fs w0) gistAlias to (sanitizeProjectName projName) url
          ([], None) pre = Ok acc ->
        writeGistFile h p ss gistIdOrUrl gistAlias to projName w
        = (Throw ("Invalid file name '" +:+ fileName +:+ "' from '" +:+ url +:+ "'"), w0))).
Proof.
  split; [intros; now apply resolveBasePath_traversal|].
  split; [intros; now apply resolveEntry_traversal|].
  intros gistIdOrUrl gistAlias to projName w w0 files url fileName fileContent
    Hget Hin Hdots.
  split; [now apply (getGistFiles_outside h gistIdOrUrl w w0 _ Hget)|].
  split.
  - unfold writeGistFile. unfold bind at 1. rewrite Hget.
    unfold bind, lift, getFs.
    pose proof (resolveEntries_traversal h p ss (fs w0) gistAlias to
                  (sanitizeProjectName projName) url files fileName fileContent
                  Hin Hdots ([], None)) as Hno.
    destruct (resolveEntries _ _ _ _ _ _ _ _ _ files) as [[rf init]|msg|why];
      [discriminate| |]; eexists; split; reflexivity.
  - intros pre post acc -> Hpre.
    unfold writeGistFile. unfold bind at 1. rewrite Hget.
    unfold bind, lift, getFs.
    rewrite resolveEntries_app, Hpre. cbn [rbind resolveEntries].
    now rewrite resolveEntry_traversal.
Qed.

Lemma traversal_rejected_witness :
  resolveBasePath (testHost []) posix ∅ (Some "src/../../etc") " required by 'x' u"
  = Throw "Invalid location 'src/../../etc' required by 'x' u" /\
  (let net := [("https://api.github.com/gists/abc",
                gistResponse [("README.md", "hello"); ("../outside.txt", "data")])] in
   let w := startWorld net {[ "/work" := TestHost.DirNode ]} in
   exists w0,
     sameOutside w w0 /\
     writeGistFile (testHost net) posix quiet "abc" "abc" (Some ".") (Some "Acme") w
     = (Throw "Invalid file name '../outside.txt' from 'https://gist.github.com/abc'", w0)).
Proof.
  split.
  - apply (traversal_rejected (testHost []) posix quiet). reflexivity.
  - cbv zeta.
    set (net := [("https://api.github.com/gists/abc",
                  gistResponse [("README.md", "hello"); ("../outside.txt", "data")])]).
    destruct (traversal_rejected (testHost net) posix quiet) as (_ & _ & Hrun).
    destruct (Hrun "abc" "abc" (Some ".") (Some "Acme")
                (startWorld net {[ "/work" := TestHost.DirNode ]})
                (snd (getGistFiles (testHost net) "abc"
                        (startWorld net {[ "/work" := TestHost.DirNode ]})))
                [("README.md", "hello"); ("../outside.txt", "data")]
                "https://gist.github.com/abc" "../outside.txt" "data")
      as (Hsame & _ & Hmsg).
    + evaluate.
    + right. left. reflexivity.
    + reflexivity.
    + eexists. split; [exact Hsame|].
      eapply (Hmsg [("README.md", "hello")] []).
      * reflexivity.
      * vm_compute. reflexivity.
Defined.

(* ===================================================================== *)
(** ** The JSON patch step of the write loop *)
(* ===================================================================== *)

Lemma take_drop_append (n : nat) (s : string) : JS.take n s +:+ JS.drop n s = s.
Proof.
  revert s. induction n as [|n IH]; intros s; [now destruct s|].
  destruct s as [|c r]; [reflexivity|].
  change (String c (JS.take n r +:+ JS.drop n r) = String c r). f_equal. apply IH.
Qed.

Lemma drop_drop (n m : nat) (s : string) : JS.drop n (JS.drop m s) = JS.drop (m + n) s.
Proof.
  revert s. induction m as [|m IH]; intros s.
  - now destruct s, n.
  - destruct s as [|c r]; [now destruct n|]. exact (IH r).
Qed.

Lemma append_cancel_r (a b c : string) : a +:+ c = b +:+ c -> a = b.
Proof.
  intros E.
  assert (String.length a = String.length b) as Hl.
  { apply (f_equal String.length) in E. rewrite !length_append in E. lia. }
  revert b E Hl. induction a as [|x a IH]; intros [|y b] E Hl; simpl in Hl;
    try discriminate; [reflexivity|].
  rewrite !append_cons in E. injection E as -> E. f_equal. apply IH; [assumption|lia].
Qed.

(** The target of a patch file is its path without the [.patch] at the
    end. *)
Lemma patch_target_path (filePath : string) :
  JS.endsWith filePath ".json.patch" = true ->
  filePath = JS.dropLast 6 filePath +:+ ".patch" /\
  JS.endsWith (JS.dropLast 6 filePath) ".json" = true.
Proof.
  unfold JS.endsWith, JS.dropLast.
  change (String.length ".json.patch") with 11. change (String.length ".json") with 5.
  intros H. apply andb_true_iff in H as [Hlen Heq].
  apply Nat.leb_le in Hlen. apply String.eqb_eq in Heq.
  set (n := String.length filePath) in *.
  assert (JS.drop (n - 6) filePath = ".patch") as Htail.
  { replace (n - 6) with ((n - 11) + 5) by lia.
    rewrite <- drop_drop, Heq. reflexivity. }
  split.
  - rewrite <- Htail. symmetry. apply take_drop_append.
  - assert (String.length (JS.take (n - 6) filePath) = n - 6) as Hl.
    { pose proof (take_drop_append (n - 6) filePath) as E.
      apply (f_equal String.length) in E.
      rewrite length_append, Htail in E. cbn in E. fold n in E. lia. }
    rewrite Hl. apply andb_true_iff. split; [apply Nat.leb_le; lia|].
    apply String.eqb_eq.
    assert (JS.take (n - 6) filePath +:+ ".patch"
            = JS.take (n - 11) filePath +:+ ".json" +:+ ".patch") as E.
    { rewrite <- Htail at 1. rewrite take_drop_append.
      change (".json" +:+ ".patch") with ".json.patch".
      rewrite <- Heq. symmetry. apply take_drop_append. }
    assert (JS.take (n - 6) filePath = JS.take (n - 11) filePath +:+ ".json") as E'.
    { apply (append_cancel_r _ _ ".patch").
      rewrite E. symmetry. apply append_assoc'. }
    rewrite E'.
    replace (n - 6 - 5) with (String.length (JS.take (n - 11) filePath)).
    + clear. induction (JS.take (n - 11) filePath) as [|c r IH]; [reflexivity|exact IH].
    + pose proof (take_drop_append (n - 11) filePath) as E2.
      apply (f_equal String.length) in E2.
      rewrite length_append, Heq in E2. cbn in E2. fold n in E2. lia.
Qed.

Lemma eventsSince_same {h} (w : World h) : eventsSince w w = [].
Proof. unfold eventsSince. apply drop_all. Qed.

(** C8.  Once a file whose path ends in [.json.patch] has been written
    (the world is then [w1]), with [patchTarget] that path without its
    [.patch]:
    - when the target does not exist, nothing more happens: the loop body
      ends in the world [w1], in which the patch file is as written;
    - when the target exists, [patchJsonFile] is run on it and, when that
      completes, the patch file is unlinked;
    - the patch file is unlinked, or the target rewritten, only when the
      target existed. *)
Theorem patch_step_guard (h : Host) (file : ResolvedFile) (w w1 : World h)
    (filePath : string) :
  String.eqb (originalName file) "_init" = false ->
  writeStep h file w = (Ok filePath, w1) ->
  JS.endsWith filePath ".json.patch" = true ->
  let patchTarget := JS.dropLast 6 filePath in
  filePath = patchTarget +:+ ".patch" /\
  (existsSync h (fs w1) patchTarget = false ->
   writeResolved h file w = (Ok tt, w1)) /\
  (existsSync h (fs w1) patchTarget = true ->
   forall w2 f3,
     patchJsonFile h patchTarget filePath
       (logged w1 (Log ("Patching " +:+ patchTarget +:+ "..."))) = (Ok tt, w2) ->
     unlinkSync h (fs w2) filePath = Ok f3 ->
     writeResolved h file w = (Ok tt, logged (withFs f3 w2) (FsUnlink filePath))) /\
  (forall r w',
     writeResolved h file w = (r, w') ->
     In (FsUnlink filePath) (eventsSince w1 w')
     \/ In (FsWrite patchTarget) (eventsSince w1 w') ->
     existsSync h (fs w1) patchTarget = true).
Proof.
  intros Hinit Hwrite Hends patchTarget.
  split; [apply patch_target_path, Hends|].
  assert (writeResolved h file w
          = if existsSync h (fs w1) patchTarget
            then bind (patchJsonFile h patchTarget filePath)
                      (fun _ => fsMutate (fun f => unlinkSync h f filePath)
                                         (FsUnlink filePath))
                      (logged w1 (Log ("Patching " +:+ patchTarget +:+ "...")))
            else (Ok tt, w1)) as Hbody.
  { unfold writeResolved. rewrite Hinit. unfold bind at 1. rewrite Hwrite.
    unfold patchStep. rewrite Hends. fold patchTarget.
    unfold bind at 1, getFs. cbv beta iota.
    destruct (existsSync h (fs w1) patchTarget); reflexivity. }
  rewrite Hbody.
  destruct (existsSync h (fs w1) patchTarget) eqn:Eex.
  - split; [discriminate|]. split; [|reflexivity].
    intros _ w2 f3 Hpatch Hunlink.
    unfold bind. rewrite Hpatch. unfold fsMutate. now rewrite Hunlink.
  - split; [reflexivity|]. split; [discriminate|].
    intros r w' [= <- <-]. rewrite eventsSince_same. intros [[]|[]].
Qed.

Lemma patch_step_guard_witness :
  (let w := startWorld [] diskWithoutTarget in
   let w1 := snd (writeStep (testHost []) examplePatchFile w) in
   writeResolved (testHost []) examplePatchFile w = (Ok tt, w1) /\
   TestHost.exists_ (fs w1) "/work/app.json.patch" = true /\
   TestHost.exists_ (fs w1) "/work/app.json" = false) /\
  (let w := startWorld [] diskWithTarget in
   exists w3,
     writeResolved (testHost []) examplePatchFile w = (Ok tt, w3) /\
     TestHost.exists_ (fs w3) "/work/app.json.patch" = false /\
     rbind (TestHost.readFile (fs w3) "/work/app.json") TestJson.parse
     = Ok (JObj [("a", JObj [("b", JNum 1)])])).
Proof.
  split.
  - cbv zeta.
    destruct (patch_step_guard (testHost []) examplePatchFile
                (startWorld [] diskWithoutTarget)
                (snd (writeStep (testHost []) examplePatchFile
                        (startWorld [] diskWithoutTarget)))
                "/work/app.json.patch") as (_ & Hskip & _).
    + reflexivity.
    + evaluate.
    + reflexivity.
    + split; [apply Hskip; evaluate|].
      split; evaluate.
  - cbv zeta.
    destruct (patch_step_guard (testHost []) examplePatchFile
                (startWorld [] diskWithTarget)
                (snd (writeStep (testHost []) examplePatchFile
                        (startWorld [] diskWithTarget)))
                "/work/app.json.patch") as (_ & _ & Hrun & _).
    + reflexivity.
    + evaluate.
    + reflexivity.
    + exists (snd (writeResolved (testHost []) examplePatchFile
                     (startWorld [] diskWithTarget))).
      split.
      * apply Hrun; evaluate.
      * split; evaluate.
Defined.

(* ===================================================================== *)
(** ** Delete pipeline *)
(* ===================================================================== *)

Section DeleteNothing.

Context (h : Host) (p : Process) (ss : Session).

Lemma existingFiles_none (f : FS h) (files : Bundle) (basePath : string)
    (projName to : option string) :
  Forall (fun entry : string * string =>
            existsSync h f (resolveFilePath h p ss f (fst entry) basePath projName to)
            = false) files ->
  existingFiles h p ss f files basePath projName to = [].
Proof.
  unfold existingFiles. induction 1 as [|entry rest Hentry _ IH]; [reflexivity|].
  cbn [map]. rewrite filter_cons, IH.
  destruct (decide _) as [Hyes|_]; [|reflexivity].
  rewrite Hentry in Hyes. contradiction.
Qed.

Lemma sameOutside_refl (w : World h) : sameOutside w w.
Proof. repeat split. Qed.

Lemma sameOutside_trans (w1 w2 w3 : World h) :
  sameOutside w1 w2 -> sameOutside w2 w3 -> sameOutside w1 w3.
Proof. unfold sameOutside. intros (-> & -> & ->) (-> & -> & ->). repeat split. Qed.

Lemma lookupBundle_outside (links : list Registry.LinkRecord) (gistAlias : string)
    (w w' : World h) (r : result (option (Bundle * string * option string))) :
  lookupBundle h links gistAlias w = (r, w') -> sameOutside w w'.
Proof.
  unfold lookupBundle.
  destruct (isGistId gistAlias || JS.startsWith gistAlias "https://"
            || JS.startsWith gistAlias "http://").
  - unfold bind.
    destruct (getGistFiles h gistAlias w) as [[[files url]|msg|why] w1] eqn:E;
      intros [= <- <-]; exact (getGistFiles_outside h _ _ _ _ E).
  - destruct (findGistLink links gistAlias) as [gistLink|];
      [|intros [= <- <-]; apply sameOutside_refl].
    unfold bind.
    destruct (getGistFiles h _ w) as [[[files url]|msg|why] w1] eqn:E;
      intros [= <- <-]; exact (getGistFiles_outside h _ _ _ _ E).
Qed.

Lemma getGistApplyLinks_outside (w w' : World h)
    (r : result (list Registry.LinkRecord)) :
  getGistApplyLinks h ss w = (r, w') -> sameOutside w w'.
Proof.
  unfold getGistApplyLinks.
  destruct (assocGet _ (gistLinksCache w)); [intros [= <- <-]; apply sameOutside_refl|].
  unfold bind.
  destruct (getGistFiles h (gistLinksId ss) w) as [[[files url]|msg|why] w1] eqn:E;
    try (intros [= <- <-]; exact (getGistFiles_outside h _ _ _ _ E)).
  pose proof (getGistFiles_outside h _ _ _ _ E) as Hsame.
  destruct (assocGet "mix.md" files) as [mixMd|];
    [|intros [= <- <-]; exact Hsame].
  destruct (JS.isEmpty mixMd); intros [= <- <-]; [exact Hsame|].
  destruct Hsame as (Hf & Hs & Ht). repeat split; assumption.
Qed.

(** When nothing of the batch exists, the first loop goes through every
    alias and gathers nothing. *)
Lemma gather_nothing (links : list Registry.LinkRecord)
    (projName : option string) (aliases : list string) :
  forall (w : World h) acc,
    batchMissing h p ss links projName aliases w ->
    exists w',
      gather h p ss links projName acc aliases w = (Ok (GatheredAll acc), w') /\
      sameOutside w w'.
Proof.
  induction aliases as [|gistAlias rest IH]; intros w acc Hmiss.
  - exists w. split; [reflexivity|apply sameOutside_refl].
  - destruct Hmiss as (files & url & to & basePath & w1 & Hlook & Hbase & Hnone & Hrest).
    destruct (IH w1 acc Hrest) as (w' & Hg & Hsame).
    exists w'. split.
    + cbn [gather]. unfold bind at 1. rewrite Hlook.
      unfold bind at 1, getFs. unfold bind at 1, lift. rewrite Hbase.
      rewrite (existingFiles_none (fs w1) files basePath projName to Hnone).
      cbn [length Nat.ltb Nat.leb]. rewrite app_nil_r.
      rewrite <- Hg. now destruct acc.
    + apply (sameOutside_trans w w1 w'); [|assumption].
      exact (lookupBundle_outside links gistAlias w w1 _ Hlook).
Qed.

End DeleteNothing.

(** C9.  When every alias of a delete batch resolves and none of the
    resolved destination paths exists, [deleteGists] returns [false]
    after reporting that it found no files to delete: the file system is
    the one it started from, and the one event added to the trace is that
    report, so nothing is unlinked and no directory is removed. *)
Theorem delete_nothing_found (h : Host) (p : Process) (ss : Session)
    (tool : string) (gistAliases : list string) (projName : option string)
    (w w0 : World h) (links : list Registry.LinkRecord) :
  getGistApplyLinks h ss w = (Ok links, w0) ->
  batchMissing h p ss links (defaultProjectName h p projName)
    (map (resolveAlias links) gistAliases) w0 ->
  let report :=
    Log ("Did not find any existing files from '" +:+ JS.join "," gistAliases
         +:+ "' to delete") in
  (exists w',
     deleteGists h p ss tool gistAliases projName w = (Ok false, logged w' report) /\
     sameOutside w w') /\
  fs (snd (deleteGists h p ss tool gistAliases projName w)) = fs w /\
  eventsSince w (snd (deleteGists h p ss tool gistAliases projName w)) = [report] /\
  Forall (fun e => isMutation e = false)
         (eventsSince w (snd (deleteGists h p ss tool gistAliases projName w))).
Proof.
  intros Hlinks Hmiss report.
  destruct (gather_nothing h p ss links _ _ w0
              {| allResolvedFiles := []; output := EmptyString |} Hmiss)
    as (w' & Hg & Hsame').
  assert (sameOutside w w') as Hsame.
  { apply (sameOutside_trans h w w0 w'); [|assumption].
    exact (getGistApplyLinks_outside h ss w w0 _ Hlinks). }
  assert (deleteGists h p ss tool gistAliases projName w = (Ok false, logged w' report))
    as Hrun.
  { unfold deleteGists. unfold bind at 1. rewrite Hlinks.
    unfold bind at 1. rewrite Hg. reflexivity. }
  rewrite Hrun. cbn [snd].
  destruct Hsame as (Hf & Hs & Ht).
  assert (eventsSince w (logged w' report) = [report]) as Hev.
  { unfold eventsSince, logged. cbn [trace]. rewrite Ht. now rewrite drop_app_length. }
  rewrite Hev. split; [exists w'; repeat split; assumption|].
  split; [exact Hf|]. split; [reflexivity|]. repeat constructor.
Qed.

Lemma delete_nothing_found_witness :
  let w := startWorld exampleNetwork diskWithoutTarget in
  exists w',
    deleteGists (testHost exampleNetwork) posix quiet "add-in" ["redis"] (Some "Acme") w
    = (Ok false, logged w' (Log "Did not find any existing files from 'redis' to delete")) /\
    sameOutside w w'.
Proof.
  cbv zeta.
  destruct (delete_nothing_found (testHost exampleNetwork) posix quiet "add-in" ["redis"]
              (Some "Acme") (startWorld exampleNetwork diskWithoutTarget)
              (snd (getGistApplyLinks (testHost exampleNetwork) quiet
                      (startWorld exampleNetwork diskWithoutTarget)))
              exampleLinks)
    as (Hrun & _).
  - evaluate.
  - change (map (resolveAlias exampleLinks) ["redis"]) with ["redis"].
    cbn [batchMissing].
    exists [("Configure.Redis.cs", "namespace MyApp;"); ("MyApp/Redis.md", "notes")],
           "https://gist.github.com/gistlyn/abc", (Some "."), "/work".
    exists (snd (lookupBundle (testHost exampleNetwork) exampleLinks "redis"
                   (snd (getGistApplyLinks (testHost exampleNetwork) quiet
                           (startWorld exampleNetwork diskWithoutTarget))))).
    split; [evaluate|].
    split; [evaluate|].
    split; [|exact I].
    repeat (apply List.Forall_cons; [evaluate|]). apply List.Forall_nil.
  - exact Hrun.
Defined.

(* ===================================================================== *)
(** * Further properties of the engine *)
(* ===================================================================== *)

(** ** Case conversion and the project-name transforms *)

Lemma lowerChar_not_upper (c : ascii) : JS.isUpperAZ (JS.lowerChar c) = false.
Proof. destruct c as [[] [] [] [] [] [] [] []]; vm_compute; reflexivity. Qed.

Lemma toLowerCase_no_upper (s : string) :
  JS.anyChar JS.isUpperAZ (JS.toLowerCase s) = false.
Proof.
  induction s as [|c r IH]; [reflexivity|].
  cbn [JS.toLowerCase JS.mapChars JS.anyChar].
  rewrite lowerChar_not_upper. exact IH.
Qed.

Lemma lowerChar_lowerChar (c : ascii) : JS.lowerChar (JS.lowerChar c) = JS.lowerChar c.
Proof. destruct c as [[] [] [] [] [] [] [] []]; vm_compute; reflexivity. Qed.

Lemma toLowerCase_toLowerCase (s : string) :
  JS.toLowerCase (JS.toLowerCase s) = JS.toLowerCase s.
Proof.
  induction s as [|c r IH]; [reflexivity|].
  cbn [JS.toLowerCase JS.mapChars]. rewrite lowerChar_lowerChar. f_equal. exact IH.
Qed.

Lemma hyphenate_fixed (s : string) :
  JS.anyChar JS.isUpperAZ s = false -> hyphenate s = s.
Proof.
  induction s as [|a s' IH]; [reflexivity|].
  cbn [JS.anyChar]. intros H. apply orb_false_iff in H as [Ha Hs].
  destruct s' as [|b r]; [reflexivity|].
  cbn [hyphenate]. cbn [JS.anyChar] in Hs.
  apply orb_false_iff in Hs as [Hb Hr].
  rewrite Hb, andb_false_r. f_equal. apply IH.
  cbn [JS.anyChar]. now rewrite Hb, Hr.
Qed.

(** X1.  The kebab form of a name holds no upper-case letter, and taking the
    kebab form of a kebab form changes nothing. *)
Theorem camelToKebab_idempotent (s : string) :
  JS.anyChar JS.isUpperAZ (camelToKebab s) = false /\
  camelToKebab (camelToKebab s) = camelToKebab s.
Proof.
  assert (JS.anyChar JS.isUpperAZ (camelToKebab s) = false) as Hlow
    by apply toLowerCase_no_upper.
  split; [exact Hlow|].
  unfold camelToKebab at 1.
  rewrite (hyphenate_fixed _ Hlow). apply toLowerCase_toLowerCase.
Qed.






(** A no-break space at the head of a name is a blank: it is trimmed away,
    and the name does not come back. *)
Example splitPascalCase_no_break_space :
  let name := String "160"%char "Ab" in
  JS.anyChar JS.isSpace name = true /\
  splitPascalCase name = "Ab" /\
  JS.removeChar (Ascii.eqb " "%char) (splitPascalCase name) <> name.
Proof. repeat split. discriminate. Qed.

(** ** Project-name sanitisation, again *)

Lemma sanitize_separatorFree (name r : string) :
  sanitizeProjectName (Some name) = Some r -> separatorFree r.
Proof.
  unfold sanitizeProjectName. destruct (JS.isEmpty name); [discriminate|].
  destruct (negb (existsb _ sepChars)) eqn:E; intros [= <-].
  - apply negb_true_iff in E. unfold separatorFree. apply Forall_forall.
    intros c Hc. apply list_elem_of_In in Hc.
    destruct (JS.includes name (String c EmptyString)) eqn:Ei; [|reflexivity].
    assert (existsb (fun c => JS.includes name (String c EmptyString)) sepChars = true)
      as Hex by (apply existsb_exists; eauto).
    congruence.
  - apply isSep_separatorFree, join_empty_clean.
    apply Forall_forall. intros w Hw.
    apply list_elem_of_In, in_map_iff in Hw as (w0 & <- & Hw0).
    apply titleCase_clean.
    apply list_elem_of_In, list_elem_of_filter in Hw0 as [_ Hw0].
    pose proof (splitClass_clean isSep name) as Hall.
    rewrite Forall_forall in Hall. now apply Hall.
Qed.

(** X3.  Sanitising a sanitised name changes nothing: a result that is not
    the empty string is returned as it is. *)
Theorem sanitizeProjectName_idempotent (name r : string) :
  sanitizeProjectName (Some name) = Some r ->
  r <> EmptyString ->
  sanitizeProjectName (Some r) = Some r.
Proof.
  intros Hs Hne. apply sanitize_separatorFree in Hs.
  unfold sanitizeProjectName. destruct r as [|c r]; [congruence|].
  cbn [JS.isEmpty].
  assert (existsb (fun d => JS.includes (String c r) (String d EmptyString)) sepChars
          = false) as Hno.
  { destruct (existsb _ sepChars) eqn:E; [|reflexivity].
    apply existsb_exists in E as (d & Hd & Hin).
    unfold separatorFree in Hs. rewrite Forall_forall in Hs.
    rewrite (Hs d) in Hin by now apply list_elem_of_In. discriminate. }
  now rewrite Hno.
Qed.

Lemma sanitizeProjectName_idempotent_witness :
  sanitizeProjectName (Some "MyCoolApp") = Some "MyCoolApp".
Proof.
  apply (sanitizeProjectName_idempotent "my cool-app" "MyCoolApp");
    [reflexivity|discriminate].
Defined.

(** A name made of separators only is sanitised to the empty string, and
    the empty string to null. *)
Example sanitizeProjectName_separators_only :
  sanitizeProjectName (Some "-_ +") = Some EmptyString /\
  sanitizeProjectName (Some EmptyString) = None.
Proof. split; reflexivity. Qed.

(** ** Content that substitution leaves alone *)

Lemma includes_empty (s : string) : JS.includes s EmptyString = true.
Proof. now destruct s. Qed.

Lemma splitAux_absent (sep s : string) :
  JS.includes s sep = false -> JS.splitAux sep 0 s = (s, []).
Proof.
  induction s as [|c r IH]; [reflexivity|].
  cbn [JS.includes]. intros H. apply orb_false_iff in H as [Hp Hr].
  cbn [JS.splitAux]. rewrite Hp, (IH Hr). reflexivity.
Qed.

Lemma split_absent (sep s : string) :
  JS.includes s sep = false -> JS.split sep s = [s].
Proof.
  intros H. unfold JS.split.
  destruct sep as [|c sep]; [now rewrite includes_empty in H|].
  cbn [JS.isEmpty]. now rewrite splitAux_absent.
Qed.

Lemma applyReplaceTokens_absent (tokens : list (string * string)) (s : string) :
  termsAbsent tokens s -> applyReplaceTokens tokens s = s.
Proof.
  unfold applyReplaceTokens, termsAbsent.
  induction 1 as [|[term repl] rest Hterm _ IH]; [reflexivity|].
  cbn [fold_left fst snd]. cbn [fst] in Hterm.
  rewrite (split_absent term s Hterm). exact IH.
Qed.

Lemma removeChar_absent (P : ascii -> bool) (s : string) :
  JS.anyChar P s = false -> JS.removeChar P s = s.
Proof.
  induction s as [|c r IH]; [reflexivity|].
  cbn [JS.anyChar JS.removeChar]. intros H. apply orb_false_iff in H as [-> Hr].
  f_equal. now apply IH.
Qed.

(** X4.  Content in which no placeholder spelling, no carriage return and no
    custom term occurs comes out of [replaceMyApp] as it went in,
    whatever the project name. *)
Theorem replaceMyApp_passthrough (p : Process) (ss : Session)
    (input : string) (projName : option string) :
  placeholderFree input ->
  JS.includes input carriageReturn = false ->
  termsAbsent (replaceTokens ss) input ->
  replaceMyApp p ss input projName = input.
Proof.
  intros Hph Hcr Htok. unfold replaceMyApp.
  destruct projName as [pn|]; [|reflexivity].
  destruct (JS.isEmpty input || JS.isEmpty pn); [reflexivity|].
  rewrite (replacePlaceholders_fixed input pn Hph).
  unfold carriageReturn in Hcr. rewrite includes_single in Hcr.
  rewrite (removeChar_absent _ input Hcr).
  destruct (negb (win32 p)); now apply applyReplaceTokens_absent.
Qed.

Lemma replaceMyApp_passthrough_witness :
  replaceMyApp posix
    {| verbose := false; silent := false; forceApproval := false; preserve := false;
       outDir := None; replaceTokens := [("Acme.Core", "Contoso")];
       gistLinksId := "registry" |}
    "public class Startup {}" (Some "Acme")
  = "public class Startup {}".
Proof.
  apply replaceMyApp_passthrough.
  - unfold placeholderFree, placeholders. repeat constructor.
  - reflexivity.
  - unfold termsAbsent. repeat constructor.
Defined.

(** ** Splitting and joining *)

Lemma join_cons_char (sep : string) (c : ascii) (q : string) (qs : list string) :
  JS.join sep (String c q :: qs) = String c (JS.join sep (q :: qs)).
Proof. now destruct qs. Qed.

Lemma join_cons2 (sep q0 q : string) (qs : list string) :
  JS.join sep (q0 :: q :: qs) = q0 +:+ sep +:+ JS.join sep (q :: qs).
Proof. reflexivity. Qed.

Lemma join_splitAux (sep : string) :
  sep <> EmptyString ->
  forall s k,
    JS.join sep (fst (JS.splitAux sep k s) :: snd (JS.splitAux sep k s)) = JS.drop k s.
Proof.
  intros Hsep. induction s as [|c r IH]; intros k; [now destruct k|].
  destruct k as [|k]; cbn [JS.splitAux].
  - destruct (String.prefix sep (String c r)) eqn:Ep.
    + specialize (IH (String.length sep - 1)).
      destruct (JS.splitAux sep (String.length sep - 1) r) as [q qs].
      cbn [fst snd] in *. rewrite join_cons2, IH.
      pose proof (prefix_append sep (String c r) Ep) as E.
      destruct sep as [|d sep]; [congruence|].
      replace (String.length (String d sep) - 1) with (String.length sep)
        by (simpl; lia).
      symmetry. exact E.
    + specialize (IH 0). destruct (JS.splitAux sep 0 r) as [q qs].
      cbn [fst snd] in *. rewrite join_cons_char, IH. now destruct r.
  - exact (IH k).
Qed.

Lemma join_chars (s : string) : JS.join EmptyString (JS.chars s) = s.
Proof.
  induction s as [|c r IH]; [reflexivity|].
  cbn [JS.chars]. rewrite join_cons_char.
  destruct (JS.chars r) as [|x xs] eqn:E.
  - destruct r; [reflexivity|discriminate].
  - cbn [JS.join] in *. f_equal.
    destruct xs; cbn in IH |- *; exact IH.
Qed.

(** Splitting a string on a separator and joining the pieces with the
    same separator gives the string back. *)
Lemma join_split (sep s : string) : JS.join sep (JS.split sep s) = s.
Proof.
  unfold JS.split. destruct (JS.isEmpty sep) eqn:E.
  - destruct sep; [|discriminate]. apply join_chars.
  - pose proof (join_splitAux sep) as H.
    assert (sep <> EmptyString) as Hne by (intros ->; discriminate).
    specialize (H Hne s 0). destruct (JS.splitAux sep 0 s) as [q qs].
    cbn [fst snd] in H. rewrite H. now destruct s.
Qed.

(** X5.  Custom token pairs that replace each term by itself leave every
    content as it is. *)
Theorem applyReplaceTokens_self (tokens : list (string * string)) (s : string) :
  selfReplacing tokens -> applyReplaceTokens tokens s = s.
Proof.
  unfold applyReplaceTokens, selfReplacing.
  induction 1 as [|[term repl] rest Heq _ IH]; [reflexivity|].
  cbn [fold_left fst snd] in *. subst repl. rewrite join_split. exact IH.
Qed.

Lemma applyReplaceTokens_self_witness :
  applyReplaceTokens [("a.b", "a.b"); (EmptyString, EmptyString)] "x = a.b.c + a.b"
  = "x = a.b.c + a.b".
Proof. apply applyReplaceTokens_self. unfold selfReplacing. repeat constructor. Defined.

Lemma prefix_single_string (c : ascii) (s : string) :
  String.prefix (String c EmptyString) s
  = match s with String d _ => Ascii.eqb c d | EmptyString => false end.
Proof. destruct s as [|d r]; [reflexivity|apply prefix_single]. Qed.

(** Pieces of a split on a one-character separator do not hold it. *)
Lemma splitAux_single_clean (c : ascii) (s : string) :
  JS.anyChar (Ascii.eqb c) (fst (JS.splitAux (String c EmptyString) 0 s)) = false /\
  noneHas c (snd (JS.splitAux (String c EmptyString) 0 s)).
Proof.
  induction s as [|d r [IHp IHps]]; [split; [reflexivity|constructor]|].
  cbn [JS.splitAux]. rewrite prefix_single.
  change (String.length (String c EmptyString) - 1) with 0.
  destruct (JS.splitAux (String c EmptyString) 0 r) as [q qs]. cbn [fst snd] in *.
  destruct (Ascii.eqb c d) eqn:E; cbn [fst snd JS.anyChar].
  - split; [reflexivity|]. now constructor.
  - rewrite E. split; assumption.
Qed.

Lemma split_single_clean (c : ascii) (s : string) :
  noneHas c (JS.split (String c EmptyString) s).
Proof.
  unfold JS.split. cbn [JS.isEmpty].
  pose proof (splitAux_single_clean c s) as [Hp Hps].
  destruct (JS.splitAux _ 0 s) as [q qs]. now constructor.
Qed.

Lemma splitAux_single_append (c : ascii) (q tail : string) :
  JS.anyChar (Ascii.eqb c) q = false ->
  JS.splitAux (String c EmptyString) 0 (q +:+ String c tail)
  = (q, fst (JS.splitAux (String c EmptyString) 0 tail)
        :: snd (JS.splitAux (String c EmptyString) 0 tail)).
Proof.
  induction q as [|d q IH]; intros H.
  - change (EmptyString +:+ String c tail) with (String c tail).
    cbn [JS.splitAux]. rewrite prefix_single, Ascii.eqb_refl.
    change (String.length (String c EmptyString) - 1) with 0.
    now destruct (JS.splitAux _ 0 tail).
  - cbn [JS.anyChar] in H. apply orb_false_iff in H as [Hd Hq].
    rewrite append_cons. cbn [JS.splitAux]. rewrite prefix_single, Hd.
    now rewrite (IH Hq).
Qed.

(** Joining strings that do not hold the separator character and
    splitting the result gives the strings back. *)
Lemma split_join_single (c : ascii) (parts : list string) :
  parts <> [] -> noneHas c parts ->
  JS.split (String c EmptyString) (JS.join (String c EmptyString) parts) = parts.
Proof.
  intros Hne Hclean. unfold JS.split. cbn [JS.isEmpty].
  induction Hclean as [|q rest Hq Hrest IH]; [congruence|].
  destruct rest as [|q' rest'].
  - cbn [JS.join]. rewrite splitAux_absent; [reflexivity|].
    now rewrite includes_single.
  - rewrite join_cons2.
    change (String c EmptyString +:+ JS.join (String c EmptyString) (q' :: rest'))
      with (String c (JS.join (String c EmptyString) (q' :: rest'))).
    rewrite (splitAux_single_append c q _ Hq).
    specialize (IH ltac:(discriminate)).
    destruct (JS.splitAux _ 0 (JS.join _ (q' :: rest'))) as [x xs].
    cbn [fst snd]. cbv beta iota. f_equal. exact IH.
Qed.

(** ** Registry parser, again *)

Lemma parseGistLink_blank : Registry.parseGistLink EmptyString = None.
Proof. reflexivity. Qed.

(** X6.  Parsing a registry is parsing its lines one by one, in order: the
    lines that are no links give nothing, the others give their record. *)
Theorem parseGistLinks_lines (lines : list string) :
  noneHas "010"%char lines ->
  Registry.parseGistLinks (JS.join nl lines) = omap Registry.parseGistLink lines.
Proof.
  intros Hclean. unfold Registry.parseGistLinks, nl.
  destruct lines as [|l rest]; [reflexivity|].
  rewrite split_join_single by (discriminate || assumption).
  destruct (JS.isEmpty (JS.join _ (l :: rest))) eqn:E; [|reflexivity].
  destruct rest as [|l' rest'].
  - cbn [JS.join] in E. destruct l; [reflexivity|discriminate].
  - rewrite join_cons2 in E. destruct l; discriminate.
Qed.

Lemma parseGistLinks_lines_witness :
  map Registry.name
      (Registry.parseGistLinks
         (JS.join nl ["# Registry"; "- [a](https://gist.github.com/u/1)"; "";
                      "text"; " - [b](https://github.com/u/r) `x`"]))
  = ["a"; "b"].
Proof.
  rewrite parseGistLinks_lines.
  - vm_compute. reflexivity.
  - unfold noneHas. repeat constructor.
Defined.

(** X7.  Every record has a name and a URL that are not empty; the name holds
    no closing bracket and the URL no closing parenthesis; and the link
    written with them occurs in the trimmed line. *)
Theorem parseGistLink_name_url (line : string) (r : Registry.LinkRecord) :
  Registry.parseGistLink line = Some r ->
  Registry.name r <> EmptyString /\
  JS.anyChar (Ascii.eqb "]"%char) (Registry.name r) = false /\
  Registry.url r <> EmptyString /\
  JS.anyChar (Ascii.eqb ")"%char) (Registry.url r) = false /\
  exists pre post,
    JS.trim line = pre +:+ linkText (Registry.name r) (Registry.url r) +:+ post.
Proof.
  intros Hp. destruct (parseGistLink_match line r Hp) as [n Hm].
  destruct (matchLink_spec _ _ Hm) as (pre & suf & Hs & Hat).
  destruct (matchLinkAt_spec _ _ _ _ Hat) as (H1 & H2 & H3 & H4 & _ & post & ->).
  repeat split; try assumption. now exists pre, post.
Qed.

Lemma parseGistLink_name_url_witness :
  exists r,
    Registry.parseGistLink "  - [redis](https://gist.github.com/gistlyn/abc) `db` Redis"
    = Some r /\
    Registry.name r <> EmptyString /\ Registry.url r <> EmptyString.
Proof.
  eexists. split; [vm_compute; reflexivity|].
  destruct (parseGistLink_name_url
              "  - [redis](https://gist.github.com/gistlyn/abc) `db` Redis" _
              ltac:(vm_compute; reflexivity)) as (H1 & _ & H3 & _).
  split; assumption.
Defined.

Lemma parseGistLink_ids (line : string) (r : Registry.LinkRecord) :
  Registry.parseGistLink line = Some r ->
  Registry.gistId r =
    (if JS.startsWith (Registry.url r) "https://gist.github.com"
     then last (JS.split "/" (Registry.url r)) else None) /\
  Registry.repo r =
    (if JS.startsWith (Registry.url r) "https://gist.github.com" then None
     else if JS.startsWith (Registry.url r) "https://github.com/" then
       match nth_error (JS.split "/" (JS.substringFrom (Registry.url r)
                                        (String.length "https://github.com/"))) 1 with
       | Some p1 => nth_error (JS.split "/" p1) 0
       | None => None
       end
     else None).
Proof.
  unfold Registry.parseGistLink.
  destruct (negb (JS.startsWith (JS.trim line) "- [")); [discriminate|].
  destruct (Registry.matchLink (JS.trim line)) as [[[nm u] n]|]; [|discriminate].
  destruct (Registry.takeModifiers _) as [mods rem].
  destruct (Registry.takeTags rem) as [tg rem'].
  destruct (JS.startsWith u "https://gist.github.com") eqn:Eg.
  - intros [= <-]. cbn [Registry.url Registry.gistId Registry.repo]. now rewrite Eg.
  - destruct (JS.startsWith u "https://github.com/") eqn:Eh;
      intros [= <-]; cbn [Registry.url Registry.gistId Registry.repo];
      now rewrite Eg, ?Eh.
Qed.

Lemma noneHas_elem (c : ascii) (parts : list string) (x : string) :
  noneHas c parts -> In x parts -> JS.anyChar (Ascii.eqb c) x = false.
Proof.
  unfold noneHas. rewrite Forall_forall. intros H Hin.
  apply H. now apply list_elem_of_In.
Qed.

(** X8.  A record has a content id exactly when its URL is gist-style, and
    then it has no repository; neither a content id nor a repository name
    holds a slash. *)
Theorem parseGistLink_content_id (line : string) (r : Registry.LinkRecord) :
  Registry.parseGistLink line = Some r ->
  (JS.startsWith (Registry.url r) "https://gist.github.com" = true ->
   (exists id, Registry.gistId r = Some id /\ JS.anyChar (Ascii.eqb "/"%char) id = false)
   /\ Registry.repo r = None) /\
  (JS.startsWith (Registry.url r) "https://gist.github.com" = false ->
   Registry.gistId r = None) /\
  (forall name, Registry.repo r = Some name ->
                JS.anyChar (Ascii.eqb "/"%char) name = false).
Proof.
  intros Hp. destruct (parseGistLink_ids line r Hp) as [Hid Hrepo].
  split; [|split].
  - intros Hg. rewrite Hg in Hid, Hrepo. split; [|assumption].
    rewrite (split_nonempty "/" (Registry.url r)) in Hid by discriminate.
    destruct (last (_ :: _)) as [id|] eqn:El; [|now apply last_None in El].
    exists id. split; [assumption|].
    apply (noneHas_elem "/"%char (JS.split "/" (Registry.url r))).
    + apply split_single_clean.
    + rewrite (split_nonempty "/" (Registry.url r)) by discriminate.
      apply last_Some in El as [l' ->]. apply in_or_app. right. now left.
  - intros Hg. now rewrite Hg in Hid.
  - intros name Hn. rewrite Hn in Hrepo.
    destruct (JS.startsWith (Registry.url r) "https://gist.github.com"); [discriminate|].
    destruct (JS.startsWith (Registry.url r) "https://github.com/"); [|discriminate].
    destruct (nth_error _ 1) as [p1|]; [|discriminate].
    symmetry in Hrepo. apply nth_error_In in Hrepo.
    exact (noneHas_elem "/"%char _ name (split_single_clean "/"%char p1) Hrepo).
Qed.

Lemma parseGistLink_content_id_witness :
  exists r id,
    Registry.parseGistLink "- [redis](https://gist.github.com/gistlyn/abc/) `db`" = Some r /\
    Registry.gistId r = Some id /\ JS.anyChar (Ascii.eqb "/"%char) id = false.
Proof.
  destruct (parseGistLink_content_id
              "- [redis](https://gist.github.com/gistlyn/abc/) `db`"
              {| Registry.name := "redis";
                 Registry.url := "https://gist.github.com/gistlyn/abc/";
                 Registry.user := Some "ServiceStack"; Registry.to := None;
                 Registry.description := EmptyString; Registry.tags := Some ["db"];
                 Registry.gistId := Some EmptyString; Registry.repo := None;
                 Registry.modifiers := [] |})
    as ([(id & Hid & Hclean) _] & _).
  - vm_compute. reflexivity.
  - reflexivity.
  - eexists _, id. split; [vm_compute; reflexivity|]. split; assumption.
Defined.

(* ===================================================================== *)
(** ** Identifier resolution *)
(* ===================================================================== *)

Lemma hyphen_upperChar (c : ascii) :
  Ascii.eqb "-"%char (JS.upperChar c) = Ascii.eqb "-"%char c.
Proof. destruct c as [[] [] [] [] [] [] [] []]; vm_compute; reflexivity. Qed.

Lemma hyphen_lowerChar (c : ascii) :
  Ascii.eqb "-"%char (JS.lowerChar c) = Ascii.eqb "-"%char c.
Proof. destruct c as [[] [] [] [] [] [] [] []]; vm_compute; reflexivity. Qed.

Lemma lowerChar_upperChar (c : ascii) : JS.lowerChar (JS.upperChar c) = JS.lowerChar c.
Proof. destruct c as [[] [] [] [] [] [] [] []]; vm_compute; reflexivity. Qed.

(** Upper-casing is done code unit by code unit where no code unit is one
    of the three that leave the range. *)
Lemma toUpperCase_within (s : string) :
  upperWithin s -> JS.toUpperCase s = JS.mapChars JS.upperChar s.
Proof.
  unfold upperWithin. induction s as [|c r IH]; [reflexivity|].
  cbn [JS.anyChar JS.toUpperCase JS.mapChars]. intros H.
  apply orb_false_iff in H as [Hc Hr]. rewrite (IH Hr).
  unfold JS.upperOf. unfold JS.upperLeaves in Hc.
  destruct (JS.code c =? 223); [|reflexivity].
  now rewrite orb_true_r in Hc.
Qed.

Lemma aliasKey_upper (s : string) : aliasKey (JS.mapChars JS.upperChar s) = aliasKey s.
Proof.
  unfold aliasKey, JS.toLowerCase.
  induction s as [|c r IH]; [reflexivity|].
  cbn [JS.mapChars JS.removeChar]. rewrite hyphen_upperChar.
  destruct (Ascii.eqb "-"%char c); [exact IH|].
  cbn [JS.mapChars]. now rewrite lowerChar_upperChar, IH.
Qed.

Lemma aliasKey_toLowerCase (s : string) : aliasKey (JS.toLowerCase s) = aliasKey s.
Proof.
  unfold aliasKey, JS.toLowerCase.
  induction s as [|c r IH]; [reflexivity|].
  cbn [JS.mapChars JS.removeChar]. rewrite hyphen_lowerChar.
  destruct (Ascii.eqb "-"%char c); [exact IH|].
  cbn [JS.mapChars]. now rewrite lowerChar_lowerChar, IH.
Qed.

Lemma removeChar_append (P : ascii -> bool) (a b : string) :
  JS.removeChar P (a +:+ b) = JS.removeChar P a +:+ JS.removeChar P b.
Proof.
  induction a as [|c a IH]; [reflexivity|].
  rewrite append_cons. cbn [JS.removeChar].
  destruct (P c); [exact IH|]. now rewrite append_cons, IH.
Qed.

Lemma aliasKey_hyphen (a b : string) : aliasKey (a +:+ "-" +:+ b) = aliasKey (a +:+ b).
Proof. unfold aliasKey. now rewrite !removeChar_append. Qed.

(** X9.  Alias lookup ignores letter case and hyphens, for letters below
    code unit 256 as well as for A to Z: an alias in lower case, or with
    a hyphen put in or left out, finds the same link; so does an alias in
    upper case, as long as it holds no micro sign, sharp s or y with
    diaeresis (the first two do not come back from upper case, and the
    upper-case form of the third is no code unit below 256); and a
    registry that holds a link whose name agrees with the alias up to
    case and hyphens finds the first such link. *)
Theorem findGistLink_insensitive (links : list Registry.LinkRecord) (alias : string) :
  (upperWithin alias ->
   findGistLink links (JS.toUpperCase alias) = findGistLink links alias) /\
  findGistLink links (JS.toLowerCase alias) = findGistLink links alias /\
  (forall a b, alias = a +:+ b ->
     findGistLink links (a +:+ "-" +:+ b) = findGistLink links alias) /\
  (forall before l after,
     links = before ++ l :: after ->
     aliasKey (Registry.name l) = aliasKey alias ->
     Forall (fun l0 => aliasKey (Registry.name l0) <> aliasKey alias) before ->
     findGistLink links alias = Some l).
Proof.
  unfold findGistLink.
  rewrite aliasKey_toLowerCase.
  repeat split.
  - intros Hin. now rewrite (toUpperCase_within _ Hin), aliasKey_upper.
  - intros a b ->. now rewrite aliasKey_hyphen.
  - intros before l after -> Hkey Hbefore.
    induction before as [|l0 before IH]; cbn [app find].
    + now rewrite Hkey, String.eqb_refl.
    + apply List.Forall_cons_iff in Hbefore as [Hl0 Hbefore].
      apply String.eqb_neq in Hl0. rewrite Hl0. now apply IH.
Qed.

Lemma findGistLink_insensitive_witness :
  findGistLink (exampleLinks ++ [accentedLink; taggedLink]) (JS.toUpperCase accented)
  = Some accentedLink /\
  findGistLink (exampleLinks ++ [accentedLink; taggedLink]) "RE-DIS"
  = head exampleLinks.
Proof.
  destruct (findGistLink_insensitive (exampleLinks ++ [accentedLink; taggedLink]) accented)
    as (Hupper & _ & _ & Hfound).
  split.
  - rewrite (Hupper ltac:(reflexivity)).
    apply (Hfound exampleLinks accentedLink [taggedLink]); [reflexivity|reflexivity|].
    repeat constructor. discriminate.
  - evaluate.
Defined.

(** An alias with a sharp s is not found in upper case: its upper-case
    form is two letters S. *)
Example findGistLink_sharp_s :
  let sharp := String "223"%char EmptyString in
  let link := {| Registry.name := sharp; Registry.url := "https://gist.github.com/u/1";
                 Registry.user := Some "u"; Registry.to := None;
                 Registry.description := EmptyString; Registry.tags := None;
                 Registry.gistId := Some "1"; Registry.repo := None;
                 Registry.modifiers := [] |} in
  findGistLink [link] sharp = Some link /\
  JS.toUpperCase sharp = "SS" /\
  findGistLink [link] (JS.toUpperCase sharp) = None.
Proof. repeat split. Qed.

Lemma digit_plain (c : ascii) :
  JS.isDigit c = true ->
  JS.isSpace c = false /\ Ascii.eqb c "-"%char = false /\ Ascii.eqb c "+"%char = false.
Proof. destruct c as [[] [] [] [] [] [] [] []]; vm_compute; intros H; try discriminate H; auto. Qed.

Lemma span_digits (ds tail : string) :
  JS.anyChar (fun c => negb (JS.isDigit c)) ds = false -> startsNonDigit tail ->
  span JS.isDigit (ds +:+ tail) = (ds, tail).
Proof.
  intros Hds Htail. induction ds as [|c r IH].
  - change (EmptyString +:+ tail) with tail.
    destruct tail as [|d t]; [reflexivity|]. cbn [span]. cbn in Htail. now rewrite Htail.
  - cbn [JS.anyChar] in Hds. apply orb_false_iff in Hds as [Hc Hr].
    apply negb_false_iff in Hc. rewrite append_cons. cbn [span]. rewrite Hc, (IH Hr).
    reflexivity.
Qed.

Lemma parseInt_digits (ds tail : string) :
  ds <> EmptyString ->
  JS.anyChar (fun c => negb (JS.isDigit c)) ds = false -> startsNonDigit tail ->
  parseInt (ds +:+ tail) = Some (digitsValue ds).
Proof.
  intros Hne Hds Htail. unfold parseInt.
  destruct ds as [|c r]; [congruence|].
  pose proof Hds as Hall. cbn [JS.anyChar] in Hds. apply orb_false_iff in Hds as [Hc _].
  apply negb_false_iff in Hc. destruct (digit_plain c Hc) as (Hsp & Hm & Hp).
  rewrite append_cons. unfold JS.trimStart.
  change (String c (r +:+ tail)) with (String c (r +:+ tail)).
  assert (Ht : JS.trimStart (String c (r +:+ tail)) = String c (r +:+ tail)).
  { unfold JS.trimStart. cbn. now rewrite Hsp. }
  unfold JS.trimStart in Ht. rewrite Ht. rewrite Hm, Hp.
  rewrite <- append_cons, (span_digits _ _ Hall Htail). reflexivity.
Qed.

Lemma string_of_uint_digits (d : Decimal.uint) :
  JS.anyChar (fun c => negb (JS.isDigit c)) (NilEmpty.string_of_uint d) = false.
Proof. induction d; [reflexivity | exact IHd ..]. Qed.

Lemma digitsValue_of_uint (d : Decimal.uint) (acc : nat) :
  (fix go (acc : Z) (s : string) : Z :=
     match s with
     | EmptyString => acc
     | String c r => go (10 * acc + Z.of_nat (JS.code c - 48))%Z r
     end) (Z.of_nat acc) (NilEmpty.string_of_uint d)
  = Z.of_nat (Nat.of_uint_acc d acc).
Proof.
  revert acc.
  induction d; intros acc; [reflexivity | ..];
    cbn [NilEmpty.string_of_uint Nat.of_uint_acc];
    rewrite Nat.tail_mul_spec, <- IHd; f_equal;
    match goal with |- context [JS.code ?c] =>
      let v := eval vm_compute in (JS.code c - 48) in
      change (JS.code c - 48) with v
    end; lia.
Qed.

Lemma natToString_nonempty (n : nat) : natToString n <> EmptyString.
Proof.
  unfold natToString. destruct (Nat.to_uint n) eqn:E; try discriminate.
  pose proof (f_equal Nat.of_uint E) as E0. rewrite DecimalNat.Unsigned.of_to in E0.
  subst n. discriminate E.
Qed.

Lemma parseInt_natToString (n : nat) (tail : string) :
  startsNonDigit tail -> parseInt (natToString n +:+ tail) = Some (Z.of_nat n).
Proof.
  intros Htail.
  rewrite (parseInt_digits _ _ (natToString_nonempty n) (string_of_uint_digits _) Htail).
  f_equal. unfold digitsValue, natToString.
  pose proof (digitsValue_of_uint (Nat.to_uint n) 0) as H.
  change (Nat.of_uint_acc (Nat.to_uint n) 0) with (Nat.of_uint (Nat.to_uint n)) in H.
  rewrite DecimalNat.Unsigned.of_to in H. exact H.
Qed.

(** X10.  An alias that begins with the decimal numeral of a position of the
    registry (counted from 1) is replaced by the name of the link at that
    position, whatever follows the numeral; with the numeral 0 or one
    past the end of the registry the alias stays as it is. *)
Theorem resolveAlias_leading_number
    (links : list Registry.LinkRecord) (n : nat) (tail : string) :
  startsNonDigit tail ->
  (forall l, nth_error links n = Some l ->
     resolveAlias links (natToString (S n) +:+ tail) = Registry.name l) /\
  (n = 0 \/ length links < n ->
     resolveAlias links (natToString n +:+ tail) = natToString n +:+ tail).
Proof.
  intros Htail. split.
  - intros l Hl. unfold resolveAlias. rewrite (parseInt_natToString _ _ Htail).
    assert (Hlt : n < length links) by (apply nth_error_Some; congruence).
    replace (0 <? Z.of_nat (S n))%Z with true by (symmetry; apply Z.ltb_lt; lia).
    replace (Z.of_nat (S n) <=? Z.of_nat (length links))%Z with true
      by (symmetry; apply Z.leb_le; lia).
    cbn [andb]. rewrite Nat2Z.id.
    replace (S n - 1) with n by lia. now rewrite Hl.
  - intros Hn. unfold resolveAlias. rewrite (parseInt_natToString _ _ Htail).
    destruct Hn as [-> | Hn]; [reflexivity|].
    replace (Z.of_nat n <=? Z.of_nat (length links))%Z with false
      by (symmetry; apply Z.leb_gt; lia).
    now rewrite andb_false_r.
Qed.

Lemma resolveAlias_leading_number_witness :
  resolveAlias exampleLinks (natToString 1 +:+ "b32b03f207a191099137429051ebde8") = "redis".
Proof.
  destruct (resolveAlias_leading_number exampleLinks 0 "b32b03f207a191099137429051ebde8")
    as [Hin _]; [reflexivity|].
  destruct (nth_error exampleLinks 0) as [l|] eqn:E; [|discriminate E].
  rewrite (Hin l eq_refl). injection E as <-. reflexivity.
Defined.

Lemma length_String (c : ascii) (s : string) : String.length (String c s) = S (String.length s).
Proof. reflexivity. Qed.

Lemma firstSegment_absent (s : string) :
  JS.includes s "/" = false -> firstSegment s = s.
Proof. intros H. unfold firstSegment. now rewrite split_absent. Qed.

(** X11.  A string counts as a gist id exactly when it holds no hyphen, dot or
    colon and the part before its first slash (the whole string when it
    has none) is 20 or 32 code units long; so no URL and no alias with a
    hyphen is taken for an id. *)
Theorem isGistId_characterised (str : string) :
  isGistId str = true <->
  JS.includes str "-" = false /\ JS.includes str "." = false /\
  JS.includes str ":" = false /\
  (String.length (firstSegment str) = 20 \/ String.length (firstSegment str) = 32).
Proof.
  unfold isGistId, GIST_ID_LENGTH_FULL, GIST_ID_LENGTH_SHORT, GIST_ID_LENGTH_LONG.
  destruct (JS.includes str "-") eqn:E1; cbn [orb];
    [split; [discriminate | intros (H & _); discriminate H]|].
  destruct (JS.includes str ".") eqn:E2; cbn [orb];
    [split; [discriminate | intros (_ & H & _); discriminate H]|].
  destruct (JS.includes str ":") eqn:E3; cbn [orb];
    [split; [discriminate | intros (_ & _ & H & _); discriminate H]|].
  destruct (JS.includes str "/") eqn:E4.
  - fold (firstSegment str).
    destruct (String.length (firstSegment str) =? 40) eqn:E40.
    + apply Nat.eqb_eq in E40. rewrite E40.
      split; [discriminate | intros (_ & _ & _ & [H | H]); discriminate H].
    + rewrite orb_true_iff, !Nat.eqb_eq. tauto.
  - rewrite (firstSegment_absent _ E4), orb_true_iff, !Nat.eqb_eq. tauto.
Qed.

Lemma isGistId_characterised_witness :
  isGistId "9b32b03f207a191099137429051ebde8" = true.
Proof.
  apply (isGistId_characterised "9b32b03f207a191099137429051ebde8").
  repeat split; try reflexivity. right. reflexivity.
Defined.

(* ===================================================================== *)
(** ** Order of directory removal *)
(* ===================================================================== *)

Lemma insertByLength_Permutation (x : string) (xs : list string) :
  Permutation (x :: xs) (insertByLength x xs).
Proof.
  induction xs as [|y rest IH]; [reflexivity|].
  cbn [insertByLength]. destruct (String.length y <=? String.length x); [reflexivity|].
  rewrite perm_swap. now apply perm_skip.
Qed.

Lemma insertByLength_sorted (x : string) (xs : list string) :
  StronglySorted (fun a b => String.length b <= String.length a) xs ->
  StronglySorted (fun a b => String.length b <= String.length a) (insertByLength x xs).
Proof.
  induction 1 as [|y rest Hs IH Hall]; [repeat constructor|].
  cbn [insertByLength]. destruct (String.length y <=? String.length x) eqn:E.
  - apply Nat.leb_le in E. constructor; [now constructor|].
    constructor; [exact E|].
    eapply List.Forall_impl; [|exact Hall]. cbn. intros. lia.
  - apply Nat.leb_gt in E. constructor; [exact IH|].
    eapply Permutation_Forall; [apply insertByLength_Permutation|].
    constructor; [lia | exact Hall].
Qed.

Lemma sortLongestFirst_perm (xs : list string) : Permutation xs (sortLongestFirst xs).
Proof.
  induction xs as [|x xs IH]; [reflexivity|].
  cbn [sortLongestFirst fold_right]. fold (sortLongestFirst xs).
  eapply Permutation_trans; [|apply insertByLength_Permutation].
  now apply perm_skip.
Qed.

(** X12.  The folders of a removal are visited longest path first: the sorted
    list holds the same folders, no path comes after a shorter one, and
    so a folder always comes before the folders it lies in. *)
Theorem sortLongestFirst_sorted (xs : list string) :
  Permutation xs (sortLongestFirst xs) /\
  StronglySorted (fun a b => String.length b <= String.length a) (sortLongestFirst xs) /\
  (forall before parent rest sub,
     sortLongestFirst xs = before ++ parent :: rest ->
     sub <> EmptyString -> In (parent +:+ sub) xs ->
     In (parent +:+ sub) before).
Proof.
  pose proof (sortLongestFirst_perm xs) as HP.
  assert (HS : StronglySorted (fun a b => String.length b <= String.length a)
                 (sortLongestFirst xs)).
  { clear HP. induction xs as [|x xs IH]; [constructor|].
    cbn [sortLongestFirst fold_right]. now apply insertByLength_sorted. }
  split; [exact HP|]. split; [exact HS|].
  intros before parent rest sub E Hsub Hin.
  apply (Permutation_in _ HP) in Hin. rewrite E in Hin, HS.
  apply in_app_or in Hin as [Hin | Hin]; [exact Hin|].
  exfalso. clear E HP.
  induction before as [|b before IH].
  - cbn [app] in HS. apply StronglySorted_inv in HS as [_ Hall].
    destruct Hin as [Heq | Hin].
    + apply (f_equal String.length) in Heq. rewrite length_append in Heq.
      destruct sub; [congruence|]. cbn in Heq. lia.
    + rewrite List.Forall_forall in Hall. apply Hall in Hin.
      rewrite length_append in Hin. destruct sub; [congruence|]. cbn in Hin. lia.
  - apply IH. cbn [app] in HS. now apply StronglySorted_inv in HS as [HS _].
Qed.

Lemma sortLongestFirst_sorted_witness :
  In ("wwwroot" +:+ "/css") ["wwwroot/css"].
Proof.
  destruct (sortLongestFirst_sorted ["wwwroot"; "wwwroot/css"]) as (_ & _ & H).
  apply (H ["wwwroot/css"] "wwwroot" [] "/css");
    [reflexivity | discriminate | right; left; reflexivity].
Defined.

(* ===================================================================== *)
(** ** What a pipeline does to the outside *)
(* ===================================================================== *)

Section Frames.

Context {h : Host} (R : World h -> World h -> Prop).
Hypothesis R_refl : forall w, R w w.
Hypothesis R_trans : forall w1 w2 w3, R w1 w2 -> R w2 w3 -> R w1 w3.

Lemma bind_keeps {A B} (m : M h A) (k : A -> M h B) (w : World h) :
  R w (snd (m w)) ->
  (forall a w1, m w = (Ok a, w1) -> R w1 (snd (k a w1))) ->
  R w (snd (bind m k w)).
Proof.
  unfold bind. destruct (m w) as [[a|msg|why] w1]; cbn [snd]; intros H Hk; try exact H.
  exact (R_trans _ _ _ H (Hk a w1 eq_refl)).
Qed.

Lemma catch_keeps {A} (m : M h A) (handler : string -> M h A) (w : World h) :
  R w (snd (m w)) ->
  (forall msg w1, m w = (Throw msg, w1) -> R w1 (snd (handler msg w1))) ->
  R w (snd (catch m handler w)).
Proof.
  unfold catch. destruct (m w) as [[a|msg|why] w1]; cbn [snd]; intros H Hk; try exact H.
  exact (R_trans _ _ _ H (Hk msg w1 eq_refl)).
Qed.

Lemma forEach_keeps {A} (xs : list A) (body : A -> M h unit) :
  (forall x w, In x xs -> R w (snd (body x w))) ->
  forall w, R w (snd (forEach xs body w)).
Proof.
  induction xs as [|x rest IH]; intros Hbody w; [apply R_refl|].
  cbn [forEach]. apply bind_keeps; [apply Hbody; now left|].
  intros _ w1 _. apply IH. intros y w2 Hy. apply Hbody. now right.
Qed.

Lemma lift_keeps {A} (r : result A) (w : World h) : R w (snd (lift r w)).
Proof. apply R_refl. Qed.

End Frames.

Section Traces.

Context {h : Host} (P : event -> Prop).

Lemma addsOnly_same (w w' : World h) : trace w' = trace w -> addsOnly P w w'.
Proof. intros E. exists []. rewrite E, app_nil_r. split; [reflexivity|constructor]. Qed.

Lemma addsOnly_refl (w : World h) : addsOnly P w w.
Proof. now apply addsOnly_same. Qed.

Lemma addsOnly_trans (w1 w2 w3 : World h) :
  addsOnly P w1 w2 -> addsOnly P w2 w3 -> addsOnly P w1 w3.
Proof.
  intros (e1 & E1 & H1) (e2 & E2 & H2). exists (e1 ++ e2).
  rewrite E2, E1, app_assoc. split; [reflexivity|]. apply Forall_app. now split.
Qed.

Lemma addsOnly_weaken (Q : event -> Prop) (w w' : World h) :
  (forall e, Q e -> P e) -> addsOnly Q w w' -> addsOnly P w w'.
Proof.
  intros HQ (evs & E & H). exists evs. split; [exact E|].
  eapply List.Forall_impl; [exact HQ | exact H].
Qed.

Lemma emit_adds (e : event) (w : World h) : P e -> addsOnly P w (snd (emit e w)).
Proof. intros He. exists [e]. split; [reflexivity|]. now constructor. Qed.

Lemma fsMutate_adds (op : FS h -> result (FS h)) (e : event) (w : World h) :
  P e -> addsOnly P w (snd (fsMutate op e w)).
Proof.
  intros He. unfold fsMutate. destruct (op (fs w)); try apply addsOnly_refl.
  exists [e]. split; [reflexivity|]. now constructor.
Qed.

Lemma promptYesNo_adds (ss : Session) (message : string) (w : World h) :
  (forall line, P (Log line)) -> addsOnly P w (snd (promptYesNo h ss message w)).
Proof.
  intros HP. unfold promptYesNo.
  destruct (silent ss || forceApproval ss); [apply addsOnly_refl|].
  apply (bind_keeps _ addsOnly_trans); [now apply emit_adds|]. intros _ w1 _.
  apply (bind_keeps _ addsOnly_trans); [now apply emit_adds|]. intros _ w2 _.
  destruct (stdin w2); now apply addsOnly_same.
Qed.

Lemma confirm_adds (ss : Session) (message forced : string) (w : World h) :
  (forall line, P (Log line)) -> addsOnly P w (snd (confirm h ss message forced w)).
Proof.
  intros HP. unfold confirm. destruct (negb (forceApproval ss)); [|now apply emit_adds].
  apply (bind_keeps _ addsOnly_trans); [now apply promptYesNo_adds|].
  intros [] w1 _; apply addsOnly_refl.
Qed.

End Traces.

Section Printing.

Context {h : Host} (R : World h -> World h -> Prop).
Hypothesis R_refl : forall w, R w w.
Hypothesis R_trans : forall w1 w2 w3, R w1 w2 -> R w2 w3 -> R w1 w3.
Hypothesis R_log : forall line w, R w (snd (emit (Log line) w)).

Lemma logLines_keeps (lines : list string) (w : World h) :
  R w (snd (logLines lines w)).
Proof.
  unfold logLines. apply (forEach_keeps _ R_refl R_trans).
  intros line w1 _. apply R_log.
Qed.

Lemma printGistLinks_keeps (tool : string) (links : list Registry.LinkRecord)
    (tag usage : option string) (w : World h) :
  R w (snd (printGistLinks tool links tag usage w)).
Proof.
  unfold printGistLinks.
  apply (bind_keeps _ R_trans); [apply R_log|]. intros _ w1 _.
  apply (bind_keeps _ R_trans).
  { destruct tag as [t|]; [|apply R_refl].
    destruct (JS.isEmpty t); [apply R_refl | apply logLines_keeps]. }
  intros _ w2 _.
  destruct (usersOf (listed links tag)) as [users|]; [|apply R_refl].
  apply (bind_keeps _ R_trans); [apply logLines_keeps|]. intros _ w3 _.
  apply (bind_keeps _ R_trans); [apply R_log|]. intros _ w4 _.
  destruct usage as [u|]; [destruct (JS.isEmpty u)|];
    apply logLines_keeps || apply R_log.
Qed.

End Printing.

Lemma logLines_adds {h} (P : event -> Prop) (lines : list string) (w : World h) :
  (forall line, P (Log line)) -> addsOnly P w (snd (logLines lines w)).
Proof.
  intros HP. apply logLines_keeps;
    [apply addsOnly_refl | apply addsOnly_trans | intros; now apply emit_adds].
Qed.

Lemma printGistLinks_adds {h} (P : event -> Prop) (tool : string)
    (links : list Registry.LinkRecord) (tag usage : option string) (w : World h) :
  (forall line, P (Log line)) ->
  addsOnly P w (snd (printGistLinks tool links tag usage w)).
Proof.
  intros HP. apply printGistLinks_keeps;
    [apply addsOnly_refl | apply addsOnly_trans | intros; now apply emit_adds].
Qed.

Lemma printGistLinks_fs {h} (tool : string) (links : list Registry.LinkRecord)
    (tag usage : option string) (w : World h) :
  fs (snd (printGistLinks tool links tag usage w)) = fs w.
Proof.
  apply (printGistLinks_keeps (fun w w' => fs w' = fs w)); try reflexivity.
  intros w1 w2 w3 H1 H2. now rewrite H2.
Qed.

Section DeleteFootprint.

Context (h : Host) (p : Process) (ss : Session).

Lemma existingFiles_exist (f : FS h) (files : Bundle) (basePath : string)
    (projName to : option string) :
  Forall (fun file => existsSync h f file = true)
         (existingFiles h p ss f files basePath projName to).
Proof.
  unfold existingFiles. apply List.Forall_forall. intros file Hin.
  apply list_elem_of_In, list_elem_of_filter in Hin as [Hex _].
  now destruct (existsSync h f file).
Qed.

Lemma gather_existing (links : list Registry.LinkRecord) (projName : option string)
    (aliases : list string) :
  forall (w w' : World h) acc r,
    gather h p ss links projName acc aliases w = (r, w') ->
    sameOutside w w' /\
    forall g, r = Ok (GatheredAll g) ->
      Forall (fun file => existsSync h (fs w) file = true) (allResolvedFiles acc) ->
      Forall (fun file => existsSync h (fs w) file = true) (allResolvedFiles g).
Proof.
  induction aliases as [|gistAlias rest IH]; intros w w' acc r.
  - cbn [gather]. intros [= <- <-]. split; [repeat split|].
    now intros g [= <-].
  - cbn [gather]. unfold bind at 1.
    destruct (lookupBundle h links gistAlias w) as [[found|msg|why] w1] eqn:El;
      pose proof (lookupBundle_outside h _ _ _ _ _ El) as Hs1;
      try (intros [= <- <-]; split; [exact Hs1 | discriminate]).
    destruct found as [[[gistFiles gistLinkUrl] to]|];
      [|intros [= <- <-]; split; [exact Hs1 | discriminate]].
    unfold bind at 1, getFs at 1. unfold bind at 1, lift at 1.
    destruct (resolveBasePath h p (fs w1) to _) as [basePath|msg|why];
      try (intros [= <- <-]; split; [exact Hs1 | discriminate]).
    intros Hg. apply IH in Hg as [Hs2 Hall].
    split; [exact (sameOutside_trans h _ _ _ Hs1 Hs2)|].
    intros g Hr Hacc. destruct Hs1 as (Hfs & _ & _). rewrite Hfs in Hall.
    apply (Hall g Hr). cbn [allResolvedFiles]. apply Forall_app. split; [exact Hacc|].
    rewrite <- Hfs. apply existingFiles_exist.
Qed.

Lemma unlinkFiles_footprint (f0 : FS h) (files : list string) :
  Forall (fun file => existsSync h f0 file = true) files ->
  forall (folders : list string) (w : World h),
    Forall (fun folder => removalEvent h f0 (FsRm folder)) folders ->
    addsOnly (removalEvent h f0) w (snd (unlinkFiles h folders files w)) /\
    forall folders' w', unlinkFiles h folders files w = (Ok folders', w') ->
      Forall (fun folder => removalEvent h f0 (FsRm folder)) folders'.
Proof.
  induction 1 as [|file rest Hfile _ IH]; intros folders w Hfolders.
  - cbn [unlinkFiles]. split; [apply addsOnly_refl|]. now intros ? ? [= <- <-].
  - cbn [unlinkFiles].
    assert (Hstep : addsOnly (removalEvent h f0) w (snd (unlinkFile h folders file w)) /\
                    forall folders1 w1, unlinkFile h folders file w = (Ok folders1, w1) ->
                      Forall (fun folder => removalEvent h f0 (FsRm folder)) folders1).
    { unfold unlinkFile, catch, bind, fsMutate.
      destruct (unlinkSync h (fs w) file) as [f1|msg|why]; cbn [snd].
      - split; [exists [FsUnlink file]; split; [reflexivity|now repeat constructor]|].
        intros folders1 w1 [= <- <-]. unfold setAdd.
        destruct (existsb _ folders); [exact Hfolders|].
        apply Forall_app. split; [exact Hfolders|].
        constructor; [|constructor]. now exists file.
      - split; [apply addsOnly_refl|]. now intros ? ? [= <- <-].
      - split; [apply addsOnly_refl|]. discriminate. }
    destruct Hstep as [Hadds Hnext].
    unfold bind.
    destruct (unlinkFile h folders file w) as [[folders1|msg|why] w1] eqn:E;
      cbn [snd] in Hadds; try (split; [exact Hadds | discriminate]).
    destruct (IH folders1 w1 (Hnext _ _ eq_refl)) as [Hadds2 Hnext2].
    split; [exact (addsOnly_trans _ _ _ _ Hadds Hadds2) | exact Hnext2].
Qed.

Lemma removeIfEmpty_footprint (f0 : FS h) (folder : string) (w : World h) :
  removalEvent h f0 (FsRm folder) ->
  addsOnly (removalEvent h f0) w (snd (removeIfEmpty h folder w)).
Proof.
  intros Hf. unfold removeIfEmpty.
  apply (catch_keeps _ (addsOnly_trans _)); [|intros; apply addsOnly_refl].
  apply (bind_keeps _ (addsOnly_trans _)); [apply addsOnly_refl|]. intros f w1 _.
  apply (bind_keeps _ (addsOnly_trans _)); [apply addsOnly_refl|]. intros entries w2 _.
  destruct (length entries =? 0); [now apply fsMutate_adds | apply addsOnly_refl].
Qed.

Lemma deleteGists_adds (tool : string) (gistAliases : list string)
    (projName : option string) (w : World h) :
  addsOnly (removalEvent h (fs w)) w
           (snd (deleteGists h p ss tool gistAliases projName w)).
Proof.
  set (P := removalEvent h (fs w)).
  assert (HLog : forall line, P (Log line)) by (intros; exact I).
  unfold deleteGists.
  apply (bind_keeps _ (addsOnly_trans P)).
  { destruct (getGistApplyLinks h ss w) as [r w1] eqn:E.
    apply getGistApplyLinks_outside in E as (_ & _ & E). now apply addsOnly_same. }
  intros links w1 E1. apply getGistApplyLinks_outside in E1 as (Hfs1 & _ & _).
  apply (bind_keeps _ (addsOnly_trans P)).
  { destruct (gather h p ss links _ _ _ w1) as [r w2] eqn:E.
    apply gather_existing in E as [(_ & _ & E) _]. now apply addsOnly_same. }
  intros gathered w2 E2. apply gather_existing in E2 as [(Hfs2 & _ & _) Hex].
  destruct gathered as [g|gistAlias].
  - specialize (Hex g eq_refl (List.Forall_nil _)). rewrite Hfs1 in Hex.
    destruct (length (allResolvedFiles g) =? 0).
    + apply (bind_keeps _ (addsOnly_trans P)); [now apply emit_adds|].
      intros; apply addsOnly_refl.
    + apply (bind_keeps _ (addsOnly_trans P)).
      { destruct (negb (silent ss)); [|apply addsOnly_refl].
        apply (bind_keeps _ (addsOnly_trans P)); [now apply confirm_adds|]. intros _ w3 _.
        apply (bind_keeps _ (addsOnly_trans P)); [now apply emit_adds|]. intros _ w4 _.
        now apply emit_adds. }
      intros _ w3 _.
      destruct (unlinkFiles_footprint (fs w) _ Hex [] w3 (List.Forall_nil _)) as [Hadds Hfolders].
      apply (bind_keeps _ (addsOnly_trans P)); [exact Hadds|].
      intros folders w4 E4. apply Hfolders in E4.
      apply (bind_keeps _ (addsOnly_trans P)).
      { apply (forEach_keeps _ (addsOnly_refl P) (addsOnly_trans P)).
        intros folder w5 Hin. apply removeIfEmpty_footprint.
        rewrite List.Forall_forall in E4. apply E4.
        eapply Permutation_in; [|exact Hin].
        apply Permutation_sym. apply sortLongestFirst_perm. }
      intros _ w5 _.
      apply (bind_keeps _ (addsOnly_trans P)); [|intros; apply addsOnly_refl].
      destruct (negb (silent ss)); [now apply emit_adds | apply addsOnly_refl].
  - apply (bind_keeps _ (addsOnly_trans P)); [now apply emit_adds|]. intros _ w3 _.
    apply (bind_keeps _ (addsOnly_trans P)); [now apply printGistLinks_adds|].
    intros; apply addsOnly_refl.
Qed.

(** X13.  A removal prints, unlinks and removes directories, and nothing else:
    it writes no file, makes no directory and starts no process; every
    file it unlinks was on the file system when it started, and every
    directory it removes is the directory of such a file. *)
Theorem deleteGists_footprint (tool : string) (gistAliases : list string)
    (projName : option string) (w : World h) :
  addsOnly (removalEvent h (fs w)) w
           (snd (deleteGists h p ss tool gistAliases projName w)).
Proof. apply deleteGists_adds. Qed.

End DeleteFootprint.

Section Declined.

Context (h : Host) (p : Process) (ss : Session).
Hypothesis Hsilent : silent ss = false.
Hypothesis Hforce : forceApproval ss = false.

Lemma confirm_declined (message forced key : string) (rest : list string) (w : World h) :
  stdin w = key :: rest -> answersYes key = false ->
  exists w', confirm h ss message forced w = (Throw "Operation cancelled by user.", w') /\
             fs w' = fs w /\ addsOnly printsOnly w w'.
Proof.
  intros Hkeys Hno. unfold confirm, promptYesNo. rewrite Hforce, Hsilent. cbn [negb orb].
  unfold bind, emit. cbn [stdin logged]. rewrite Hkeys.
  unfold answersYes, carriageReturn in Hno. rewrite Hno.
  eexists. split; [reflexivity|]. split; [reflexivity|].
  eexists [_; _]. cbn [trace withStdin logged]. rewrite <- app_assoc.
  split; [reflexivity|]. repeat constructor.
Qed.

Lemma deleteGists_declined_run (tool : string) (gistAliases : list string)
    (projName : option string) (key : string) (rest : list string) (w w' : World h)
    (r : result bool) :
  stdin w = key :: rest -> answersYes key = false ->
  deleteGists h p ss tool gistAliases projName w = (r, w') ->
  r <> Ok true /\ fs w' = fs w /\ addsOnly printsOnly w w'.
Proof.
  intros Hkeys Hno. unfold deleteGists. unfold bind at 1.
  destruct (getGistApplyLinks h ss w) as [[links|msg|why] w1] eqn:E1;
    apply getGistApplyLinks_outside in E1 as (Hfs1 & Hin1 & Htr1);
    try (intros [= <- <-];
         split; [discriminate | split; [exact Hfs1 | now apply addsOnly_same]]).
  unfold bind at 1.
  destruct (gather h p ss links _ _ _ w1) as [[gathered|msg|why] w2] eqn:E2;
    apply gather_existing in E2 as [(Hfs2 & Hin2 & Htr2) _];
    try (intros [= <- <-];
         split; [discriminate
                | split; [congruence | apply addsOnly_same; congruence]]).
  assert (Hw2 : addsOnly printsOnly w w2) by (apply addsOnly_same; congruence).
  destruct gathered as [g|gistAlias].
  - destruct (length (allResolvedFiles g) =? 0).
    + unfold bind, emit, ret. intros [= <- <-]. cbn [fs logged].
      split; [discriminate|]. split; [congruence|].
      eapply addsOnly_trans; [exact Hw2|]. eexists [_]. split; [reflexivity|].
      repeat constructor.
    + rewrite Hsilent. cbn [negb]. unfold bind at 1. unfold bind at 1.
      destruct (confirm_declined (output g) (output g) key rest w2)
        as (w3 & -> & Hfs3 & Hadds); [congruence | exact Hno |].
      intros [= <- <-]. split; [discriminate|]. split; [congruence|].
      exact (addsOnly_trans _ _ _ _ Hw2 Hadds).
  - unfold bind at 1, emit at 1. unfold bind at 1.
    match goal with |- context [printGistLinks tool links None None ?w0] =>
      pose proof (printGistLinks_fs tool links None None w0) as Hfs3;
      pose proof (printGistLinks_adds printsOnly tool links None None w0
                    (fun _ => I)) as Hadds3;
      destruct (printGistLinks tool links None None w0) as [[[]|msg|why] w3]
    end;
      cbn [snd fs logged] in Hfs3, Hadds3; unfold ret; intros [= <- <-];
      (split; [discriminate|]; split; [congruence|]);
      (eapply addsOnly_trans; [exact Hw2|]);
      (eapply addsOnly_trans; [|exact Hadds3]);
      (apply emit_adds; exact I).
Qed.

(** X14.  When the prompt is shown and the key pressed is not a yes, a removal
    does not complete: it never returns true, the file system stays as it
    was, and all it has done is print. *)
Theorem deleteGists_declined (tool : string) (gistAliases : list string)
    (projName : option string) (key : string) (rest : list string) (w : World h) :
  stdin w = key :: rest -> answersYes key = false ->
  fst (deleteGists h p ss tool gistAliases projName w) <> Ok true /\
  fs (snd (deleteGists h p ss tool gistAliases projName w)) = fs w /\
  addsOnly printsOnly w (snd (deleteGists h p ss tool gistAliases projName w)).
Proof.
  intros Hkeys Hno.
  destruct (deleteGists h p ss tool gistAliases projName w) as [r w'] eqn:E.
  exact (deleteGists_declined_run _ _ _ _ _ _ _ _ Hkeys Hno E).
Qed.

Lemma writeGistFile_declined_run (gistIdOrUrl gistAlias : string)
    (to projName : option string) (key : string) (rest : list string) (w w' : World h)
    (r : result unit) :
  stdin w = key :: rest -> answersYes key = false ->
  writeGistFile h p ss gistIdOrUrl gistAlias to projName w = (r, w') ->
  r <> Ok tt /\ fs w' = fs w /\ addsOnly printsOnly w w'.
Proof.
  intros Hkeys Hno. unfold writeGistFile. unfold bind at 1.
  destruct (getGistFiles h gistIdOrUrl w) as [[[files gistLinkUrl]|msg|why] w1] eqn:E1;
    apply getGistFiles_outside in E1 as (Hfs1 & Hin1 & Htr1);
    try (intros [= <- <-];
         split; [discriminate | split; [exact Hfs1 | now apply addsOnly_same]]).
  assert (Hw1 : addsOnly printsOnly w w1) by now apply addsOnly_same.
  unfold bind at 1, getFs at 1. unfold bind at 1, lift at 1.
  destruct (resolveEntries h p ss (fs w1) gistAlias to _ gistLinkUrl _ files)
    as [[resolvedFiles initFile]|msg|why];
    try (intros [= <- <-]; split; [discriminate | split; [exact Hfs1 | exact Hw1]]).
  rewrite Hsilent. cbn [negb]. unfold bind at 1. unfold bind at 1, lift at 1.
  destruct (decodeURIComponent h gistLinkUrl) as [shown|msg|why];
    try (intros [= <- <-]; split; [discriminate | split; [exact Hfs1 | exact Hw1]]).
  match goal with |- context [confirm h ss ?m ?f w1] =>
    destruct (confirm_declined m f key rest w1) as (w2 & -> & Hfs2 & Hadds);
      [congruence | exact Hno |]
  end.
  intros [= <- <-]. split; [discriminate|]. split; [congruence|].
  exact (addsOnly_trans _ _ _ _ Hw1 Hadds).
Qed.

(** X15.  When the prompt is shown and the key pressed is not a yes, applying a
    bundle does not complete: the file system stays as it was, and all
    that has been done is print (no file written, no process started). *)
Theorem writeGistFile_declined (gistIdOrUrl gistAlias : string)
    (to projName : option string) (key : string) (rest : list string) (w : World h) :
  stdin w = key :: rest -> answersYes key = false ->
  fst (writeGistFile h p ss gistIdOrUrl gistAlias to projName w) <> Ok tt /\
  fs (snd (writeGistFile h p ss gistIdOrUrl gistAlias to projName w)) = fs w /\
  addsOnly printsOnly w (snd (writeGistFile h p ss gistIdOrUrl gistAlias to projName w)).
Proof.
  intros Hkeys Hno.
  destruct (writeGistFile h p ss gistIdOrUrl gistAlias to projName w) as [r w'] eqn:E.
  exact (writeGistFile_declined_run _ _ _ _ _ _ _ _ _ Hkeys Hno E).
Qed.

End Declined.

Lemma deleteGists_declined_witness :
  let w := keyedWorld exampleNetwork diskWithBundle ["n"] in
  let run := deleteGists (testHost exampleNetwork) posix asking "mix" ["redis"] None w in
  existsSync (testHost exampleNetwork) (fs w) "/work/Configure.Redis.cs" = true /\
  fst run = Throw "Operation cancelled by user." /\
  last (trace (snd run)) = Some (Log "Proceed? (n/Y):") /\
  fst run <> Ok true /\
  fs (snd run) = fs w /\
  addsOnly printsOnly w (snd run).
Proof.
  cbv zeta.
  split; [evaluate|]. split; [evaluate|]. split; [evaluate|].
  apply (deleteGists_declined (testHost exampleNetwork) posix asking eq_refl eq_refl
           "mix" ["redis"] None "n" []); reflexivity.
Defined.

Lemma writeGistFile_declined_witness :
  fst (writeGistFile (testHost exampleNetwork) posix asking "abc" "redis" None None
         (keyedWorld exampleNetwork diskWithTarget ["n"])) <> Ok tt /\
  fs (snd (writeGistFile (testHost exampleNetwork) posix asking "abc" "redis" None None
             (keyedWorld exampleNetwork diskWithTarget ["n"])))
    = fs (keyedWorld exampleNetwork diskWithTarget ["n"]) /\
  addsOnly printsOnly (keyedWorld exampleNetwork diskWithTarget ["n"])
    (snd (writeGistFile (testHost exampleNetwork) posix asking "abc" "redis" None None
            (keyedWorld exampleNetwork diskWithTarget ["n"]))).
Proof.
  apply (writeGistFile_declined (testHost exampleNetwork) posix asking eq_refl eq_refl
           "abc" "redis" None None "n" []); reflexivity.
Defined.

(* ===================================================================== *)
(** ** What applying a bundle does to the outside *)
(* ===================================================================== *)

Lemma applyTrace_nil : applyTrace [].
Proof.
  split; [constructor|]. intros pre file post E. now destruct pre.
Qed.

Lemma applyTrace_app (a b : list event) : applyTrace a -> applyTrace b -> applyTrace (a ++ b).
Proof.
  intros [Ha Ua] [Hb Ub]. split; [apply Forall_app; now split|].
  intros pre file post E. apply app_eq_app in E as [l [[E1 E2] | [E1 E2]]].
  - destruct l as [|e l].
    + cbn in E2. symmetry in E2. apply (Ub [] file post) in E2. contradiction.
    + injection E2 as <- E2. exact (Ua _ _ _ E1).
  - subst pre. apply in_or_app. right. exact (Ub _ _ _ E2).
Qed.

Lemma keepsFiles_applyTrace (evs : list event) : Forall keepsFiles evs -> applyTrace evs.
Proof.
  intros H. split.
  - eapply List.Forall_impl; [|exact H]. now intros [].
  - intros pre file post ->. apply Forall_app in H as [_ H].
    apply Forall_inv in H. contradiction.
Qed.

Section ApplyFootprint.

Context (h : Host) (p : Process) (ss : Session).

Lemma addsTrace_refl (w : World h) : addsTrace applyTrace w w.
Proof. exists []. rewrite app_nil_r. split; [reflexivity | apply applyTrace_nil]. Qed.

Lemma addsTrace_trans (w1 w2 w3 : World h) :
  addsTrace applyTrace w1 w2 -> addsTrace applyTrace w2 w3 -> addsTrace applyTrace w1 w3.
Proof.
  intros (e1 & E1 & H1) (e2 & E2 & H2). exists (e1 ++ e2).
  rewrite E2, E1, app_assoc. split; [reflexivity|]. now apply applyTrace_app.
Qed.

Lemma addsOnly_addsTrace (w w' : World h) :
  addsOnly keepsFiles w w' -> addsTrace applyTrace w w'.
Proof.
  intros (evs & E & H). exists evs. split; [exact E|]. now apply keepsFiles_applyTrace.
Qed.

Lemma patchJsonFile_keeps (targetFile patchFile : string) (w : World h) :
  addsOnly keepsFiles w (snd (patchJsonFile h targetFile patchFile w)).
Proof.
  unfold patchJsonFile.
  apply (bind_keeps _ (addsOnly_trans _)); [apply addsOnly_refl|]. intros f w1 _.
  apply (bind_keeps _ (addsOnly_trans _)).
  { destruct (negb _); [now apply fsMutate_adds | apply addsOnly_refl]. }
  intros _ w2 _.
  apply (bind_keeps _ (addsOnly_trans _)); [apply addsOnly_refl|]. intros f2 w3 _.
  apply (bind_keeps _ (addsOnly_trans _)); [apply addsOnly_refl|]. intros t w4 _.
  apply (bind_keeps _ (addsOnly_trans _)); [apply addsOnly_refl|]. intros tj w5 _.
  apply (bind_keeps _ (addsOnly_trans _)); [apply addsOnly_refl|]. intros pt w6 _.
  apply (bind_keeps _ (addsOnly_trans _)); [apply addsOnly_refl|]. intros pj w7 _.
  apply (bind_keeps _ (addsOnly_trans _)); [apply addsOnly_refl|]. intros pd w8 _.
  now apply fsMutate_adds.
Qed.

Lemma runInitLine_keeps (hostDir : string) (projName : option string) (line : string)
    (w : World h) :
  addsOnly keepsFiles w (snd (runInitLine h p ss hostDir projName line w)).
Proof.
  unfold runInitLine.
  destruct (Sandbox.judge line) as [| | |cmd|cmd exe raw]; try apply addsOnly_refl.
  - now apply emit_adds.
  - apply (bind_keeps _ (addsOnly_trans _)); [now apply emit_adds|]. intros _ w1 _.
    destruct projName as [name|]; [|apply addsOnly_refl].
    destruct (spawnSync h (fs w1) exe _ hostDir) as [f' [err|]]; cbn [snd].
    + eexists [_; _]. cbn [trace logged withFs]. rewrite <- app_assoc.
      split; [reflexivity|]. repeat constructor.
    + eexists [_]. cbn [trace logged withFs]. split; [reflexivity|]. repeat constructor.
Qed.

Lemma writeStep_written (file : ResolvedFile) (w w1 : World h) (r : result string) :
  writeStep h file w = (r, w1) ->
  exists evs, trace w1 = trace w ++ evs /\ Forall keepsFiles evs /\
              forall filePath, r = Ok filePath -> In (FsWrite filePath) evs.
Proof.
  unfold writeStep. unfold bind at 1, getFs at 1. unfold bind at 1.
  set (dir := path_dirname h (path file)).
  set (filePath := if JS.endsWith (path file) "|base64" then JS.dropLast 7 (path file)
                   else path file).
  set (mk := if negb (existsSync h (fs w) dir)
             then fsMutate (fun f => mkdirSync h f dir) (FsMkdir dir) else ret tt).
  assert (Hmk : addsOnly keepsFiles w (snd (mk w))).
  { unfold mk. destruct (negb _); [now apply fsMutate_adds | apply addsOnly_refl]. }
  destruct (mk w) as [[[]|msg|why] w2]; cbn [snd] in Hmk; destruct Hmk as (e1 & E1 & H1);
    try (intros [= <- <-]; exists e1; repeat split; [exact E1 | exact H1 | discriminate]).
  unfold bind.
  set (wr := if JS.endsWith (path file) "|base64"
             then fsMutate (fun f => writeFileSync h f filePath (base64Decode h (content file)))
                    (FsWrite filePath)
             else fsMutate (fun f => writeFileSync h f filePath (content file))
                    (FsWrite filePath)).
  assert (Hwr : (exists m y, fst (wr w2) = m /\ m <> Ok tt /\ snd (wr w2) = w2 /\ y = tt) \/
                (fst (wr w2) = Ok tt /\ trace (snd (wr w2)) = trace w2 ++ [FsWrite filePath])).
  { unfold wr, fsMutate.
    destruct (JS.endsWith (path file) "|base64");
      destruct (writeFileSync h (fs w2) filePath _); cbn [fst snd];
      try (right; split; reflexivity);
      left; eexists _, tt; repeat split; discriminate. }
  destruct (wr w2) as [[[]|msg|why] w3]; cbn [fst snd] in Hwr;
    destruct Hwr as [(m & y & Hm & Hne & Hw & _) | [Hok Htr]];
    try congruence; try discriminate; intros [= <- <-].
  - exists (e1 ++ [FsWrite filePath]). rewrite Htr, E1, app_assoc.
    split; [reflexivity|]. split.
    + apply Forall_app. split; [exact H1|]. repeat constructor.
    + intros ? [= <-]. apply in_or_app. right. now left.
  - subst w3. exists e1. repeat split; [exact E1 | exact H1 | discriminate].
  - subst w3. exists e1. repeat split; [exact E1 | exact H1 | discriminate].
Qed.

Lemma patchStep_unlinks (filePath : string) (w : World h) :
  exists evs, trace (snd (patchStep h filePath w)) = trace w ++ evs /\
    ((Forall keepsFiles evs) \/
     (JS.endsWith filePath ".json.patch" = true /\
      exists evs0, evs = evs0 ++ [FsUnlink filePath] /\ Forall keepsFiles evs0)).
Proof.
  unfold patchStep.
  destruct (JS.endsWith filePath ".json.patch") eqn:Hend;
    [|exists []; rewrite app_nil_r; split; [reflexivity | left; constructor]].
  unfold bind at 1, getFs at 1.
  destruct (existsSync h (fs w) (JS.dropLast 6 filePath));
    [|exists []; rewrite app_nil_r; split; [reflexivity | left; constructor]].
  unfold bind at 1, emit at 1.
  set (w1 := logged w (Log _)).
  unfold bind.
  pose proof (patchJsonFile_keeps (JS.dropLast 6 filePath) filePath w1) as (e2 & E2 & H2).
  destruct (patchJsonFile h (JS.dropLast 6 filePath) filePath w1) as [[[]|msg|why] w2];
    cbn [snd] in E2 |- *.
  - unfold fsMutate. destruct (unlinkSync h (fs w2) filePath); cbn [snd].
    + eexists (_ :: e2 ++ [FsUnlink filePath]). cbn [trace logged withFs]. rewrite E2.
      unfold w1. cbn [trace logged]. rewrite <- !app_assoc. split; [reflexivity|].
      right. split; [reflexivity|]. eexists (_ :: e2). split; [reflexivity|].
      constructor; [exact I | exact H2].
    + eexists (_ :: e2). rewrite E2. unfold w1. cbn [trace logged]. rewrite <- !app_assoc.
      split; [reflexivity|]. left. constructor; [exact I | exact H2].
    + eexists (_ :: e2). rewrite E2. unfold w1. cbn [trace logged]. rewrite <- !app_assoc.
      split; [reflexivity|]. left. constructor; [exact I | exact H2].
  - eexists (_ :: e2). rewrite E2. unfold w1. cbn [trace logged]. rewrite <- !app_assoc.
    split; [reflexivity|]. left. constructor; [exact I | exact H2].
  - eexists (_ :: e2). rewrite E2. unfold w1. cbn [trace logged]. rewrite <- !app_assoc.
    split; [reflexivity|]. left. constructor; [exact I | exact H2].
Qed.

Lemma writeResolved_footprint (file : ResolvedFile) (w : World h) :
  addsTrace applyTrace w (snd (writeResolved h file w)).
Proof.
  unfold writeResolved. destruct (String.eqb (originalName file) "_init");
    [apply addsTrace_refl|].
  unfold bind.
  destruct (writeStep h file w) as [r w1] eqn:E.
  apply writeStep_written in E as (e1 & E1 & H1 & Hin).
  destruct r as [filePath|msg|why]; cbn [snd];
    try (exists e1; split; [exact E1 | now apply keepsFiles_applyTrace]).
  destruct (patchStep_unlinks filePath w1) as (e2 & E2 & [H2 | (Hend & e0 & -> & H0)]).
  - exists (e1 ++ e2). rewrite E2, E1, app_assoc. split; [reflexivity|].
    apply keepsFiles_applyTrace. apply Forall_app. now split.
  - exists (e1 ++ e0 ++ [FsUnlink filePath]). rewrite E2, E1, <- !app_assoc.
    split; [reflexivity|]. split.
    + apply Forall_app. split; [eapply List.Forall_impl; [|exact H1]; now intros []|].
      apply Forall_app. split; [eapply List.Forall_impl; [|exact H0]; now intros []|].
      constructor; [exact Hend | constructor].
    + intros pre file' post Eq. rewrite app_assoc in Eq.
      assert (Hk : Forall keepsFiles (e1 ++ e0)) by (apply Forall_app; now split).
      apply app_eq_app in Eq as [l [[Eq1 Eq2] | [Eq1 Eq2]]].
      * destruct l as [|e l].
        -- cbn in Eq2. injection Eq2 as <- _. rewrite app_nil_r in Eq1. subst pre.
           apply in_or_app. left. now apply Hin.
        -- injection Eq2 as <- _. rewrite Eq1 in Hk.
           apply Forall_app in Hk as [_ Hk]. apply Forall_inv in Hk. contradiction.
      * destruct l as [|e l]; [|destruct l; discriminate Eq2].
        cbn in Eq2. injection Eq2 as <- _. rewrite app_nil_r in Eq1. subst pre.
        apply in_or_app. left. now apply Hin.
Qed.

Lemma writeGistFile_adds (gistIdOrUrl gistAlias : string)
    (to projName : option string) (w : World h) :
  addsTrace applyTrace w (snd (writeGistFile h p ss gistIdOrUrl gistAlias to projName w)).
Proof.
  assert (Hlog : forall line, keepsFiles (Log line)) by (intros; exact I).
  unfold writeGistFile.
  apply (bind_keeps _ addsTrace_trans).
  { destruct (getGistFiles h gistIdOrUrl w) as [r w1] eqn:E.
    apply getGistFiles_outside in E as (_ & _ & E).
    apply addsOnly_addsTrace. now apply addsOnly_same. }
  intros [files gistLinkUrl] w1 _.
  apply (bind_keeps _ addsTrace_trans); [apply addsTrace_refl|]. intros f w2 _.
  apply (bind_keeps _ addsTrace_trans); [apply addsTrace_refl|].
  intros [resolvedFiles initFile] w3 _.
  apply (bind_keeps _ addsTrace_trans).
  { apply addsOnly_addsTrace. destruct (negb (silent ss)); [|apply addsOnly_refl].
    apply (bind_keeps _ (addsOnly_trans _)); [apply addsOnly_refl|]. intros shown w4 _.
    now apply confirm_adds. }
  intros _ w4 _.
  apply (bind_keeps _ addsTrace_trans).
  { apply addsOnly_addsTrace. destruct initFile as [script|]; [|apply addsOnly_refl].
    apply (bind_keeps _ (addsOnly_trans _)); [apply addsOnly_refl|]. intros f5 w5 _.
    apply (bind_keeps _ (addsOnly_trans _)); [apply addsOnly_refl|]. intros hostDir w6 _.
    apply (forEach_keeps _ (addsOnly_refl _) (addsOnly_trans _)).
    intros line w7 _. apply runInitLine_keeps. }
  intros _ w5 _.
  apply (forEach_keeps _ addsTrace_refl addsTrace_trans).
  intros file w6 _. apply writeResolved_footprint.
Qed.

(** X16.  In its own calls, applying a bundle removes no directory and starts
    processes only without a shell; the only files it unlinks have paths
    that end in [.json.patch], and it has written each of them itself
    beforehand.  (What a started process does is the process's.) *)
Theorem writeGistFile_footprint (gistIdOrUrl gistAlias : string)
    (to projName : option string) (w : World h) :
  addsTrace applyTrace w (snd (writeGistFile h p ss gistIdOrUrl gistAlias to projName w)).
Proof. apply writeGistFile_adds. Qed.

End ApplyFootprint.

(* ===================================================================== *)
(** ** The caches *)
(* ===================================================================== *)

Lemma getGistFiles_run (h : Host) (gistIdOrUrl : string) (w w1 : World h)
    (files : Bundle) (url : string) :
  getGistFiles h gistIdOrUrl w = (Ok (files, url), w1) ->
  (assocGet gistIdOrUrl (gistFilesCache w) = Some files /\ url = gistIdOrUrl /\ w1 = w) \/
  (assocGet gistIdOrUrl (gistFilesCache w) = None /\
   exists route gistRef,
     gistRoute gistIdOrUrl = Ok (route, gistRef, url) /\
     w1 = cacheFiles gistIdOrUrl files (requested (routeUrl route) w)).
Proof.
  unfold getGistFiles.
  destruct (assocGet gistIdOrUrl (gistFilesCache w)) as [cached|] eqn:Hc.
  - intros [= <- <- <-]. left. auto.
  - unfold fetchGistFiles.
    destruct (gistRoute gistIdOrUrl) as [[[route gistRef] gistUrl]|msg|why];
      cbn [rbind]; try discriminate.
    destruct (getJsonRoute h route) as [json|msg|why]; cbn [rbind]; try discriminate.
    destruct (fromJsonGist json gistRef) as [found|msg|why]; cbn [rbind]; try discriminate.
    intros [= <- <- <-]. right. split; [reflexivity|]. now exists route, gistRef.
Qed.

(** X17.  A bundle is asked of the network once.  A call that gives a
    bundle leaves it in the cache under the identifier it was called
    with; on a miss it has made exactly one request (to the route worked
    out from the identifier), on a hit none, and the world is left as it
    was.  From then on, in every world that holds this cache, the call is
    answered from the cache: the same files, the identifier itself in
    place of the bundle's URL, and the world (the log of requests
    included) left exactly as it is. *)
Theorem getGistFiles_cached (h : Host) (gistIdOrUrl : string) (w w1 : World h)
    (files : Bundle) (url : string) :
  getGistFiles h gistIdOrUrl w = (Ok (files, url), w1) ->
  assocGet gistIdOrUrl (gistFilesCache w1) = Some files /\
  (forall w2, gistFilesCache w2 = gistFilesCache w1 ->
     getGistFiles h gistIdOrUrl w2 = (Ok (files, gistIdOrUrl), w2)) /\
  (assocGet gistIdOrUrl (gistFilesCache w) = None ->
   exists route gistRef,
     gistRoute gistIdOrUrl = Ok (route, gistRef, url) /\
     requests w1 = requests w ++ [routeUrl route]) /\
  (assocGet gistIdOrUrl (gistFilesCache w) <> None -> w1 = w).
Proof.
  intros Hrun.
  assert (assocGet gistIdOrUrl (gistFilesCache w1) = Some files) as Hcached.
  { apply getGistFiles_run in Hrun as [(Hc & _ & ->) | (_ & route & gistRef & _ & ->)];
      [exact Hc|]. cbn [gistFilesCache cacheFiles]. apply assocGet_assocSet. }
  split; [exact Hcached|]. split; [|split].
  - intros w2 Hsame. unfold getGistFiles. now rewrite Hsame, Hcached.
  - intros Hmiss.
    apply getGistFiles_run in Hrun as [(Hc & _) | (_ & route & gistRef & Hroute & ->)];
      [congruence|].
    now exists route, gistRef.
  - intros Hhit.
    apply getGistFiles_run in Hrun as [(_ & _ & ->) | (Hc & _)]; [reflexivity|congruence].
Qed.

Lemma getGistFiles_cached_witness :
  let w := startWorld exampleNetwork ∅ in
  let w1 := snd (getGistFiles (testHost exampleNetwork) "abc" w) in
  let w2 :=
    Build_World (testHost exampleNetwork) diskWithTarget ["y"] [Log "later"]
                (gistFilesCache w1) [] ["https://example.org/earlier"] in
  requests w1 = ["https://api.github.com/gists/abc"] /\
  getGistFiles (testHost exampleNetwork) "abc" w2
  = (Ok ([("Configure.Redis.cs", "namespace MyApp;"); ("MyApp/Redis.md", "notes")], "abc"),
     w2).
Proof.
  cbv zeta.
  assert (getGistFiles (testHost exampleNetwork) "abc" (startWorld exampleNetwork ∅)
          = (Ok ([("Configure.Redis.cs", "namespace MyApp;"); ("MyApp/Redis.md", "notes")],
                 "https://gist.github.com/abc"),
             snd (getGistFiles (testHost exampleNetwork) "abc"
                    (startWorld exampleNetwork ∅)))) as Hrun by evaluate.
  destruct (getGistFiles_cached _ _ _ _ _ _ Hrun) as (_ & Hagain & Hmiss & _).
  split.
  - destruct (Hmiss eq_refl) as (route & gistRef & Hroute & ->).
    injection Hroute as <- _. reflexivity.
  - apply Hagain. reflexivity.
Defined.

Lemma getGistApplyLinks_run (h : Host) (ss : Session) (w w1 : World h)
    (links : list Registry.LinkRecord) :
  getGistApplyLinks h ss w = (Ok links, w1) ->
  (assocGet (gistLinksId ss +:+ ":mix.md") (gistLinksCache w) = Some links /\ w1 = w) \/
  (assocGet (gistLinksId ss +:+ ":mix.md") (gistLinksCache w) = None /\
   exists files url w0,
     getGistFiles h (gistLinksId ss) w = (Ok (files, url), w0) /\
     w1 = cacheLinks (gistLinksId ss +:+ ":mix.md") links w0).
Proof.
  unfold getGistApplyLinks.
  destruct (assocGet _ (gistLinksCache w)) as [cached|] eqn:Hc.
  - intros [= <- <-]. left. auto.
  - unfold bind.
    destruct (getGistFiles h (gistLinksId ss) w) as [[[files url]|msg|why] w0] eqn:Hf;
      try discriminate.
    destruct (assocGet "mix.md" files) as [mixMd|]; [|discriminate].
    destruct (JS.isEmpty mixMd); [discriminate|].
    intros [= <- <-]. right. split; [reflexivity|]. now exists files, url, w0.
Qed.

(** X18.  The registry is read once.  A call that gives the links leaves
    them in the cache under the key of the registry; it has made at most
    one request, and none when the links were in the cache, the world
    then being left as it was.  From then on, in every world that holds
    this cache of links (whatever its cache of bundles), the call is
    answered from the cache: the same links, and the world (the log of
    requests included) left exactly as it is. *)
Theorem getGistApplyLinks_cached (h : Host) (ss : Session) (w w1 : World h)
    (links : list Registry.LinkRecord) :
  getGistApplyLinks h ss w = (Ok links, w1) ->
  assocGet (gistLinksId ss +:+ ":mix.md") (gistLinksCache w1) = Some links /\
  (forall w2, gistLinksCache w2 = gistLinksCache w1 ->
     getGistApplyLinks h ss w2 = (Ok links, w2)) /\
  (exists more, requests w1 = requests w ++ more /\ length more <= 1) /\
  (assocGet (gistLinksId ss +:+ ":mix.md") (gistLinksCache w) <> None -> w1 = w).
Proof.
  intros Hrun.
  assert (assocGet (gistLinksId ss +:+ ":mix.md") (gistLinksCache w1) = Some links)
    as Hcached.
  { apply getGistApplyLinks_run in Hrun
      as [(Hc & ->) | (_ & files & url & w0 & _ & ->)]; [exact Hc|].
    cbn [gistLinksCache cacheLinks]. apply assocGet_assocSet. }
  split; [exact Hcached|]. split; [|split].
  - intros w2 Hsame. unfold getGistApplyLinks. now rewrite Hsame, Hcached.
  - apply getGistApplyLinks_run in Hrun
      as [(_ & ->) | (_ & files & url & w0 & Hfiles & ->)].
    + exists []. rewrite app_nil_r. split; [reflexivity | cbn; lia].
    + cbn [requests cacheLinks].
      apply getGistFiles_run in Hfiles
        as [(_ & _ & ->) | (_ & route & gistRef & _ & ->)].
      * exists []. rewrite app_nil_r. split; [reflexivity | cbn; lia].
      * exists [routeUrl route]. split; [reflexivity | cbn; lia].
  - intros Hhit.
    apply getGistApplyLinks_run in Hrun as [(_ & ->) | (Hc & _)]; [reflexivity|congruence].
Qed.

Lemma getGistApplyLinks_cached_witness :
  let w := startWorld exampleNetwork ∅ in
  let w1 := snd (getGistApplyLinks (testHost exampleNetwork) quiet w) in
  let w2 :=
    Build_World (testHost exampleNetwork) diskWithTarget ["y"] [Log "later"]
                [] (gistLinksCache w1) ["https://example.org/earlier"] in
  requests w1 = ["https://api.github.com/gists/registry"] /\
  getGistApplyLinks (testHost exampleNetwork) quiet w2 = (Ok exampleLinks, w2).
Proof.
  cbv zeta.
  assert (getGistApplyLinks (testHost exampleNetwork) quiet (startWorld exampleNetwork ∅)
          = (Ok exampleLinks,
             snd (getGistApplyLinks (testHost exampleNetwork) quiet
                    (startWorld exampleNetwork ∅)))) as Hrun by evaluate.
  destruct (getGistApplyLinks_cached _ _ _ _ _ Hrun) as (_ & Hagain & _).
  split; [evaluate|].
  apply Hagain. reflexivity.
Defined.

(* ===================================================================== *)
(** ** The JSON patch step on a file *)
(* ===================================================================== *)

Lemma patchJsonFile_run (h : Host) (targetFile patchFile : string) (w w' : World h)
    (r : result unit) :
  existsSync h (fs w) targetFile = true ->
  patchJsonFile h targetFile patchFile w = (r, w') ->
  (r = Ok tt /\ trace w' = trace w ++ [FsWrite targetFile]) \/ (r <> Ok tt /\ w' = w).
Proof.
  intros Hex. unfold patchJsonFile.
  unfold bind at 1, getFs at 1. rewrite Hex. cbn [negb].
  unfold bind at 1, ret at 1. unfold bind at 1, getFs at 1.
  unfold bind at 1, lift at 1.
  destruct (readFileSync h (fs w) targetFile) as [targetText|msg|why];
    try (intros [= <- <-]; right; split; [discriminate | reflexivity]).
  unfold bind at 1, lift at 1.
  destruct (JSON_parse h targetText) as [targetJson|msg|why];
    try (intros [= <- <-]; right; split; [discriminate | reflexivity]).
  unfold bind at 1, lift at 1.
  destruct (readFileSync h (fs w) patchFile) as [patchText|msg|why];
    try (intros [= <- <-]; right; split; [discriminate | reflexivity]).
  unfold bind at 1, lift at 1.
  destruct (JSON_parse h patchText) as [patchJson|msg|why];
    try (intros [= <- <-]; right; split; [discriminate | reflexivity]).
  unfold bind at 1, lift at 1.
  destruct (Patch.applyPatch targetJson patchJson) as [patched|msg|why];
    try (intros [= <- <-]; right; split; [discriminate | reflexivity]).
  unfold fsMutate.
  destruct (writeFileSync h (fs w) targetFile _) as [f'|msg|why];
    intros [= <- <-]; [left; split; reflexivity | ..];
    right; split; (discriminate || reflexivity).
Qed.

(** X19.  Patching a target that exists is all or nothing: either the step
    completes and the only thing done is one write of the target, or it
    fails (unreadable file, malformed JSON, a patch that cannot be
    applied) and the world is exactly as before. *)
Theorem patchJsonFile_all_or_nothing (h : Host) (targetFile patchFile : string)
    (w : World h) :
  existsSync h (fs w) targetFile = true ->
  (fst (patchJsonFile h targetFile patchFile w) = Ok tt /\
   trace (snd (patchJsonFile h targetFile patchFile w)) = trace w ++ [FsWrite targetFile]) \/
  (fst (patchJsonFile h targetFile patchFile w) <> Ok tt /\
   snd (patchJsonFile h targetFile patchFile w) = w).
Proof.
  intros Hex.
  destruct (patchJsonFile h targetFile patchFile w) as [r w'] eqn:E.
  exact (patchJsonFile_run _ _ _ _ _ _ Hex E).
Qed.

Lemma patchJsonFile_all_or_nothing_witness :
  (fst (patchJsonFile (testHost []) "/work/app.json" "/work/app.json.patch"
          (startWorld [] diskWithTarget)) = Ok tt /\
   trace (snd (patchJsonFile (testHost []) "/work/app.json" "/work/app.json.patch"
                 (startWorld [] diskWithTarget)))
   = trace (startWorld [] diskWithTarget) ++ [FsWrite "/work/app.json"]) \/
  (fst (patchJsonFile (testHost []) "/work/app.json" "/work/app.json.patch"
          (startWorld [] diskWithTarget)) <> Ok tt /\
   snd (patchJsonFile (testHost []) "/work/app.json" "/work/app.json.patch"
          (startWorld [] diskWithTarget)) = startWorld [] diskWithTarget).
Proof.
  apply (patchJsonFile_all_or_nothing (testHost []) "/work/app.json" "/work/app.json.patch"
           (startWorld [] diskWithTarget)).
  evaluate.
Defined.

(* ===================================================================== *)
(** ** Forms of a bundle identifier *)
(* ===================================================================== *)

Lemma prefix_weaken (q a b : string) :
  String.prefix q a = true -> String.prefix q (a +:+ b) = true.
Proof.
  revert a. induction q as [|c q IH]; intros a H; [now destruct (a +:+ b)|].
  destruct a as [|d a]; [discriminate|]. rewrite append_cons. simpl in *.
  destruct (ascii_dec c d); [now apply IH | discriminate].
Qed.

Lemma includes_weaken (a b sub : string) :
  JS.includes a sub = true -> JS.includes (a +:+ b) sub = true.
Proof.
  induction a as [|c a IH]; cbn [JS.includes]; intros H.
  - rewrite orb_false_r in H. destruct sub; [|discriminate]. apply includes_empty.
  - rewrite append_cons. cbn [JS.includes]. apply orb_true_iff.
    apply orb_true_iff in H as [H|H]; [left | right; now apply IH].
    rewrite <- append_cons. now apply prefix_weaken.
Qed.

Lemma prefix_anyChar (q s : string) (c : ascii) :
  String.prefix q s = true -> JS.anyChar (Ascii.eqb c) q = true ->
  JS.anyChar (Ascii.eqb c) s = true.
Proof.
  intros Hp Hq. rewrite (prefix_append _ _ Hp), anyChar_append, Hq. reflexivity.
Qed.

Lemma includes_anyChar (s sub : string) (c : ascii) :
  JS.includes s sub = true -> JS.anyChar (Ascii.eqb c) sub = true ->
  JS.anyChar (Ascii.eqb c) s = true.
Proof.
  intros Hi Hsub. induction s as [|d s IH]; cbn [JS.includes] in Hi.
  - rewrite orb_false_r in Hi. exact (prefix_anyChar _ _ _ Hi Hsub).
  - apply orb_true_iff in Hi as [Hi|Hi]; [exact (prefix_anyChar _ _ _ Hi Hsub)|].
    cbn [JS.anyChar]. rewrite (IH Hi). apply orb_true_r.
Qed.

Lemma slashless_no_scheme (s : string) :
  JS.anyChar (Ascii.eqb "/"%char) s = false -> JS.includes s "://" = false.
Proof.
  intros H. destruct (JS.includes s "://") eqn:E; [|reflexivity].
  rewrite (includes_anyChar _ _ "/"%char E eq_refl) in H. discriminate.
Qed.

(** X20.  The page of a gist under its owner names the same bundle as the bare
    id: the same request is made and the same files come back, with the
    page as the bundle's URL.  (The owner's name must not be as long as
    an id, 20 or 32 code units: such a name is taken for part of the id.) *)
Theorem fetchGistFiles_page (h : Host) (owner id : string) :
  JS.anyChar (Ascii.eqb "/"%char) owner = false ->
  JS.anyChar (Ascii.eqb "/"%char) id = false ->
  String.length owner <> GIST_ID_LENGTH_SHORT ->
  String.length owner <> GIST_ID_LENGTH_LONG ->
  fetchGistFiles h (gistPage owner id)
  = rbind (fetchGistFiles h id) (fun found => Ok (fst found, gistPage owner id)) /\
  (forall files url, fetchGistFiles h id = Ok (files, url) ->
     url = "https://gist.github.com/" +:+ id).
Proof.
  intros Howner Hid Hshort Hlong.
  assert (Hbare : fetchGistFiles h id
                  = rbind (getJsonRoute h ("/gists/" +:+ id)) (fun json =>
                      rbind (fromJsonGist json id) (fun files =>
                        Ok (files, "https://gist.github.com/" +:+ id)))).
  { unfold fetchGistFiles, gistRoute. now rewrite (slashless_no_scheme _ Hid). }
  split.
  - rewrite Hbare. unfold fetchGistFiles, gistRoute, gistPage.
    rewrite (includes_weaken "https://gist.github.com/" _ "://" eq_refl). cbn [negb].
    unfold JS.startsWith.
    rewrite (prefix_weaken "https://gist.github.com/" "https://gist.github.com/" _ eq_refl).
    unfold JS.substringFrom. rewrite drop_append.
    change (owner +:+ "/" +:+ id) with (JS.join "/" [owner; id]).
    rewrite (split_join_single "/"%char [owner; id]);
      [|discriminate | repeat constructor; assumption].
    apply Nat.eqb_neq in Hshort, Hlong. rewrite Hshort, Hlong. cbn [orb rbind].
    destruct (getJsonRoute h ("/gists/" +:+ id)) as [json|msg|why]; [|reflexivity..].
    cbn [rbind]. destruct (fromJsonGist json id); reflexivity.
  - intros files url. rewrite Hbare.
    destruct (getJsonRoute h ("/gists/" +:+ id)) as [json|msg|why]; try discriminate.
    cbn [rbind]. destruct (fromJsonGist json id); try discriminate.
    now intros [= _ <-].
Qed.

Lemma fetchGistFiles_page_witness :
  fetchGistFiles (testHost exampleNetwork) (gistPage "gistlyn" "abc")
  = rbind (fetchGistFiles (testHost exampleNetwork) "abc")
          (fun found => Ok (fst found, gistPage "gistlyn" "abc")).
Proof.
  apply (fetchGistFiles_page (testHost exampleNetwork) "gistlyn" "abc");
    [reflexivity | reflexivity | discriminate | discriminate].
Defined.

(* ===================================================================== *)
(** ** What is queued for writing *)
(* ===================================================================== *)

Section Queue.

Context (h : Host) (p : Process) (ss : Session) (f : FS h).
Context (gistAlias : string) (to projName : option string) (url : string).

Lemma resolveEntry_queued (files : Bundle) (acc acc' : list ResolvedFile * option string)
    (entry : string * string) :
  In entry files ->
  Forall (queued h p ss f to projName (" required by " +:+ aliasLabel gistAlias +:+ url) files) (fst acc) ->
  resolveEntry h p ss f gistAlias to projName url acc entry = Ok acc' ->
  Forall (queued h p ss f to projName (" required by " +:+ aliasLabel gistAlias +:+ url) files) (fst acc').
Proof.
  intros Hin Hacc. unfold resolveEntry.
  destruct entry as [fileName fileContent], acc as [resolvedFiles initFile].
  cbn [fst] in Hacc.
  destruct (JS.includes fileName "..") eqn:Hdots; [discriminate|].
  destruct (resolveBasePath h p f to (" required by " +:+ aliasLabel gistAlias +:+ url)) as [basePath|msg|why] eqn:Hbase;
    try discriminate.
  cbn [rbind].
  destruct (String.eqb fileName "_init") eqn:Hinit; [now intros [= <-]|].
  destruct ((preserve ss || JS.endsWith fileName "?")
            && existsSync h f (resolveFilePath h p ss f fileName basePath projName to))
    eqn:Hskip; intros [= <-]; [exact Hacc|].
  cbn [fst]. apply Forall_app. split; [exact Hacc|].
  constructor; [|constructor].
  unfold queued. cbn [originalName content path].
  split; [now apply String.eqb_neq|]. split; [exact Hdots|].
  split; [now exists fileContent|]. split; [now exists basePath|].
  intros Hno. rewrite Hno in Hskip. exact Hskip.
Qed.

Lemma resolveEntries_queued (files : Bundle) :
  forall (rest : Bundle) (acc acc' : list ResolvedFile * option string),
    (forall entry, In entry rest -> In entry files) ->
    Forall (queued h p ss f to projName (" required by " +:+ aliasLabel gistAlias +:+ url) files) (fst acc) ->
    resolveEntries h p ss f gistAlias to projName url acc rest = Ok acc' ->
    Forall (queued h p ss f to projName (" required by " +:+ aliasLabel gistAlias +:+ url) files) (fst acc').
Proof.
  induction rest as [|entry rest IH]; intros acc acc' Hsub Hacc.
  - now intros [= <-].
  - cbn [resolveEntries].
    destruct (resolveEntry h p ss f gistAlias to projName url acc entry) as [acc1|msg|why]
      eqn:E; try discriminate.
    cbn [rbind]. apply IH; [intros e He; apply Hsub; now right|].
    eapply resolveEntry_queued; [apply Hsub; now left | exact Hacc | exact E].
Qed.

End Queue.

(** X21.  Every file the first loop of an application queues for writing is an
    entry of the bundle other than the init script, with no [..] in its
    name, its content substituted and its destination resolved; and a
    file that must not be overwritten (the session preserves files, or
    the name ends in a question mark) is queued only when nothing exists
    at its destination. *)
Theorem resolveEntries_queue (h : Host) (p : Process) (ss : Session) (f : FS h)
    (gistAlias : string) (to projName : option string) (url : string) (files : Bundle)
    (resolvedFiles : list ResolvedFile) (initFile : option string) :
  resolveEntries h p ss f gistAlias to projName url ([], None) files
    = Ok (resolvedFiles, initFile) ->
  Forall (queued h p ss f to projName
            (" required by " +:+ aliasLabel gistAlias +:+ url) files) resolvedFiles.
Proof.
  intros E.
  exact (resolveEntries_queued h p ss f gistAlias to projName url files files
           ([], None) (resolvedFiles, initFile) (fun _ H => H) (List.Forall_nil _) E).
Qed.

Lemma resolveEntries_queue_witness :
  Forall (queued (testHost []) posix quiet diskWithTarget None (Some "Acme")
            (" required by " +:+ aliasLabel "redis" +:+ "abc")
            [("_init", "dotnet restore"); ("app.json?", "{}"); ("MyApp.cs", "class MyApp")])
    [{| path := "/work/Acme.cs"; content := "class Acme"; originalName := "MyApp.cs" |}].
Proof.
  apply (resolveEntries_queue (testHost []) posix quiet diskWithTarget "redis" None
           (Some "Acme") "abc" _ _ (Some "dotnet restore")).
  evaluate.
Defined.

(* ===================================================================== *)
(** ** The directory scans *)
(* ===================================================================== *)

Section Scans.

Context (h : Host) (f : FS h).

Lemma findFiles_never_throws (pattern : string) (depth : nat) :
  forall dir msg, findFiles h f dir pattern depth <> Throw msg.
Proof.
  induction depth as [|depth IH]; intros dir msg; [discriminate|].
  cbn [findFiles]. destruct (readdirSync h f dir) as [entries|?|?]; try discriminate.
  match goal with |- ?loop entries [] <> _ =>
    enough (Hloop : forall results, loop entries results <> Throw msg) by apply Hloop
  end.
  induction entries as [|entry rest IHe]; intros results; [discriminate|].
  destruct (JS.startsWith (d_name entry) "."); [apply IHe|].
  destruct (d_isDirectory entry).
  - destruct (negb (skippedDirectory (d_name entry))); [|apply IHe].
    specialize (IH (path_join h dir (d_name entry)) msg).
    destruct (findFiles h f _ pattern depth) as [found|m|y]; cbn [rbind];
      [apply IHe | congruence | discriminate].
  - destruct (d_isFile entry); [|apply IHe].
    destruct (JS.includes pattern "*").
    + destruct (regexTest h _ (d_name entry)) as [[]|?|?];
        try apply IHe; discriminate.
    + destruct (String.eqb (d_name entry) pattern); apply IHe.
Qed.

Lemma findDirectories_never_throws (name : string) (depth : nat) :
  forall dir msg, findDirectories h f dir name depth <> Throw msg.
Proof.
  induction depth as [|depth IH]; intros dir msg; [discriminate|].
  cbn [findDirectories]. destruct (readdirSync h f dir) as [entries|?|?]; try discriminate.
  match goal with |- ?loop entries [] <> _ =>
    enough (Hloop : forall results, loop entries results <> Throw msg) by apply Hloop
  end.
  induction entries as [|entry rest IHe]; intros results; [discriminate|].
  destruct (JS.startsWith (d_name entry) "."); [apply IHe|].
  destruct (d_isDirectory entry); [|apply IHe].
  destruct (negb (skippedDirectory (d_name entry))); [|apply IHe].
  specialize (IH (path_join h dir (d_name entry)) msg).
  destruct (findDirectories h f _ name depth) as [found|m|y]; cbn [rbind];
    [apply IHe | congruence | discriminate].
Qed.

Lemma findFiles_answers (pattern : string) (depth : nat) :
  scanAnswered h f pattern ->
  forall dir, exists found, findFiles h f dir pattern depth = Ok found.
Proof.
  intros [Hdir Hre]. unfold patternSource in Hre.
  induction depth as [|depth IH]; intros dir; [now exists []|].
  cbn [findFiles]. pose proof (Hdir dir) as Hd.
  destruct (readdirSync h f dir) as [entries|?|why]; [|now exists []|now destruct (Hd why)].
  clear Hd.
  match goal with |- exists found, ?loop entries [] = _ =>
    enough (Hloop : forall results, exists found, loop entries results = Ok found)
      by apply Hloop
  end.
  induction entries as [|entry rest IHe]; intros results; [now exists results|].
  destruct (JS.startsWith (d_name entry) "."); [apply IHe|].
  destruct (d_isDirectory entry).
  - destruct (negb (skippedDirectory (d_name entry))); [|apply IHe].
    destruct (IH (path_join h dir (d_name entry))) as [found ->]. cbn [rbind]. apply IHe.
  - destruct (d_isFile entry); [|apply IHe].
    destruct (JS.includes pattern "*").
    + pose proof (Hre (d_name entry)) as Hr.
      destruct (regexTest h _ (d_name entry)) as [[]|?|why];
        [apply IHe | apply IHe | now exists results | now destruct (Hr why)].
    + destruct (String.eqb (d_name entry) pattern); apply IHe.
Qed.

Lemma findDirectories_answers (name : string) (depth : nat) :
  (forall dir why, readdirSync h f dir <> Beyond why) ->
  forall dir, exists found, findDirectories h f dir name depth = Ok found.
Proof.
  intros Hdir.
  induction depth as [|depth IH]; intros dir; [now exists []|].
  cbn [findDirectories]. pose proof (Hdir dir) as Hd.
  destruct (readdirSync h f dir) as [entries|?|why]; [|now exists []|now destruct (Hd why)].
  clear Hd.
  match goal with |- exists found, ?loop entries [] = _ =>
    enough (Hloop : forall results, exists found, loop entries results = Ok found)
      by apply Hloop
  end.
  induction entries as [|entry rest IHe]; intros results; [now exists results|].
  destruct (JS.startsWith (d_name entry) "."); [apply IHe|].
  destruct (d_isDirectory entry); [|apply IHe].
  destruct (negb (skippedDirectory (d_name entry))); [|apply IHe].
  destruct (IH (path_join h dir (d_name entry))) as [found ->]. cbn [rbind]. apply IHe.
Qed.

(** A pattern the host turns down for every name finds nothing. *)
Lemma findFiles_bad_pattern (pattern : string) (depth : nat) :
  JS.includes pattern "*" = true ->
  (forall name, exists msg, regexTest h (patternSource pattern) name = Throw msg) ->
  (forall dir why, readdirSync h f dir <> Beyond why) ->
  forall dir, findFiles h f dir pattern depth = Ok [].
Proof.
  intros Hstar Hbad Hdir. unfold patternSource in Hbad.
  induction depth as [|depth IH]; intros dir; [reflexivity|].
  cbn [findFiles]. rewrite Hstar. pose proof (Hdir dir) as Hd.
  destruct (readdirSync h f dir) as [entries|?|why]; [|reflexivity|now destruct (Hd why)].
  clear Hd.
  induction entries as [|entry rest IHe]; [reflexivity|].
  destruct (JS.startsWith (d_name entry) "."); [apply IHe|].
  destruct (d_isDirectory entry).
  - destruct (negb (skippedDirectory (d_name entry))); [|apply IHe].
    rewrite (IH (path_join h dir (d_name entry))). cbn [rbind app]. apply IHe.
  - destruct (d_isFile entry); [|apply IHe].
    destruct (Hbad (d_name entry)) as [msg ->]. reflexivity.
Qed.

(** The scan ends at the first file the pattern is turned down for. *)
Lemma findFiles_ends (pattern : string) (depth : nat) (dir : string)
    (before after : list Dirent) (entry : Dirent) (msg : string) :
  readdirSync h f dir = Ok (before ++ entry :: after) ->
  Forall (fun e => passedOver e = true) before ->
  passedOver entry = false -> d_isDirectory entry = false ->
  JS.includes pattern "*" = true ->
  regexTest h (patternSource pattern) (d_name entry) = Throw msg ->
  findFiles h f dir pattern (S depth) = Ok [].
Proof.
  intros Hread Hbefore Hentry Hnodir Hstar Hbad. unfold patternSource in Hbad.
  cbn [findFiles]. rewrite Hread, Hstar. clear Hread.
  induction Hbefore as [|e before He _ IH].
  - cbn [app]. unfold passedOver in Hentry. rewrite Hnodir in Hentry.
    apply orb_false_iff in Hentry as [Hvis Hfile]. apply negb_false_iff in Hfile.
    now rewrite Hvis, Hnodir, Hfile, Hbad.
  - cbn [app]. unfold passedOver in He.
    destruct (JS.startsWith (d_name e) "."); [exact IH|]. cbn [orb] in He.
    destruct (d_isDirectory e).
    + rewrite He. cbn [negb]. exact IH.
    + apply negb_true_iff in He. rewrite He. exact IH.
Qed.

(** A file of the directory with the name asked for is found. *)
Lemma findFiles_finds (pattern : string) (depth : nat) (dir : string)
    (entries : list Dirent) (entry : Dirent) (found : list string) :
  readdirSync h f dir = Ok entries -> In entry entries ->
  JS.startsWith (d_name entry) "." = false ->
  d_isDirectory entry = false -> d_isFile entry = true ->
  JS.includes pattern "*" = false -> d_name entry = pattern ->
  findFiles h f dir pattern (S depth) = Ok found ->
  In (path_join h dir (d_name entry)) found.
Proof.
  intros Hread Hin Hvis Hnodir Hfile Hstar Hname.
  cbn [findFiles]. rewrite Hread, Hstar. clear Hread.
  match goal with |- ?loop entries [] = _ -> _ =>
    enough (Hloop : forall results found,
              loop entries results = Ok found ->
              incl results found /\ In (path_join h dir (d_name entry)) found)
      by (intros E; exact (proj2 (Hloop _ _ E)));
    assert (Hincl : forall es results found,
              loop es results = Ok found -> incl results found)
  end.
  { induction es as [|e rest IHe]; intros results res.
    - intros [= <-]. apply incl_refl.
    - destruct (JS.startsWith (d_name e) "."); [apply IHe|].
      destruct (d_isDirectory e).
      + destruct (negb (skippedDirectory (d_name e))); [|apply IHe].
        destruct (findFiles h f _ pattern depth) as [nested|?|?]; cbn [rbind];
          try discriminate.
        intros E. apply IHe in E. intros x Hx. apply E, in_or_app. now left.
      + destruct (d_isFile e); [|apply IHe].
        destruct (String.eqb (d_name e) pattern); [|apply IHe].
        intros E. apply IHe in E. intros x Hx. apply E, in_or_app. now left. }
  induction entries as [|e rest IHe]; intros results res; [destruct Hin|].
  destruct Hin as [->|Hin].
  - rewrite Hvis, Hnodir, Hfile, Hname, String.eqb_refl.
    intros E. pose proof (Hincl _ _ _ E) as Hacc. split.
    + intros x Hx. apply Hacc, in_or_app. now left.
    + apply Hacc, in_or_app. right. now left.
  - specialize (IHe Hin).
    destruct (JS.startsWith (d_name e) "."); [apply IHe|].
    destruct (d_isDirectory e).
    + destruct (negb (skippedDirectory (d_name e))); [|apply IHe].
      destruct (findFiles h f _ pattern depth) as [nested|?|?]; cbn [rbind];
        try discriminate.
      intros E. apply IHe in E as [E1 E2]. split; [|exact E2].
      intros x Hx. apply E1, in_or_app. now left.
    + destruct (d_isFile e); [|apply IHe].
      destruct (String.eqb (d_name e) pattern); [|apply IHe].
      intros E. apply IHe in E as [E1 E2]. split; [|exact E2].
      intros x Hx. apply E1, in_or_app. now left.
Qed.

(** A directory of the directory with the name asked for is found. *)
Lemma findDirectories_finds (name : string) (depth : nat) (dir : string)
    (entries : list Dirent) (entry : Dirent) (found : list string) :
  readdirSync h f dir = Ok entries -> In entry entries ->
  JS.startsWith (d_name entry) "." = false ->
  d_isDirectory entry = true -> d_name entry = name ->
  findDirectories h f dir name (S depth) = Ok found ->
  In (path_join h dir (d_name entry)) found.
Proof.
  intros Hread Hin Hvis Hisdir Hname.
  cbn [findDirectories]. rewrite Hread. clear Hread.
  match goal with |- ?loop entries [] = _ -> _ =>
    enough (Hloop : forall results found,
              loop entries results = Ok found ->
              incl results found /\ In (path_join h dir (d_name entry)) found)
      by (intros E; exact (proj2 (Hloop _ _ E)));
    assert (Hincl : forall es results found,
              loop es results = Ok found -> incl results found)
  end.
  { induction es as [|e rest IHe]; intros results res.
    - intros [= <-]. apply incl_refl.
    - destruct (JS.startsWith (d_name e) "."); [apply IHe|].
      destruct (d_isDirectory e); [|apply IHe].
      destruct (negb (skippedDirectory (d_name e))).
      + destruct (findDirectories h f _ name depth) as [nested|?|?]; cbn [rbind];
          try discriminate.
        intros E. apply IHe in E. intros x Hx. apply E, in_or_app. left.
        destruct (String.eqb (d_name e) name); [apply in_or_app; now left | exact Hx].
      + intros E. apply IHe in E. intros x Hx. apply E.
        destruct (String.eqb (d_name e) name); [apply in_or_app; now left | exact Hx]. }
  induction entries as [|e rest IHe]; intros results res; [destruct Hin|].
  destruct Hin as [->|Hin].
  - rewrite Hvis, Hisdir, Hname, String.eqb_refl.
    destruct (negb (skippedDirectory name)).
    + destruct (findDirectories h f _ name depth) as [nested|?|?]; cbn [rbind];
        try discriminate.
      intros E. pose proof (Hincl _ _ _ E) as Hacc. split.
      * intros x Hx. apply Hacc, in_or_app. left. apply in_or_app. now left.
      * apply Hacc, in_or_app. left. apply in_or_app. right. now left.
    + intros E. pose proof (Hincl _ _ _ E) as Hacc. split.
      * intros x Hx. apply Hacc, in_or_app. now left.
      * apply Hacc, in_or_app. right. now left.
  - specialize (IHe Hin).
    destruct (JS.startsWith (d_name e) "."); [apply IHe|].
    destruct (d_isDirectory e); [|apply IHe].
    destruct (negb (skippedDirectory (d_name e))).
    + destruct (findDirectories h f _ name depth) as [nested|?|?]; cbn [rbind];
        try discriminate.
      intros E. apply IHe in E as [E1 E2]. split; [|exact E2].
      intros x Hx. apply E1, in_or_app. left.
      destruct (String.eqb (d_name e) name); [apply in_or_app; now left | exact Hx].
    + intros E. apply IHe in E as [E1 E2]. split; [|exact E2].
      intros x Hx. apply E1.
      destruct (String.eqb (d_name e) name); [apply in_or_app; now left | exact Hx].
Qed.

End Scans.

(** X22.  The two directory scans never raise, and they return whenever the
    host answers each listing and each test of the pattern.  A scan of
    depth zero finds nothing, and so does the scan of a directory that
    cannot be read.  A pattern the host turns down ends the scan of a
    directory at the first file it is tried on, with what has been found
    (nothing, when only entries the scan passes over came before), and a
    pattern turned down for every name finds nothing anywhere.  Apart
    from that what is there is found: a visible file of the directory
    with the name asked for (a pattern without a star) is among the files
    returned, and a visible directory of the directory with the name
    asked for is among the directories returned. *)
Theorem scans_never_raise (h : Host) (f : FS h) (dir pattern : string) (depth : nat) :
  (forall msg, findFiles h f dir pattern depth <> Throw msg /\
               findDirectories h f dir pattern depth <> Throw msg) /\
  (scanAnswered h f pattern ->
   exists found dirs, findFiles h f dir pattern depth = Ok found /\
                      findDirectories h f dir pattern depth = Ok dirs) /\
  (findFiles h f dir pattern 0 = Ok [] /\ findDirectories h f dir pattern 0 = Ok []) /\
  (forall msg, readdirSync h f dir = Throw msg ->
     findFiles h f dir pattern (S depth) = Ok [] /\
     findDirectories h f dir pattern (S depth) = Ok []) /\
  (forall before entry after msg,
     readdirSync h f dir = Ok (before ++ entry :: after) ->
     Forall (fun e => passedOver e = true) before ->
     passedOver entry = false -> d_isDirectory entry = false ->
     JS.includes pattern "*" = true ->
     regexTest h (patternSource pattern) (d_name entry) = Throw msg ->
     findFiles h f dir pattern (S depth) = Ok []) /\
  (JS.includes pattern "*" = true ->
   (forall name, exists msg, regexTest h (patternSource pattern) name = Throw msg) ->
   (forall d why, readdirSync h f d <> Beyond why) ->
   findFiles h f dir pattern depth = Ok []) /\
  (forall entries entry found,
     readdirSync h f dir = Ok entries -> In entry entries ->
     JS.startsWith (d_name entry) "." = false ->
     d_isDirectory entry = false -> d_isFile entry = true ->
     JS.includes pattern "*" = false -> d_name entry = pattern ->
     findFiles h f dir pattern (S depth) = Ok found ->
     In (path_join h dir (d_name entry)) found) /\
  (forall entries entry dirs,
     readdirSync h f dir = Ok entries -> In entry entries ->
     JS.startsWith (d_name entry) "." = false ->
     d_isDirectory entry = true -> d_name entry = pattern ->
     findDirectories h f dir pattern (S depth) = Ok dirs ->
     In (path_join h dir (d_name entry)) dirs).
Proof.
  split; [|split; [|split; [|split; [|split; [|split; [|split]]]]]].
  - intros msg. split; [apply findFiles_never_throws | apply findDirectories_never_throws].
  - intros Hhost.
    destruct (findFiles_answers h f pattern depth Hhost dir) as [found Hfound].
    destruct (findDirectories_answers h f pattern depth (proj1 Hhost) dir) as [dirs Hdirs].
    now exists found, dirs.
  - split; reflexivity.
  - intros msg Hread. cbn [findFiles findDirectories]. rewrite Hread. split; reflexivity.
  - intros before entry after msg. apply findFiles_ends.
  - intros Hstar Hbad Hdir. now apply findFiles_bad_pattern.
  - intros entries entry found. apply findFiles_finds.
  - intros entries entry dirs. apply findDirectories_finds.
Qed.

Lemma scans_never_raise_witness :
  scanAnswered (testHost []) scanDisk "*.csproj" /\
  (exists found dirs,
     findFiles (testHost []) scanDisk "/work" "*.csproj" 10 = Ok found /\
     findDirectories (testHost []) scanDisk "/work" "*.csproj" 10 = Ok dirs) /\
  findFiles (testHost []) scanDisk "/work" "*.csproj" 10 = Ok ["/work/src/App.csproj"] /\
  findDirectories (testHost []) scanDisk "/work" "src" 10 = Ok ["/work/src"] /\
  findFiles (testHost []) scanDisk "/missing" "*.csproj" 10 = Ok [].
Proof.
  assert (scanAnswered (testHost []) scanDisk "*.csproj") as Hhost.
  { split.
    - intros dir why. cbn [readdirSync testHost]. unfold TestHost.readdir.
      destruct (scanDisk !! dir) as [[]|]; discriminate.
    - intros name why. discriminate. }
  split; [exact Hhost|].
  split; [exact (proj1 (proj2 (scans_never_raise (testHost []) scanDisk "/work" "*.csproj" 10))
                   Hhost)|].
  split; [evaluate|]. split; [evaluate|].
  apply (proj1 (proj2 (proj2 (proj2
           (scans_never_raise (testHost []) scanDisk "/missing" "*.csproj" 9))))
           "ENOENT: no such file or directory, scandir '/missing'").
  evaluate.
Defined.

(* ===================================================================== *)
(** ** Tag search *)
(* ===================================================================== *)

Lemma comma_upperChar (c : ascii) :
  Ascii.eqb ","%char (JS.upperChar c) = Ascii.eqb ","%char c.
Proof. destruct c as [[] [] [] [] [] [] [] []]; vm_compute; reflexivity. Qed.

Lemma isSpace_upperChar (c : ascii) : JS.isSpace (JS.upperChar c) = JS.isSpace c.
Proof. destruct c as [[] [] [] [] [] [] [] []]; vm_compute; reflexivity. Qed.

Lemma isEmpty_mapChars (f : ascii -> ascii) (s : string) :
  JS.isEmpty (JS.mapChars f s) = JS.isEmpty s.
Proof. now destruct s. Qed.

Lemma trimStart_upper (s : string) :
  JS.trimStart (JS.mapChars JS.upperChar s) = JS.mapChars JS.upperChar (JS.trimStart s).
Proof.
  induction s as [|c r IH]; [reflexivity|].
  cbn [JS.mapChars JS.trimStart]. rewrite isSpace_upperChar.
  destruct (JS.isSpace c); [exact IH | reflexivity].
Qed.

Lemma trimEnd_upper (s : string) :
  JS.trimEnd (JS.mapChars JS.upperChar s) = JS.mapChars JS.upperChar (JS.trimEnd s).
Proof.
  induction s as [|c r IH]; [reflexivity|].
  cbn [JS.mapChars JS.trimEnd]. rewrite isSpace_upperChar, IH, isEmpty_mapChars.
  now destruct (JS.isSpace c && JS.isEmpty (JS.trimEnd r)).
Qed.

Lemma trim_upper (s : string) : JS.trim (JS.mapChars JS.upperChar s) = JS.mapChars JS.upperChar (JS.trim s).
Proof. unfold JS.trim. now rewrite trimStart_upper, trimEnd_upper. Qed.

Lemma toLowerCase_upper (s : string) :
  JS.toLowerCase (JS.mapChars JS.upperChar s) = JS.toLowerCase s.
Proof.
  unfold JS.toLowerCase. induction s as [|c r IH]; [reflexivity|].
  cbn [JS.mapChars]. now rewrite lowerChar_upperChar, IH.
Qed.

Lemma splitAux_comma_upper (s : string) :
  JS.splitAux "," 0 (JS.mapChars JS.upperChar s)
  = (JS.mapChars JS.upperChar (fst (JS.splitAux "," 0 s)),
     map (JS.mapChars JS.upperChar) (snd (JS.splitAux "," 0 s))).
Proof.
  induction s as [|c r IH]; [reflexivity|].
  cbn [JS.mapChars JS.splitAux]. rewrite !prefix_single, comma_upperChar.
  change (String.length "," - 1) with 0. rewrite IH.
  destruct (JS.splitAux "," 0 r) as [q qs]. cbn [fst snd].
  now destruct (Ascii.eqb ","%char c).
Qed.

Lemma split_comma_upper (s : string) :
  JS.split "," (JS.mapChars JS.upperChar s) = map (JS.mapChars JS.upperChar) (JS.split "," s).
Proof.
  unfold JS.split. cbn [JS.isEmpty]. rewrite splitAux_comma_upper.
  now destruct (JS.splitAux "," 0 s).
Qed.

Lemma matchesTag_unfold (link : Registry.LinkRecord) (tagName : string) :
  matchesTag link tagName
  = match Registry.tags link with
    | None => false
    | Some tags =>
        existsb (fun t =>
                   existsb (String.eqb (JS.toLowerCase t))
                     (map (fun s => JS.toLowerCase (JS.trim s)) (JS.split "," tagName)))
                tags
    end.
Proof.
  unfold matchesTag. destruct (Registry.tags link) as [tags|]; [|reflexivity].
  destruct (map _ (JS.split "," tagName)) as [|one [|two more]]; try reflexivity.
  induction tags as [|t tags IH]; [reflexivity|].
  cbn [existsb]. now rewrite orb_false_r, IH.
Qed.

Lemma upperWithin_append (a b : string) :
  upperWithin (a +:+ b) <-> upperWithin a /\ upperWithin b.
Proof.
  unfold upperWithin. rewrite anyChar_append. apply orb_false_iff.
Qed.

Lemma splitAux_upperWithin (s : string) :
  upperWithin s ->
  upperWithin (fst (JS.splitAux "," 0 s)) /\
  Forall upperWithin (snd (JS.splitAux "," 0 s)).
Proof.
  unfold upperWithin. induction s as [|c r IH]; [split; [reflexivity|constructor]|].
  cbn [JS.anyChar]. intros H. apply orb_false_iff in H as [Hc Hr].
  destruct (IH Hr) as [IH1 IH2].
  cbn [JS.splitAux]. change (String.length "," - 1) with 0.
  destruct (JS.splitAux "," 0 r) as [q qs]. cbn [fst snd] in *.
  destruct (String.prefix "," (String c r)); cbn [fst snd].
  - split; [reflexivity | now constructor].
  - split; [|assumption]. cbn [JS.anyChar]. now rewrite Hc, IH1.
Qed.

Lemma split_upperWithin (s : string) :
  upperWithin s -> Forall upperWithin (JS.split "," s).
Proof.
  intros H. unfold JS.split. cbn [JS.isEmpty].
  destruct (splitAux_upperWithin s H) as [H1 H2].
  destruct (JS.splitAux "," 0 s) as [q qs]. now constructor.
Qed.

Lemma matchesTag_upper (link : Registry.LinkRecord) (tagName : string) :
  matchesTag link (JS.mapChars JS.upperChar tagName) = matchesTag link tagName.
Proof.
  rewrite !matchesTag_unfold. destruct (Registry.tags link) as [tags|]; [|reflexivity].
  rewrite split_comma_upper, map_map.
  rewrite (map_ext (fun x => JS.toLowerCase (JS.trim (JS.mapChars JS.upperChar x)))
                   (fun s => JS.toLowerCase (JS.trim s))); [reflexivity|].
  intros s. now rewrite trim_upper, toLowerCase_upper.
Qed.

(** X23.  A link matches a tag search when one of its tags equals, letter case
    aside (for letters below code unit 256 as well as for A to Z), one of
    the comma-separated search tags with the blanks around it removed; so
    the search gives the same answer in upper case, as long as the search
    text holds no micro sign, sharp s or y with diaeresis (the first two
    do not come back from upper case, and the upper-case form of the
    third is no code unit below 256). *)
Theorem matchesTag_any_case (link : Registry.LinkRecord) (tagName : string) :
  (matchesTag link tagName = true <->
   exists tags t s,
     Registry.tags link = Some tags /\ In t tags /\ In s (JS.split "," tagName) /\
     JS.toLowerCase t = JS.toLowerCase (JS.trim s)) /\
  (upperWithin tagName ->
   matchesTag link (JS.toUpperCase tagName) = matchesTag link tagName).
Proof.
  split.
  - rewrite matchesTag_unfold. destruct (Registry.tags link) as [tags|].
    + rewrite existsb_exists. split.
      * intros (t & Ht & Hs). apply existsb_exists in Hs as (x & Hx & E).
        apply in_map_iff in Hx as (s & <- & Hs). apply String.eqb_eq in E.
        now exists tags, t, s.
      * intros (tags' & t & s & [= <-] & Ht & Hs & E). exists t. split; [exact Ht|].
        apply existsb_exists. exists (JS.toLowerCase (JS.trim s)).
        split; [apply in_map_iff; now exists s | now apply String.eqb_eq].
    + split; [discriminate | now intros (? & ? & ? & [=] & _)].
  - intros Hin. rewrite (toUpperCase_within _ Hin). apply matchesTag_upper.
Qed.

Lemma matchesTag_any_case_witness :
  matchesTag taggedLink "auth, DB" = true /\
  matchesTag accentedLink (JS.toUpperCase (" " +:+ accented)) = true.
Proof.
  split.
  - apply (proj1 (matchesTag_any_case taggedLink "auth, DB")).
    exists ["db"], "db", " DB".
    split; [reflexivity|]. split; [now left|]. split; [|reflexivity].
    right. left. reflexivity.
  - rewrite (proj2 (matchesTag_any_case accentedLink (" " +:+ accented))
               ltac:(reflexivity)).
    reflexivity.
Defined.

(** A search for a sharp s in upper case does not find the tag. *)
Example matchesTag_sharp_s :
  let sharp := String "223"%char EmptyString in
  let link := {| Registry.name := "s"; Registry.url := "https://gist.github.com/u/1";
                 Registry.user := Some "u"; Registry.to := None;
                 Registry.description := EmptyString; Registry.tags := Some [sharp];
                 Registry.gistId := Some "1"; Registry.repo := None;
                 Registry.modifiers := [] |} in
  matchesTag link sharp = true /\
  matchesTag link (JS.toUpperCase sharp) = false.
Proof. split; reflexivity. Qed.

(* ===================================================================== *)
(** ** The listing *)
(* ===================================================================== *)

Lemma usersOf_Some (links : list Registry.LinkRecord) :
  (exists users, usersOf links = Some users) <->
  Forall (fun l => Registry.user l <> None) links.
Proof.
  induction links as [|l rest IH]; cbn [usersOf].
  - split; [constructor | now exists []].
  - destruct (Registry.user l) as [u|] eqn:Hu.
    + split.
      * intros [users E]. constructor; [congruence|]. apply IH.
        destruct (usersOf rest) as [us|]; [now exists us | discriminate].
      * intros H. apply Forall_inv_tail in H. apply IH in H as [us ->]. now eexists.
    + split; [now intros [? [=]]|]. intros H. apply Forall_inv in H. congruence.
Qed.

Lemma logLines_ok {h} (lines : list string) (w : World h) :
  fst (logLines lines w) = Ok tt.
Proof.
  unfold logLines. revert w. induction lines as [|line rest IH]; intros w; [reflexivity|].
  cbn [forEach]. unfold bind, emit. apply IH.
Qed.

Lemma printGistLinks_run {h} (tool : string) (links : list Registry.LinkRecord)
    (tag usage : option string) (w w' : World h) (r : result unit) :
  printGistLinks tool links tag usage w = (r, w') ->
  (Forall (fun l => Registry.user l <> None) (listed links tag) /\ r = Ok tt) \/
  (~ Forall (fun l => Registry.user l <> None) (listed links tag) /\ r = Throw typeError).
Proof.
  unfold printGistLinks. unfold bind at 1, emit at 1. unfold bind at 1.
  match goal with |- context [match ?m ?w0 with _ => _ end] =>
    assert (Hhead : fst (m w0) = Ok tt)
  end.
  { destruct tag as [t|]; [|reflexivity].
    destruct (JS.isEmpty t); [reflexivity | apply logLines_ok]. }
  match type of Hhead with fst (?m ?w0) = _ => destruct (m w0) as [r1 w1] end.
  cbn [fst] in Hhead. subst r1.
  destruct (usersOf (listed links tag)) as [users|] eqn:Hu.
  - assert (Hall : Forall (fun l => Registry.user l <> None) (listed links tag))
      by (apply usersOf_Some; now exists users).
    unfold bind at 1.
    match goal with |- context [logLines ?ls w1] =>
      pose proof (logLines_ok ls w1) as Hrows; destruct (logLines ls w1) as [r2 w2]
    end.
    cbn [fst] in Hrows. subst r2. unfold bind at 1, emit at 1.
    intros E. left. split; [exact Hall|].
    apply (f_equal fst) in E. cbn [fst] in E. rewrite <- E.
    destruct usage as [u|]; [destruct (JS.isEmpty u)|];
      try apply logLines_ok; reflexivity.
  - intros [= <- _]. right. split; [|reflexivity].
    intros Hall. apply usersOf_Some in Hall as [users E]. congruence.
Qed.

(** X24.  A listing completes exactly when every link it shows has an author;
    one link without an author (a URL with no path after its host) makes
    it raise a type error instead, whatever the other links are. *)
Theorem printGistLinks_needs_authors {h} (tool : string)
    (links : list Registry.LinkRecord) (tag usage : option string) (w : World h) :
  (fst (printGistLinks tool links tag usage w) = Ok tt <->
   Forall (fun l => Registry.user l <> None) (listed links tag)) /\
  (fst (printGistLinks tool links tag usage w) <> Ok tt ->
   fst (printGistLinks tool links tag usage w) = Throw typeError).
Proof.
  destruct (printGistLinks tool links tag usage w) as [r w'] eqn:E.
  apply printGistLinks_run in E as [[Hall ->] | [Hnot ->]]; cbn [fst].
  - split; [tauto | congruence].
  - split; [split; [discriminate | tauto] | reflexivity].
Qed.

Lemma printGistLinks_needs_authors_witness :
  fst (printGistLinks (h := testHost []) "add-in"
         (Registry.parseGistLinks "- [plain](https://example.org) a link without a path")
         None None (startWorld [] ∅))
  = Throw typeError.
Proof.
  apply (printGistLinks_needs_authors (h := testHost []) "add-in").
  intros E. apply (printGistLinks_needs_authors (h := testHost []) "add-in") in E.
  apply Forall_inv in E. apply E. reflexivity.
Defined.

(* ===================================================================== *)
(** ** Apply pipeline *)
(* ===================================================================== *)

Section Keys.

Context {h : Host}.

Lemma keysKept_refl (w : World h) : keysKept w w.
Proof. reflexivity. Qed.

Lemma keysKept_trans (w1 w2 w3 : World h) : keysKept w1 w2 -> keysKept w2 w3 -> keysKept w1 w3.
Proof. unfold keysKept. congruence. Qed.

Lemma kept_once (w1 w2 w3 : World h) :
  keysKept w1 w2 -> readsAtMostOneKey w2 w3 -> readsAtMostOneKey w1 w3.
Proof. unfold keysKept, readsAtMostOneKey. intros <- H. exact H. Qed.

Lemma once_kept (w1 w2 w3 : World h) :
  readsAtMostOneKey w1 w2 -> keysKept w2 w3 -> readsAtMostOneKey w1 w3.
Proof. unfold keysKept, readsAtMostOneKey. intros H E. now rewrite E. Qed.

Lemma kept_is_once (w1 w2 : World h) : keysKept w1 w2 -> readsAtMostOneKey w1 w2.
Proof. intros H. now left. Qed.

Lemma bind_kept_once {A B} (m : M h A) (k : A -> M h B) (w : World h) :
  keysKept w (snd (m w)) ->
  (forall a w1, m w = (Ok a, w1) -> readsAtMostOneKey w1 (snd (k a w1))) ->
  readsAtMostOneKey w (snd (bind m k w)).
Proof.
  unfold bind. destruct (m w) as [[a|msg|why] w1]; cbn [snd]; intros H Hk;
    try (now apply kept_is_once).
  exact (kept_once _ _ _ H (Hk a w1 eq_refl)).
Qed.

Lemma bind_once_kept {A B} (m : M h A) (k : A -> M h B) (w : World h) :
  readsAtMostOneKey w (snd (m w)) ->
  (forall a w1, m w = (Ok a, w1) -> keysKept w1 (snd (k a w1))) ->
  readsAtMostOneKey w (snd (bind m k w)).
Proof.
  unfold bind. destruct (m w) as [[a|msg|why] w1]; cbn [snd]; intros H Hk; try exact H.
  exact (once_kept _ _ _ H (Hk a w1 eq_refl)).
Qed.

Lemma emit_kept (e : event) (w : World h) : keysKept w (snd (emit e w)).
Proof. reflexivity. Qed.

Lemma fsMutate_kept (op : FS h -> result (FS h)) (e : event) (w : World h) :
  keysKept w (snd (fsMutate op e w)).
Proof. unfold fsMutate. now destruct (op (fs w)). Qed.

Lemma sameOutside_kept (w w' : World h) : sameOutside w w' -> keysKept w w'.
Proof. now intros (_ & H & _). Qed.

Lemma logLines_kept (lines : list string) (w : World h) :
  keysKept w (snd (logLines lines w)).
Proof.
  unfold logLines. apply (forEach_keeps _ keysKept_refl keysKept_trans).
  intros line w1 _. apply emit_kept.
Qed.

Lemma printGistLinks_kept (tool : string) (links : list Registry.LinkRecord)
    (tag usage : option string) (w : World h) :
  keysKept w (snd (printGistLinks tool links tag usage w)).
Proof.
  unfold printGistLinks.
  apply (bind_keeps _ keysKept_trans); [apply emit_kept|]. intros _ w1 _.
  apply (bind_keeps _ keysKept_trans).
  { destruct tag as [t|]; [|apply keysKept_refl].
    destruct (JS.isEmpty t); [apply keysKept_refl | apply logLines_kept]. }
  intros _ w2 _.
  destruct (usersOf (listed links tag)) as [users|]; [|apply keysKept_refl].
  apply (bind_keeps _ keysKept_trans); [apply logLines_kept|]. intros _ w3 _.
  apply (bind_keeps _ keysKept_trans); [apply emit_kept|]. intros _ w4 _.
  destruct usage as [u|]; [destruct (JS.isEmpty u)|];
    apply logLines_kept || apply emit_kept.
Qed.

Lemma patchJsonFile_kept (targetFile patchFile : string) (w : World h) :
  keysKept w (snd (patchJsonFile h targetFile patchFile w)).
Proof.
  unfold patchJsonFile.
  apply (bind_keeps _ keysKept_trans); [apply keysKept_refl|]. intros f w1 _.
  apply (bind_keeps _ keysKept_trans).
  { destruct (negb _); [apply fsMutate_kept | apply keysKept_refl]. }
  intros _ w2 _.
  apply (bind_keeps _ keysKept_trans); [apply keysKept_refl|]. intros f2 w3 _.
  apply (bind_keeps _ keysKept_trans); [apply keysKept_refl|]. intros t w4 _.
  apply (bind_keeps _ keysKept_trans); [apply keysKept_refl|]. intros tj w5 _.
  apply (bind_keeps _ keysKept_trans); [apply keysKept_refl|]. intros pt w6 _.
  apply (bind_keeps _ keysKept_trans); [apply keysKept_refl|]. intros pj w7 _.
  apply (bind_keeps _ keysKept_trans); [apply keysKept_refl|]. intros pd w8 _.
  apply fsMutate_kept.
Qed.

Lemma writeResolved_kept (file : ResolvedFile) (w : World h) :
  keysKept w (snd (writeResolved h file w)).
Proof.
  unfold writeResolved. destruct (String.eqb (originalName file) "_init");
    [apply keysKept_refl|].
  apply (bind_keeps _ keysKept_trans).
  - unfold writeStep.
    apply (bind_keeps _ keysKept_trans); [apply keysKept_refl|]. intros f w1 _.
    apply (bind_keeps _ keysKept_trans).
    { destruct (negb _); [apply fsMutate_kept | apply keysKept_refl]. }
    intros _ w2 _.
    apply (bind_keeps _ keysKept_trans); [|intros; apply keysKept_refl].
    destruct (JS.endsWith (path file) "|base64"); apply fsMutate_kept.
  - intros filePath w1 _. unfold patchStep.
    destruct (JS.endsWith filePath ".json.patch"); [|apply keysKept_refl].
    apply (bind_keeps _ keysKept_trans); [apply keysKept_refl|]. intros f w2 _.
    destruct (existsSync h f (JS.dropLast 6 filePath)); [|apply keysKept_refl].
    apply (bind_keeps _ keysKept_trans); [apply emit_kept|]. intros _ w3 _.
    apply (bind_keeps _ keysKept_trans); [apply patchJsonFile_kept|]. intros _ w4 _.
    apply fsMutate_kept.
Qed.

Context (p : Process).

Lemma runInitLine_kept (ss : Session) (hostDir : string) (projName : option string)
    (line : string) (w : World h) :
  keysKept w (snd (runInitLine h p ss hostDir projName line w)).
Proof.
  unfold runInitLine.
  destruct (Sandbox.judge line) as [| | |cmd|cmd exe raw]; try apply keysKept_refl.
  - apply emit_kept.
  - apply (bind_keeps _ keysKept_trans); [apply emit_kept|]. intros _ w1 _.
    destruct projName as [name|]; [|apply keysKept_refl].
    now destruct (spawnSync h (fs w1) exe _ hostDir) as [f' [err|]].
Qed.

Lemma promptYesNo_once (ss : Session) (message : string) (w : World h) :
  readsAtMostOneKey w (snd (promptYesNo h ss message w)).
Proof.
  unfold promptYesNo. destruct (silent ss || forceApproval ss); [now left|].
  unfold bind, emit. cbn [stdin logged].
  destruct (stdin w) as [|key later] eqn:E; cbn [snd stdin withStdin logged].
  - left. reflexivity.
  - right. exists key. exact E.
Qed.

Lemma confirm_once (ss : Session) (message forced : string) (w : World h) :
  readsAtMostOneKey w (snd (confirm h ss message forced w)) /\
  (forceApproval ss = true -> keysKept w (snd (confirm h ss message forced w))).
Proof.
  unfold confirm. destruct (forceApproval ss); cbn [negb].
  - split; [left|intros _]; reflexivity.
  - split; [|discriminate].
    apply bind_once_kept; [apply promptYesNo_once|].
    intros [] w1 _; apply keysKept_refl.
Qed.

Lemma writeGistFile_keys (ss : Session) (gistIdOrUrl gistAlias : string)
    (to projName : option string) (w : World h) :
  readsAtMostOneKey w (snd (writeGistFile h p ss gistIdOrUrl gistAlias to projName w)) /\
  (forceApproval ss = true ->
   keysKept w (snd (writeGistFile h p ss gistIdOrUrl gistAlias to projName w))).
Proof.
  assert (Hfetch : keysKept w (snd (getGistFiles h gistIdOrUrl w))).
  { destruct (getGistFiles h gistIdOrUrl w) as [r w1] eqn:E.
    apply sameOutside_kept. exact (getGistFiles_outside h _ _ _ _ E). }
  assert (Htail : forall (initFile : option string) (gistLinkUrl : string)
                    (resolvedFiles : list ResolvedFile) (w4 : World h),
            keysKept w4
              (snd (bind
                      match initFile with
                      | Some script =>
                          bind getFs (fun f =>
                            bind (lift (resolveBasePath h p f to
                                          (" required by " +:+ gistLinkUrl)))
                                 (fun hostDir =>
                                    forEach (JS.split nl script)
                                      (runInitLine h p ss hostDir
                                         (sanitizeProjectName projName))))
                      | None => ret tt
                      end
                      (fun _ => forEach resolvedFiles (writeResolved h)) w4))).
  { intros initFile gistLinkUrl resolvedFiles w4.
    apply (bind_keeps _ keysKept_trans).
    - destruct initFile as [script|]; [|apply keysKept_refl].
      apply (bind_keeps _ keysKept_trans); [apply keysKept_refl|]. intros f5 w5 _.
      apply (bind_keeps _ keysKept_trans); [apply keysKept_refl|]. intros hostDir w6 _.
      apply (forEach_keeps _ keysKept_refl keysKept_trans).
      intros line w7 _. apply runInitLine_kept.
    - intros _ w5 _. apply (forEach_keeps _ keysKept_refl keysKept_trans).
      intros file w6 _. apply writeResolved_kept. }
  split.
  - unfold writeGistFile.
    apply bind_kept_once; [exact Hfetch|]. intros [files gistLinkUrl] w1 _.
    apply bind_kept_once; [apply keysKept_refl|]. intros f w2 _.
    apply bind_kept_once; [apply keysKept_refl|]. intros [resolvedFiles initFile] w3 _.
    apply bind_once_kept.
    + destruct (negb (silent ss)); [|now left].
      apply bind_kept_once; [apply keysKept_refl|]. intros shown w4 _.
      apply confirm_once.
    + intros _ w4 _. apply Htail.
  - intros Hforce. unfold writeGistFile.
    apply (bind_keeps _ keysKept_trans); [exact Hfetch|]. intros [files gistLinkUrl] w1 _.
    apply (bind_keeps _ keysKept_trans); [apply keysKept_refl|]. intros f w2 _.
    apply (bind_keeps _ keysKept_trans); [apply keysKept_refl|].
    intros [resolvedFiles initFile] w3 _.
    apply (bind_keeps _ keysKept_trans).
    + destruct (negb (silent ss)); [|apply keysKept_refl].
      apply (bind_keeps _ keysKept_trans); [apply keysKept_refl|]. intros shown w4 _.
      now apply confirm_once.
    + intros _ w4 _. apply Htail.
Qed.

Lemma applyLoop_keys (tool : string) (links : list Registry.LinkRecord)
    (projName : option string) (aliases : list string) :
  forall (ss : Session) (w : World h),
    readsAtMostOneKey w (snd (applyLoop h p ss tool links projName aliases w)) /\
    (forceApproval ss = true ->
     keysKept w (snd (applyLoop h p ss tool links projName aliases w))).
Proof.
  induction aliases as [|gistAlias rest IH]; intros ss w.
  - split; [left|intros _]; reflexivity.
  - assert (Hnext : forall w1, keysKept w1
                      (snd (applyLoop h p (approved ss) tool links projName rest w1)))
      by (intros w1; now apply IH).
    assert (Hmiss : keysKept w
              (snd (bind (emit (Log ("No match found for '" +:+ gistAlias
                                     +:+ "', available gists:")))
                         (fun _ => bind (printGistLinks tool links None None)
                                        (fun _ => ret (false, ss))) w))).
    { apply (bind_keeps _ keysKept_trans); [apply emit_kept|]. intros _ w1 _.
      apply (bind_keeps _ keysKept_trans); [apply printGistLinks_kept|].
      intros; apply keysKept_refl. }
    cbn [applyLoop]. split.
    + destruct (isGistId gistAlias);
        [apply bind_once_kept; [apply writeGistFile_keys | intros; apply Hnext]|].
      destruct (JS.startsWith gistAlias "https://" || JS.startsWith gistAlias "http://");
        [apply bind_once_kept; [apply writeGistFile_keys | intros; apply Hnext]|].
      destruct (findGistLink links gistAlias) as [gistLink|];
        [apply bind_once_kept; [apply writeGistFile_keys | intros; apply Hnext]|].
      apply kept_is_once, Hmiss.
    + intros Hforce.
      destruct (isGistId gistAlias);
        [apply (bind_keeps _ keysKept_trans);
           [now apply writeGistFile_keys | intros; apply Hnext]|].
      destruct (JS.startsWith gistAlias "https://" || JS.startsWith gistAlias "http://");
        [apply (bind_keeps _ keysKept_trans);
           [now apply writeGistFile_keys | intros; apply Hnext]|].
      destruct (findGistLink links gistAlias) as [gistLink|];
        [apply (bind_keeps _ keysKept_trans);
           [now apply writeGistFile_keys | intros; apply Hnext]|].
      apply Hmiss.
Qed.

(** X25.  However many bundles are applied in one run, the terminal is asked at
    most once: after the first bundle the approval is forced for the
    rest. *)
Theorem applyGists_asks_once (ss : Session) (tool : string) (gistAliases : list string)
    (projName : option string) (w : World h) :
  readsAtMostOneKey w (snd (applyGists h p ss tool gistAliases projName w)).
Proof.
  unfold applyGists. apply bind_kept_once.
  - destruct (getGistApplyLinks h ss w) as [r w1] eqn:E.
    apply sameOutside_kept. exact (getGistApplyLinks_outside h ss _ _ _ E).
  - intros links w1 _. apply applyLoop_keys.
Qed.

Lemma applyLoop_footprint (tool : string) (links : list Registry.LinkRecord)
    (projName : option string) (aliases : list string) :
  forall (ss : Session) (w : World h),
    addsTrace applyTrace w (snd (applyLoop h p ss tool links projName aliases w)).
Proof.
  induction aliases as [|gistAlias rest IH]; intros ss w; [apply addsTrace_refl|].
  cbn [applyLoop].
  destruct (isGistId gistAlias);
    [apply (bind_keeps _ (addsTrace_trans h));
       [apply writeGistFile_adds | intros; apply IH]|].
  destruct (JS.startsWith gistAlias "https://" || JS.startsWith gistAlias "http://");
    [apply (bind_keeps _ (addsTrace_trans h));
       [apply writeGistFile_adds | intros; apply IH]|].
  destruct (findGistLink links gistAlias) as [gistLink|];
    [apply (bind_keeps _ (addsTrace_trans h));
       [apply writeGistFile_adds | intros; apply IH]|].
  apply addsOnly_addsTrace.
  apply (bind_keeps _ (addsOnly_trans _)); [now apply emit_adds|]. intros _ w1 _.
  apply (bind_keeps _ (addsOnly_trans _)); [now apply printGistLinks_adds|].
  intros; apply addsOnly_refl.
Qed.

Lemma applyGists_adds (ss : Session) (tool : string) (gistAliases : list string)
    (projName : option string) (w : World h) :
  addsTrace applyTrace w (snd (applyGists h p ss tool gistAliases projName w)).
Proof.
  unfold applyGists. apply (bind_keeps _ (addsTrace_trans h)).
  - destruct (getGistApplyLinks h ss w) as [r w1] eqn:E.
    apply getGistApplyLinks_outside in E as (_ & _ & E).
    apply addsOnly_addsTrace. now apply addsOnly_same.
  - intros links w1 _. apply applyLoop_footprint.
Qed.

(** X26.  In its own calls, a run that applies bundles removes no directory and
    starts processes only without a shell; the only files it unlinks have
    paths that end in [.json.patch], each written by the run itself
    beforehand. *)
Theorem applyGists_footprint (ss : Session) (tool : string) (gistAliases : list string)
    (projName : option string) (w : World h) :
  addsTrace applyTrace w (snd (applyGists h p ss tool gistAliases projName w)).
Proof. apply applyGists_adds. Qed.

End Keys.

(* ===================================================================== *)
(** ** Command line *)
(* ===================================================================== *)

Lemma onlySwitchedOn_refl (g : Cli.Globals) : onlySwitchedOn g g.
Proof. repeat split; auto. exists []. now rewrite app_nil_r. Qed.

Lemma onlySwitchedOn_trans (g1 g2 g3 : Cli.Globals) :
  onlySwitchedOn g1 g2 -> onlySwitchedOn g2 g3 -> onlySwitchedOn g1 g3.
Proof.
  intros (A1 & A2 & A3 & A4 & A5 & m1 & E1) (B1 & B2 & B3 & B4 & B5 & m2 & E2).
  repeat split; auto. exists (m1 ++ m2). now rewrite E2, E1, app_assoc.
Qed.

Lemma isOneOf_app (a b : list string) (arg : string) :
  Cli.isOneOf (a ++ b) arg = Cli.isOneOf a arg || Cli.isOneOf b arg.
Proof. unfold Cli.isOneOf. apply existsb_app. Qed.

Lemma parseLoopKeeps_step (arg : string) (rest : list string) (r : Cli.Parsed)
    (g g1 : Cli.Globals) (tail : list string) :
  onlySwitchedOn g g1 -> sublist tail rest ->
  forall r1, Cli.gistAliases r1 = Cli.gistAliases r ->
  parseLoopKeeps tail r1 g1 ->
  onlySwitchedOn g (snd (Cli.parseLoop tail r1 g1)) /\
  forall parsed, fst (Cli.parseLoop tail r1 g1) = Ok parsed ->
    exists more, Cli.gistAliases parsed = Cli.gistAliases r ++ more /\
                 sublist more (arg :: rest) /\ Forall plainArgument more.
Proof.
  intros Hg Hsub r1 Hr [Hon Hal]. split; [exact (onlySwitchedOn_trans _ _ _ Hg Hon)|].
  intros parsed E. destruct (Hal parsed E) as (more & E1 & Hs & Hp).
  exists more. rewrite <- Hr. split; [exact E1|]. split; [|exact Hp].
  apply sublist_cons. etransitivity; [exact Hs | exact Hsub].
Qed.

Lemma parseLoopKeeps_stop (args : list string) (r : Cli.Parsed) (g g1 : Cli.Globals)
    (out : result Cli.Parsed) :
  onlySwitchedOn g g1 -> (out = Ok r \/ forall parsed, out <> Ok parsed) ->
  onlySwitchedOn g (snd (out, g1)) /\
  forall parsed, fst (out, g1) = Ok parsed ->
    exists more, Cli.gistAliases parsed = Cli.gistAliases r ++ more /\
                 sublist more args /\ Forall plainArgument more.
Proof.
  intros Hg Hout. split; [exact Hg|]. cbn [fst]. intros parsed E.
  destruct Hout as [-> | Hne]; [|now apply Hne in E].
  injection E as <-. exists []. rewrite app_nil_r. split; [reflexivity|].
  split; [apply sublist_nil_l | constructor].
Qed.

Lemma parseLoop_keeps (n : nat) :
  forall (args : list string) (r : Cli.Parsed) (g : Cli.Globals),
    length args <= n -> parseLoopKeeps args r g.
Proof.
  induction n as [|n IH]; intros args r g Hlen.
  - destruct args; [|cbn in Hlen; lia].
    apply (parseLoopKeeps_stop [] r g g (Ok r)); [apply onlySwitchedOn_refl | now left].
  - destruct args as [|arg rest].
    { apply (parseLoopKeeps_stop [] r g g (Ok r)); [apply onlySwitchedOn_refl | now left]. }
    cbn [length] in Hlen. unfold parseLoopKeeps. cbn [Cli.parseLoop].
    assert (Hrest : forall r1 g1, parseLoopKeeps rest r1 g1) by (intros; apply IH; lia).
    assert (Hskip : forall v rest' r1 g1, rest = v :: rest' -> parseLoopKeeps rest' r1 g1)
      by (intros v rest' r1 g1 ->; apply IH; cbn [length] in Hlen; lia).
    destruct (Cli.isOneOf Cli.helpArgs arg) eqn:E1.
    { apply (parseLoopKeeps_step arg rest r g g rest);
        [apply onlySwitchedOn_refl | reflexivity | reflexivity | apply Hrest]. }
    destruct (Cli.isOneOf Cli.verboseArgs arg) eqn:E2.
    { apply (parseLoopKeeps_step arg rest r g _ rest);
        [|reflexivity | reflexivity | apply Hrest].
      repeat split; auto. exists []. now rewrite app_nil_r. }
    destruct (Cli.isOneOf Cli.sourceArgs arg) eqn:E3.
    { destruct rest as [|v rest'].
      - apply parseLoopKeeps_stop; [|now left].
        repeat split; auto. exists []. now rewrite app_nil_r.
      - apply (parseLoopKeeps_step arg (v :: rest') r g _ rest');
          [|apply sublist_cons; reflexivity | reflexivity | now apply (Hskip v)].
        repeat split; auto. exists []. now rewrite app_nil_r. }
    destruct (Cli.isOneOf Cli.forceArgs arg || Cli.isOneOf Cli.yesArgs arg) eqn:E4.
    { apply (parseLoopKeeps_step arg rest r g _ rest);
        [|reflexivity | reflexivity | apply Hrest].
      repeat split; auto. exists []. now rewrite app_nil_r. }
    destruct (Cli.isOneOf Cli.preserveArgs arg) eqn:E5.
    { apply (parseLoopKeeps_step arg rest r g _ rest);
        [|reflexivity | reflexivity | apply Hrest].
      repeat split; auto. exists []. now rewrite app_nil_r. }
    destruct (Cli.isOneOf Cli.ignoreSslArgs arg) eqn:E6.
    { apply (parseLoopKeeps_step arg rest r g _ rest);
        [|reflexivity | reflexivity | apply Hrest].
      repeat split; auto. exists []. now rewrite app_nil_r. }
    destruct (Cli.isOneOf Cli.deleteArgs arg) eqn:E7.
    { apply (parseLoopKeeps_step arg rest r g g rest);
        [apply onlySwitchedOn_refl | reflexivity | reflexivity | apply Hrest]. }
    destruct (Cli.isOneOf Cli.outArgs arg) eqn:E8.
    { destruct rest as [|v rest'].
      - apply parseLoopKeeps_stop; [|right; discriminate].
        repeat split; auto. exists []. now rewrite app_nil_r.
      - apply (parseLoopKeeps_step arg (v :: rest') r g _ rest');
          [|apply sublist_cons; reflexivity | reflexivity | now apply (Hskip v)].
        repeat split; auto. exists []. now rewrite app_nil_r. }
    destruct (Cli.isOneOf Cli.nameArgs arg) eqn:E9.
    { destruct rest as [|v rest'].
      - apply parseLoopKeeps_stop; [|right; discriminate].
        repeat split; auto. exists []. now rewrite app_nil_r.
      - destruct (JS.isEmpty v).
        + apply parseLoopKeeps_stop; [|right; discriminate].
          repeat split; auto. exists []. now rewrite app_nil_r.
        + apply (parseLoopKeeps_step arg (v :: rest') r g _ rest');
            [|apply sublist_cons; reflexivity | reflexivity | now apply (Hskip v)].
          repeat split; auto. exists []. now rewrite app_nil_r. }
    destruct (Cli.isOneOf Cli.replaceArgs arg) eqn:E10.
    { destruct rest as [|v rest'].
      - apply parseLoopKeeps_stop; [apply onlySwitchedOn_refl | right; discriminate].
      - destruct (JS.isEmpty v).
        + apply parseLoopKeeps_stop; [apply onlySwitchedOn_refl | right; discriminate].
        + destruct (JS.indexOf v "=" 0) as [eqPos|].
          * apply (parseLoopKeeps_step arg (v :: rest') r g _ rest');
              [|apply sublist_cons; reflexivity | reflexivity | now apply (Hskip v)].
            repeat split; auto. now eexists.
          * apply parseLoopKeeps_stop; [apply onlySwitchedOn_refl | right; discriminate]. }
    destruct (JS.startsWith arg "-") eqn:E11.
    { apply parseLoopKeeps_stop; [apply onlySwitchedOn_refl | right; discriminate]. }
    destruct (Hrest (Cli.withAlias arg r) g) as [Hon' Hal]. split; [exact Hon'|].
    intros parsed E. destruct (Hal parsed E) as (more & E' & Hs & Hp).
    exists (arg :: more). cbn [Cli.gistAliases Cli.withAlias] in E'.
    rewrite E', <- app_assoc. split; [reflexivity|].
    split; [now apply sublist_skip|]. constructor; [|exact Hp].
    apply orb_false_iff in E4 as [E4 E4'].
    split; [|exact E11]. unfold switches. rewrite !isOneOf_app.
    now rewrite E1, E2, E3, E4, E4', E5, E6, E7, E8, E9, E10.
Qed.

(** X27.  The aliases the command line yields are arguments of it, in their
    order, none of them a switch or a word that begins with a hyphen. *)
Theorem parseArgs_aliases (args : list string) (g : Cli.Globals) (parsed : Cli.Parsed) :
  fst (Cli.parseArgs args g) = Ok parsed ->
  sublist (Cli.gistAliases parsed) args /\ Forall plainArgument (Cli.gistAliases parsed).
Proof.
  intros E. unfold Cli.parseArgs in E.
  destruct (parseLoop_keeps (length args) args
              {| Cli.help := false; Cli.deleteMode := false; Cli.gistAliases := [] |}
              g (le_n _)) as [_ H].
  destruct (H parsed E) as (more & -> & Hs & Hp). now split.
Qed.

Lemma parseArgs_aliases_witness :
  sublist ["redis"; "3"] ["-v"; "redis"; "-name"; "Acme"; "3"] /\
  Forall plainArgument ["redis"; "3"].
Proof.
  apply (parseArgs_aliases ["-v"; "redis"; "-name"; "Acme"; "3"] (freshGlobals "registry")
           {| Cli.help := false; Cli.deleteMode := false; Cli.gistAliases := ["redis"; "3"] |}).
  reflexivity.
Defined.

(** X28.  No argument turns a switch off or drops a replacement: whatever the
    command line is, and however parsing ends, a switch that was on stays
    on and the replacements so far stay at the head of the list. *)
Theorem parseArgs_only_switches_on (args : list string) (g : Cli.Globals) :
  onlySwitchedOn g (snd (Cli.parseArgs args g)).
Proof.
  exact (proj1 (parseLoop_keeps (length args) args
                  {| Cli.help := false; Cli.deleteMode := false; Cli.gistAliases := [] |}
                  g (le_n _))).
Qed.

Lemma indexOfAux_found (c : ascii) (term tail : string) :
  JS.anyChar (Ascii.eqb c) term = false ->
  JS.indexOfAux (String c EmptyString) (term +:+ String c tail) 0
  = Some (String.length term).
Proof.
  induction term as [|d term IH]; intros H.
  - change (EmptyString +:+ String c tail) with (String c tail).
    cbn [JS.indexOfAux]. now rewrite prefix_single, Ascii.eqb_refl.
  - cbn [JS.anyChar] in H. apply orb_false_iff in H as [Hd Hterm].
    rewrite append_cons. cbn [JS.indexOfAux]. rewrite prefix_single, Hd.
    rewrite indexOfAux_shift, (IH Hterm). reflexivity.
Qed.

Lemma take_append (a b : string) : JS.take (String.length a) (a +:+ b) = a.
Proof.
  induction a as [|c a IH]; [now destruct b|].
  rewrite append_cons. cbn [String.length JS.take]. now rewrite IH.
Qed.

Lemma drop_zero (s : string) : JS.drop 0 s = s.
Proof. now destruct s. Qed.

(** X29.  A replace switch followed by [term=with] adds the pair of the part
    before the first equals sign and the part after it to the
    replacements, and parsing goes on with the next argument. *)
Theorem parseArgs_replace_pair (switch term replacement : string) (rest : list string)
    (r : Cli.Parsed) (g : Cli.Globals) :
  In switch Cli.replaceArgs ->
  JS.anyChar (Ascii.eqb "="%char) term = false ->
  Cli.parseLoop (switch :: (term +:+ "=" +:+ replacement) :: rest) r g
  = Cli.parseLoop rest r (Cli.withToken term replacement g).
Proof.
  intros Hsw Hterm.
  assert (Hpair : JS.isEmpty (term +:+ "=" +:+ replacement) = false) by now destruct term.
  assert (Hpos : JS.indexOf (term +:+ "=" +:+ replacement) "=" 0
                 = Some (String.length term)).
  { unfold JS.indexOf. rewrite drop_zero. cbn [Nat.min].
    exact (indexOfAux_found "="%char term replacement Hterm). }
  assert (Hleft : JS.substring (term +:+ "=" +:+ replacement) 0 (String.length term) = term).
  { unfold JS.substring. rewrite Nat.max_0_l, Nat.min_0_l, Nat.sub_0_r, drop_zero.
    apply take_append. }
  assert (Hright : JS.substringFrom (term +:+ "=" +:+ replacement) (String.length term + 1)
                   = replacement).
  { unfold JS.substringFrom. rewrite <- drop_drop, drop_append. reflexivity. }
  destruct Hsw as [<- | [<- | [<- | []]]]; cbn [Cli.parseLoop];
    repeat match goal with
    | |- context [Cli.isOneOf ?l ?a] =>
        let v := eval vm_compute in (Cli.isOneOf l a) in
        change (Cli.isOneOf l a) with v
    end;
    cbn [orb]; change (JS.startsWith ?a "-") with (JS.startsWith a "-");
    now rewrite Hpair, Hpos, Hleft, Hright.
Qed.

Lemma parseArgs_replace_pair_witness :
  Cli.parseArgs ["-replace"; "Acme" +:+ "=" +:+ "Top=Left"] (freshGlobals "registry")
  = (Ok {| Cli.help := false; Cli.deleteMode := false; Cli.gistAliases := [] |},
     Cli.withToken "Acme" "Top=Left" (freshGlobals "registry")).
Proof.
  unfold Cli.parseArgs.
  rewrite (parseArgs_replace_pair "-replace" "Acme" "Top=Left" []);
    [reflexivity | right; left; reflexivity | reflexivity].
Defined.

Section Run.

Context (h : Host) (p : Process).

Lemma runTrace_refl (f0 : FS h) (removal : bool) (w : World h) :
  addsTrace (runTrace h f0 removal) w w.
Proof.
  exists []. rewrite app_nil_r. split; [reflexivity|].
  destruct removal; [constructor | apply applyTrace_nil].
Qed.

Lemma prints_runTrace (f0 : FS h) (removal : bool) (w w' : World h) :
  addsOnly printsOnly w w' -> addsTrace (runTrace h f0 removal) w w'.
Proof.
  intros (evs & E & H). exists evs. split; [exact E|]. destruct removal; cbn.
  - eapply List.Forall_impl; [|exact H]. now intros [].
  - apply keepsFiles_applyTrace. eapply List.Forall_impl; [|exact H]. now intros [].
Qed.

Lemma listing_prints (ss : Session) (tool : string) (tag : option string) (w : World h) :
  addsOnly printsOnly w
    (snd (bind (getGistApplyLinks h ss)
               (fun links => bind (printGistLinks tool links tag None)
                                  (fun _ => ret false)) w)).
Proof.
  apply (bind_keeps _ (addsOnly_trans _)).
  - destruct (getGistApplyLinks h ss w) as [r w1] eqn:E.
    apply getGistApplyLinks_outside in E as (_ & _ & E). now apply addsOnly_same.
  - intros links w1 _.
    apply (bind_keeps _ (addsOnly_trans _)); [now apply printGistLinks_adds|].
    intros; apply addsOnly_refl.
Qed.

Lemma dispatch_footprint (tool : string) (parsed : Cli.Parsed)
    (projName : option string) (ss : Session) (w : World h) :
  addsTrace (runTrace h (fs w) (Cli.deleteMode parsed)) w
    (snd (Cli.dispatch h p tool parsed projName ss w)).
Proof.
  unfold Cli.dispatch.
  destruct (Cli.gistAliases parsed) as [|firstArg others].
  { apply prints_runTrace, listing_prints. }
  destruct (JS.startsWith firstArg "#").
  { apply prints_runTrace, listing_prints. }
  destruct (JS.startsWith firstArg "[" && JS.endsWith firstArg "]").
  { apply prints_runTrace, listing_prints. }
  destruct (Cli.deleteMode parsed); cbn [negb].
  - destruct (deleteGists_adds h p ss tool
                (match others with
                 | [] => if JS.includes firstArg "+" then JS.split "+" firstArg
                         else [firstArg]
                 | _ :: _ => firstArg :: others
                 end) projName w) as (evs & E & H).
    exists evs. split; [exact E | exact H].
  - apply (bind_keeps _ (addsTrace_trans h)); [apply applyGists_adds|].
    intros; apply addsTrace_refl.
Qed.

(** X30.  Whatever the command line is, a run without the delete switch, in
    its own calls, removes no directory, unlinks only patch files it has
    written itself and starts processes only without a shell; a run with
    the delete switch writes nothing, makes no directory and starts no
    process, and unlinks only files that were on the file system when it
    started and removes only directories of such files. *)
Theorem mix_footprint (tool : string) (args : list string) (g : Cli.Globals)
    (w : World h) :
  addsTrace (runTrace h (fs w) (asksRemoval args g)) w (snd (Cli.mix h p tool args g w)).
Proof.
  unfold Cli.mix, asksRemoval.
  destruct (Cli.parseArgs args g) as [[parsed|msg|why] g'];
    try apply runTrace_refl.
  cbn [fst].
  destruct (Cli.help parsed).
  { apply prints_runTrace.
    apply (bind_keeps _ (addsOnly_trans _)); [now apply logLines_adds|].
    intros; apply addsOnly_refl. }
  destruct (Cli.gistLinksId g') as [id|]; [apply dispatch_footprint|].
  destruct (hasKey "undefined:mix.md" (gistLinksCache w));
    [apply dispatch_footprint | apply runTrace_refl].
Qed.

End Run.
